(** * Verification of the Glacier multipart upload engine (modules/aws.py)

    A shallow embedding of [extractChunk], [hashFile], [uploadFile],
    [uploadFiles] and [awsCommand] and the properties of the chunk planner,
    the tree hash, the part transfer loop and the batch loop.

    The module is Python 2 code ([from Queue import Queue]): [/] on two
    integers is floor division and integers are unbounded, so they are
    modelled as [Z]. *)

From Stdlib Require Import ZArith Lia.
From Stdlib.Strings Require Import Byte.
From stdpp Require Import base numbers option list strings pretty gmap sorting.

Local Open Scope Z_scope.

(** ** Integers *)

(** [1024**2], the physical hashing block and the smallest part size. *)
Definition MiB : Z := 1024 ^ 2.
Arguments MiB : simpl never.

(** The provider's cap on the number of parts of one upload. *)
Definition max_parts : Z := 10000.

(** [ceil(a / b)] for [b > 0]. *)
Definition ceil_div (a b : Z) : Z := (a + b - 1) / b.

(** [n] is a power of two. *)
Definition is_pow2 (n : Z) : Prop := exists k : Z, 0 <= k /\ n = 2 ^ k.

(** ** The chunk planner (uploadFile, lines 147-161) *)

(** [chunkSize |= chunkSize >> k] *)
Definition or_shr (x k : Z) : Z := Z.lor x (Z.shiftr x k).

(** Lines 155-161: the bit-smearing round-up to a power of two. *)
Definition round_pow2 (chunkSize : Z) : Z :=
  let chunkSize := chunkSize - 1 in
  let chunkSize := or_shr chunkSize 1 in
  let chunkSize := or_shr chunkSize 2 in
  let chunkSize := or_shr chunkSize 4 in
  let chunkSize := or_shr chunkSize 8 in
  let chunkSize := or_shr chunkSize 16 in
  chunkSize + 1.

(** Lines 148-161.  [math.ceil(float(chunkSize) / float(1024**2))] is the
    integer ceiling of the quotient: both conversions, the division by a
    power of two and the product [(1024**2) * factor] are exact in double
    precision while [chunkSize < 2^53], that is for every size a file can
    have (sizes are below [2^63], so [size / 10000 < 2^50]). *)
Definition planChunkSize (size : Z) : Z :=
  let chunkSize := size / max_parts in
  if chunkSize <=? MiB then MiB
  else
    let factor := ceil_div chunkSize MiB in
    let chunkSize := MiB * factor in
    round_pow2 chunkSize.

(** Number of parts the transfer loop sends for [size] bytes. *)
Definition part_count (size chunkSize : Z) : Z := ceil_div size chunkSize.

(** ** Python values used by the module *)

(** File contents and digests are byte strings. *)
Abbreviation bytes := (list byte).

(** The file system: path to contents.  Every file it holds is a readable
    regular file. *)
Abbreviation FS := (gmap string (list byte)).

(** The exceptions the modelled statements can raise. *)
Inductive exn : Type :=
| IOError | OSError | ValueError | TypeError | IndexError
| ZeroDivisionError.

(** Result of running a piece of the program: a value, an uncaught
    exception, or a loop of the model that ran out of fuel. *)
Inductive outcome (A : Type) : Type :=
| Ret (a : A)
| Raise (e : exn)
| OutOfFuel.
Arguments Ret {A} a.
Arguments Raise {A} e.
Arguments OutOfFuel {A}.

(** [config]: the two keys the upload path reads. *)
Record Config : Type := {
  glacier_vault : option string;   (* config["glacier-vault"], may be None *)
  prepdir : string                 (* config["prepdir"] *)
}.

(** The dictionary [awsCommand] returns.  The output of the tool, when it
    parses as JSON, is an object with string values. *)
Record AwsResult : Type := {
  code : Z;
  raw : string;
  json : option (gmap string string);   (* None when the output is no JSON *)
  error : string
}.

(** The argument lists [uploadFile] hands to [awsCommand]. *)
Inductive AwsCmd : Type :=
| InitiateMultipartUpload (vault : option string) (name : string) (partSize : Z)
| UploadMultipartPart (vault : option string) (uploadId body : string)
    (first last : Z)               (* --range: bytes first-last of any total *)
| CompleteMultipartUpload (vault : option string) (uploadId checksum : string)
    (archiveSize : Z).

(** One executed [aws] subprocess: its arguments, the file system it could
    read when it ran, and what it returned. *)
Record Call : Type := {
  c_cmd : AwsCmd;
  c_fs : gmap string (list byte);
  c_result : AwsResult
}.

(** Everything the upload path reads or changes outside its own locals. *)
Record World : Type := {
  w_fs : gmap string (list byte);
  w_calls : list Call;             (* subprocesses run so far, oldest first *)
  w_errors : list string;          (* logging.error format strings, oldest first *)
  w_sleeps : list Z                (* time.sleep arguments, oldest first *)
}.

(** Stateful computations. *)
Definition M (A : Type) : Type := World -> outcome A * World.

#[global] Instance M_ret : MRet M := fun A (a : A) w => (Ret a, w).

#[global] Instance M_bind : MBind M := fun A B (k : A -> M B) (m : M A) w =>
  match m w with
  | (Ret a, w') => k a w'
  | (Raise e, w') => (Raise e, w')
  | (OutOfFuel, w') => (OutOfFuel, w')
  end.

Definition raise {A : Type} (e : exn) : M A := fun w => (Raise e, w).

Definition lift {A : Type} (o : outcome A) : M A := fun w => (o, w).

(** How a loop body leaves the enclosing function. *)
Inductive flow : Type :=
| Fallthrough                      (* the loop ended, go on after it *)
| Return (b : bool).               (* [return b] *)

(** ** Library calls *)

Definition set_fs (fs : gmap string (list byte)) (w : World) : World :=
  {| w_fs := fs; w_calls := w_calls w; w_errors := w_errors w;
     w_sleeps := w_sleeps w |}.

(** [os.path.exists(file)] *)
Definition os_path_exists (file : string) : M bool :=
  fun w => (Ret (bool_decide (is_Some (w_fs w !! file))), w).

(** [os.path.getsize(file)] *)
Definition os_path_getsize (file : string) : M Z :=
  fun w => match w_fs w !! file with
           | Some content => (Ret (Z.of_nat (length content)), w)
           | None => (Raise OSError, w)
           end.

(** [os.unlink(path)] *)
Definition os_unlink (path : string) : M unit :=
  fun w => match w_fs w !! path with
           | Some _ => (Ret tt, set_fs (delete path (w_fs w)) w)
           | None => (Raise OSError, w)
           end.

(** [logging.error(msg, ...)]: the format string is recorded. *)
Definition logging_error (msg : string) : M unit :=
  fun w => (Ret tt,
            {| w_fs := w_fs w; w_calls := w_calls w;
               w_errors := w_errors w ++ [msg]; w_sleeps := w_sleeps w |}).

(** [time.sleep(seconds)] *)
Definition time_sleep (seconds : Z) : M unit :=
  fun w => (Ret tt,
            {| w_fs := w_fs w; w_calls := w_calls w;
               w_errors := w_errors w; w_sleeps := w_sleeps w ++ [seconds] |}).

(** The path separator, [/]. *)
Definition slash : Ascii.ascii := Ascii.ascii_of_nat 47.

(** [os.path.join(a, b)] on POSIX paths. *)
Fixpoint ends_with_slash (a : string) : bool :=
  match a with
  | EmptyString => false
  | String c EmptyString => Ascii.eqb c slash
  | String _ rest => ends_with_slash rest
  end.

Definition os_path_join (a b : string) : string :=
  match b with
  | String c _ =>
      if Ascii.eqb c slash then b
      else if bool_decide (a = EmptyString) || ends_with_slash a
           then a +:+ b else a +:+ "/" +:+ b
  | EmptyString => if bool_decide (a = EmptyString) || ends_with_slash a
         then a +:+ b else a +:+ "/" +:+ b
  end.

(** [os.path.basename(p)]: what follows the last slash. *)
Fixpoint basename_from (acc p : string) : string :=
  match p with
  | EmptyString => acc
  | String c rest =>
      if Ascii.eqb c slash then basename_from EmptyString rest
      else basename_from (acc +:+ String c EmptyString) rest
  end.

Definition os_path_basename (p : string) : string := basename_from EmptyString p.

(** [digest.hexdigest()]: two lower-case hexadecimal digits per byte. *)
Definition hex_digit (n : N) : Ascii.ascii :=
  default (Ascii.ascii_of_nat 48) (String.list_ascii_of_string "0123456789abcdef" !! N.to_nat n).

Definition hexdigest (d : list byte) : string :=
  foldr (fun b s => String (hex_digit (Byte.to_N b / 16))
                      (String (hex_digit (Byte.to_N b mod 16)) s))
        EmptyString d.

(** What [i.seek(offset); i.read(size)] returns on contents [content], for
    [0 <= offset] and [0 <= size]: the read stops at the end of the file. *)
Definition read_at (content : list byte) (offset size : Z) : list byte :=
  take (Z.to_nat size) (drop (Z.to_nat offset) content).

(** [l[i]] on a Python list: a negative index counts from the end. *)
Definition py_index {A : Type} (l : list A) (i : Z) : option A :=
  if i <? 0 then
    if 0 <=? Z.of_nat (length l) + i
    then l !! Z.to_nat (Z.of_nat (length l) + i) else None
  else l !! Z.to_nat i.

(** [l[::2]] *)
Fixpoint every_other {A : Type} (l : list A) : list A :=
  match l with
  | x :: _ :: rest => x :: every_other rest
  | _ => l
  end.

(** ** The module *)

Section Engine.

(** [hashlib.sha256(data).digest()].  A hash object is never updated
    after it is made, so it is modelled by its digest. *)
Variable sha256 : list byte -> list byte.

(** What the [n]-th [aws] subprocess of the run answers. *)
Variable aws : nat -> AwsResult.

(** [sys.stdout.isatty()] *)
Variable isatty : bool.

(** The name [tempfile.NamedTemporaryFile] picks. *)
Variable tmpname : string.

(** *** extractChunk (lines 92-98) *)

(** [io.open(file, 'rb')] fails on a missing file, [seek] on a negative
    offset and [read] on a size below -1 (-1 reads to the end).
    [io.open(tmp, 'wb')] truncates [tmp] before the read. *)
Definition extractChunk (file tmp : string) (offset size : Z) : M bool :=
  fun w =>
    match w_fs w !! file with
    | None => (Raise IOError, w)
    | Some _ =>
        if offset <? 0 then (Raise IOError, w)
        else
          let fs1 := <[tmp := []]> (w_fs w) in
          if size <? -1 then (Raise ValueError, set_fs fs1 w)
          else
            let content := default [] (fs1 !! file) in
            let buf := if size =? -1
                       then drop (Z.to_nat offset) content
                       else read_at content offset size in
            (Ret true, set_fs (<[tmp := buf]> fs1) w)
    end.

(** *** hashFile (lines 100-135) *)

(** Lines 108-114: [rest] is what the file object has not read yet. *)
Fixpoint read_blocks (fuel : nat) (rest : list byte)
    (blocks : list (list byte)) : outcome (list (list byte)) :=
  match fuel with
  | O => OutOfFuel
  | S fuel =>
      let data := take (Z.to_nat MiB) rest in
      if (length data =? 0)%nat then Ret blocks
      else read_blocks fuel (drop (Z.to_nat MiB) rest)
             (blocks ++ [sha256 data])
  end.

(** Lines 123-126: one level of the tree. *)
Definition pair_level (hashlist : list (list byte)) : outcome (list (list byte)) :=
  let output := zip_with (fun h1 h2 => sha256 (h1 ++ h2))
                  (every_other hashlist) (every_other (tail hashlist)) in
  if (Z.of_nat (length hashlist) mod 2 =? 0) then Ret output
  else match py_index hashlist (-1) with
       | Some h => Ret (output ++ [h])
       | None => Raise IndexError
       end.

(** Lines 117-131.  [final] is the list the closure appends to; the
    function returns it next to its own result. *)
Fixpoint recurse (fuel : nat) (chunkSize : Z) (final hashlist : list (list byte))
    (size : Z) : outcome (list (list byte) * list byte) :=
  match fuel with
  | O => OutOfFuel
  | S fuel =>
      let final := if size =? chunkSize then final ++ hashlist else final in
      match pair_level hashlist with
      | Ret output =>
          if 1 <? Z.of_nat (length output)
          then recurse fuel chunkSize final output (size * 2)
          else match py_index output 0 with
               | Some h => Ret (final, h)
               | None => Raise IndexError
               end
      | Raise e => Raise e
      | OutOfFuel => OutOfFuel
      end
  end.

(** The dictionary [hashFile] returns.  Its ['blocks'] entry is the list
    object [final] itself, so it shows what [recurse] appends while the
    ['final'] entry is computed. *)
Record Hashes : Type := {
  blocks : list (list byte);     (* result['blocks'] *)
  final : list byte              (* result['final'] *)
}.

Definition hashFile (fuel : nat) (fs : gmap string (list byte)) (file : string)
    (chunkSize : Z) : outcome (option Hashes) :=
  match fs !! file with
  | None => Ret None
  | Some content =>
      match read_blocks fuel content [] with
      | Ret blks =>
          match recurse fuel chunkSize []
                  (match blks with [] => [sha256 []] | _ => blks end) MiB with
          | Ret (fin, root) => Ret (Some {| blocks := fin; final := root |})
          | Raise e => Raise e
          | OutOfFuel => OutOfFuel
          end
      | Raise e => Raise e
      | OutOfFuel => OutOfFuel
      end
  end.

(** *** awsCommand (lines 261-285) *)

(** The subprocess is the environment: call number [n] of the run gets
    [aws n], and the call is recorded with the file system it ran on.
    [Popen] itself is taken to succeed (the tool is installed). *)
Definition awsCommand (config : Config) (args : AwsCmd) : M (option AwsResult) :=
  match glacier_vault config with
  | None =>
      logging_error "awsCommand() called without proper settings";;
      mret None
  | Some _ =>
      fun w =>
        let r := aws (length (w_calls w)) in
        (Ret (Some r),
         {| w_fs := w_fs w;
            w_calls := w_calls w ++ [{| c_cmd := args; c_fs := w_fs w; c_result := r |}];
            w_errors := w_errors w; w_sleeps := w_sleeps w |})
  end.

(** *** uploadFile (lines 137-238) *)

(** The progress lines (184 and 225), written only to a terminal: the
    text is dropped, the float divisions are not. *)
Definition progress (divisors : list Z) : M unit :=
  if isatty && existsb (Z.eqb 0) divisors then raise ZeroDivisionError
  else mret tt.

(** Lines 200-212: does this answer end the retry loop ([break])? *)
Definition part_accepted (hashes : Hashes) (block : Z)
    (result : option AwsResult) : M bool :=
  match result with
  | Some r =>
      match json r with
      | Some j =>
          match j !! "checksum" with
          | Some checksum =>
              match py_index (blocks hashes) block with
              | None => raise IndexError
              | Some leaf =>
                  if bool_decide (hexdigest leaf = checksum) then mret true
                  else
                    logging_error "Hash does not match, expected %s got %s.";;
                    mret false
              end
          | None => mret false   (* result['error'] is a string: logged *)
          end
      | None => mret false
      end
  | None => raise TypeError     (* result['error'] on None *)
  end.

(** Lines 197-216: the retry loop; returns [retry] as the loop leaves it. *)
Fixpoint upload_part (retry : nat) (config : Config) (hashes : Hashes)
    (uploadId tmpfile : string) (offset chunk block : Z) : M nat :=
  match retry with
  | O => mret O
  | S tries =>
      result ← awsCommand config
                 (UploadMultipartPart (glacier_vault config) uploadId tmpfile
                    offset (offset + chunk - 1));
      ok ← part_accepted hashes block result;
      if ok : bool then mret retry
      else
        time_sleep ((10 - Z.of_nat tries) * 30);;
        upload_part tries config hashes uploadId tmpfile offset chunk block
  end.

(** Lines 186-226: the transfer loop. *)
Fixpoint transfer (fuel : nat) (config : Config) (hashes : Hashes)
    (file tmpfile uploadId : string) (size chunkSize bytesDone bytesTotal : Z)
    (remain offset block : Z) : M flow :=
  if 0 <? remain then
    match fuel with
    | O => lift OutOfFuel
    | S fuel =>
        let chunk := if chunkSize <? remain then chunkSize else remain in
        extracted ← extractChunk file tmpfile offset chunkSize;
        if negb extracted then
          logging_error "Unable to extract chunk for upload";;
          mret (Return false)
        else
          retry ← upload_part 10 config hashes uploadId tmpfile offset chunk block;
          if (retry =? 0)%nat then
            logging_error "Unable to upload %s at offset %d";;
            mret (Return false)
          else
            let block := block + 1 in
            let remain := remain - chunk in
            let offset := offset + chunk in
            progress [size; bytesTotal];;
            transfer fuel config hashes file tmpfile uploadId size chunkSize
              bytesDone bytesTotal remain offset block
    end
  else mret Fallthrough.

(** Lines 169-238: initiate, transfer every part, commit. *)
Definition upload_hashed (fuel : nat) (config : Config) (file tmpfile name : string)
    (size chunkSize : Z) (hashes : Hashes) (bytesDone bytesTotal : Z) : M bool :=
  result ← awsCommand config
             (InitiateMultipartUpload (glacier_vault config) name chunkSize);
  started ←
    match result with
    | None => mret None
    | Some r =>
        if negb (code r =? 0) then mret None
        else match json r with
             | None => raise TypeError   (* 'uploadId' not in None *)
             | Some j => mret (j !! "uploadId")
             end
    end;
  match started with
  | None => logging_error "Unable to initiate upload: %s";; mret false
  | Some uploadId =>
      progress [bytesTotal];;
      sent ← transfer fuel config hashes file tmpfile uploadId size chunkSize
               bytesDone bytesTotal size 0 0;
      match sent with
      | Return b => mret b
      | Fallthrough =>
          result ← awsCommand config
                     (CompleteMultipartUpload (glacier_vault config) uploadId
                        (hexdigest (final hashes)) size);
          match result with
          | Some r =>
              if code r =? 0 then mret true
              else logging_error "Failed to upload %s: %s";; mret false
          | None => logging_error "Failed to upload %s: %s";; mret false
          end
      end
  end.

(** Lines 137-167, then the remote part. *)
Definition uploadFile (fuel : nat) (config : Config) (prefix file tmpfile : string)
    (bytesDone bytesTotal : Z) (withPath : bool) : M bool :=
  found ← os_path_exists file;
  if negb found then
    logging_error "File %s does not exist";; mret false
  else
    let name := if withPath then file else os_path_basename file in
    size ← os_path_getsize file;
    let chunkSize := planChunkSize size in
    hashes ← (fun w => (hashFile fuel (w_fs w) file chunkSize, w));
    match hashes with
    | None => logging_error "Unable to hash file %s";; mret false
    | Some hashes =>
        upload_hashed fuel config file tmpfile name size chunkSize hashes
          bytesDone bytesTotal
    end.

(** *** uploadFiles (lines 240-259) *)

(** [tempfile.NamedTemporaryFile(dir='/tmp', delete=False)] followed by
    [tf.close()]: the empty file [tmpname] now exists. *)
Definition NamedTemporaryFile : M string :=
  fun w => (Ret tmpname, set_fs (<[tmpname := []]> (w_fs w)) w).

(** Line 255 does not parse as it stands:

      if not uploadFile(config, "(%d of %d) " % (i, len(files), file, tmp, d, bytes):

    the parenthesis that opens the arguments of [%] is never closed.  What
    the line tests is therefore left open: [line255 config i total file tmp d
    bytes], with [total] for [len(files)], is the computation whose result
    [not] negates, whatever the line is made to say with the names it
    mentions. *)
Variable line255 : Config -> Z -> nat -> string -> string -> Z -> Z -> M bool.

(** Lines 252-257. *)
Fixpoint upload_each (config : Config) (total : nat) (tmp : string)
    (files : list string) (i d bytes : Z) : M flow :=
  match files with
  | [] => mret Fallthrough
  | file :: rest =>
      let i := i + 1 in
      let file := os_path_join (prepdir config) file in
      ok ← line255 config i total file tmp d bytes;
      if negb ok then mret (Return false)
      else
        size ← os_path_getsize file;
        upload_each config total tmp rest i (d + size) bytes
  end.

Definition uploadFiles (config : Config) (files : list string) (bytes : Z) : M bool :=
  tmp ← NamedTemporaryFile;
  sent ← upload_each config (length files) tmp files 0 0 bytes;
  match sent with
  | Return b => mret b
  | Fallthrough => os_unlink tmp;; mret true
  end.

End Engine.

(** *** Two ways to close the parenthesis of line 255 *)

(** Closed after [len(files)], the one place where the line then calls
    [uploadFile] as its signature asks: the prefix is formatted from [i] and
    [len(files)], and [file], [tmp], [d] and [bytes] are the other
    arguments. *)
Definition line255_call (sha256 : list byte -> list byte) (aws : nat -> AwsResult)
    (isatty : bool) (fuel : nat) :
    Config -> Z -> nat -> string -> string -> Z -> Z -> M bool :=
  fun config i total file tmp d bytes =>
    uploadFile sha256 aws isatty fuel config
      ("(" +:+ pretty i +:+ " of " +:+ pretty total +:+ ") ")
      file tmp d bytes false.

(** Closed anywhere else, [%] does not get the two values its format
    asks for and raises [TypeError] before [uploadFile] is called. *)
Definition line255_format_error :
    Config -> Z -> nat -> string -> string -> Z -> Z -> M bool :=
  fun _ _ _ _ _ _ _ => raise TypeError.

(** ** The tree hash as the specification words it *)

Section TreeHash.

Variable sha256 : list byte -> list byte.

(** Pair adjacent nodes, [digest(left || right)] for each pair; an odd
    trailing node is carried forward unpaired. *)
Fixpoint pair_adjacent (level : list (list byte)) : list (list byte) :=
  match level with
  | l :: r :: rest => sha256 (l ++ r) :: pair_adjacent rest
  | _ => level
  end.

(** The level reached after [k] rounds of pairing. *)
Definition tree_level (k : nat) (level : list (list byte)) : list (list byte) :=
  Nat.iter k pair_adjacent level.

(** Pair until one node remains: [length level] rounds always suffice,
    and a single node is left unchanged by further rounds. *)
Definition tree_root (level : list (list byte)) : option (list byte) :=
  head (tree_level (length level) level).

(** The [i]-th 1 MiB block of a file. *)
Definition nth_block (content : list byte) (i : nat) : list byte :=
  take (Z.to_nat MiB) (drop (i * Z.to_nat MiB) content).

(** One digest per 1 MiB block, in file order. *)
Definition block_digests (content : list byte) : list (list byte) :=
  map (fun i => sha256 (nth_block content i))
      (seq 0 (Z.to_nat (ceil_div (Z.of_nat (length content)) MiB))).

(** An empty file is a single block whose content is the empty string. *)
Definition tree_leaves (content : list byte) : list (list byte) :=
  match content with
  | [] => [sha256 []]
  | _ => block_digests content
  end.

End TreeHash.

(** Some bit of [x] among the [m] bits from position [i] upwards is set. *)
Definition window (x m i : Z) : Prop :=
  exists s, 0 <= s < m /\ Z.testbit x (i + s) = true.

(** ** Reading the log of subprocesses *)

(** The recorded call of [args] on file system [fs] answered by [r]. *)
Definition call_of (args : AwsCmd) (fs : gmap string (list byte)) (r : AwsResult) : Call :=
  {| c_cmd := args; c_fs := fs; c_result := r |}.

(** The call is an attempt to upload the part that starts at byte [first]. *)
Definition is_part_attempt (first : Z) (c : Call) : bool :=
  match c_cmd c with
  | UploadMultipartPart _ _ _ f _ => f =? first
  | _ => false
  end.

(** The call is the commit, [complete-multipart-upload]. *)
Definition is_commit (c : Call) : bool :=
  match c_cmd c with
  | CompleteMultipartUpload _ _ _ _ => true
  | _ => false
  end.

(** The answer [r] to an attempt fails against the expected [leaf]: the
    output is no JSON (an error result), it has no checksum, or its
    checksum is not the hex digest of the leaf. *)
Definition attempt_failed (leaf : option (list byte)) (r : AwsResult) : bool :=
  match json r with
  | None => true
  | Some j =>
      match j !! "checksum" with
      | None => true
      | Some checksum => negb (bool_decide (hexdigest <$> leaf = Some checksum))
      end
  end.

(** The leaf that covers the part starting at byte [first]. *)
Definition leaf_of (leaves : list (list byte)) (chunkSize first : Z) : option (list byte) :=
  py_index leaves (first / chunkSize).

(** The failed attempts at the part starting at [first] in a log. *)
Definition failed_attempts (leaves : list (list byte)) (chunkSize first : Z)
    (log : list Call) : list Call :=
  List.filter (fun c => is_part_attempt first c
                        && attempt_failed (leaf_of leaves chunkSize first) (c_result c))
              log.

(** The attempt whose answer let the retry loop go on to the next part. *)
Definition accepted_attempt (leaves : list (list byte)) (chunkSize : Z) (c : Call) : bool :=
  match c_cmd c with
  | UploadMultipartPart _ _ _ first _ =>
      negb (attempt_failed (leaf_of leaves chunkSize first) (c_result c))
  | _ => false
  end.

(** The bytes an attempt addresses: the first [last - first + 1] bytes of
    the staged file. *)
Definition addressed_bytes (c : Call) : list byte :=
  match c_cmd c with
  | UploadMultipartPart _ _ body first last =>
      take (Z.to_nat (last - first + 1)) (default [] (c_fs c !! body))
  | _ => []
  end.

(** A transport that accepts an upload at once: call number [base] (the
    initiate call) succeeds with an upload id, each of the following [parts]
    calls answers with the hex digest of the leaf of its part, and the call
    after them (the commit) succeeds. *)
Definition accepting (aws : nat -> AwsResult) (base : nat) (leaves : list (list byte))
    (parts : nat) : Prop :=
  code (aws base) = 0 /\
  (exists j uploadId, json (aws base) = Some j /\ j !! "uploadId" = Some uploadId) /\
  (forall k, (k < parts)%nat ->
     exists leaf, leaves !! k = Some leaf /\
                  attempt_failed (Some leaf) (aws (base + 1 + k)%nat) = false) /\
  code (aws (base + 1 + parts)%nat) = 0.

(** The call uploads a part that starts at byte [lo] or later. *)
Definition part_from (lo : Z) (c : Call) : Prop :=
  match c_cmd c with
  | UploadMultipartPart _ _ _ first _ => lo <= first
  | _ => False
  end.

(** ** Invariants of the world *)

(** [m] keeps the invariant [I] of the world, however it ends. *)
Definition keeps {A : Type} (I : World -> Prop) (m : M A) : Prop :=
  forall w, I w -> I (m w).2.

(** Invariants that only read the error log. *)
Definition on_errors (P : list string -> Prop) (w : World) : Prop := P (w_errors w).

(** The log never holds [msg] if it is not a message of the run. *)
Definition never_logged (msg : string) : World -> Prop :=
  on_errors (fun errors => msg ∉ errors).

(** ** Sample values for the examples *)

(** A stand-in digest function: prefixes its input with a marker byte. *)
Definition sample_digest (data : list byte) : list byte := x01 :: data.

Definition sample_config : Config :=
  {| glacier_vault := Some "vault"; prepdir := "/prep" |}.

(** A world with one three-byte archive to upload and nothing run yet. *)
Definition sample_world : World :=
  {| w_fs := {[ "/prep/a.tar" := [x61; x62; x63] ]};
     w_calls := []; w_errors := []; w_sleeps := [] |}.

(** A successful answer of the [aws] tool carrying [checksum]. *)
Definition sample_result (checksum : string) : AwsResult :=
  {| code := 0; raw := EmptyString;
     json := Some {[ "uploadId" := "upload-1"; "checksum" := checksum ]};
     error := EmptyString |}.

(** The tool answers every call with a checksum that matches nothing. *)
Definition sample_aws_mismatch (n : nat) : AwsResult := sample_result "00".

(** The tool answers every call with the checksum of the sample archive. *)
Definition sample_aws_match (n : nat) : AwsResult :=
  sample_result (hexdigest (sample_digest [x61; x62; x63])).

(** What [hashFile] returns on the sample archive. *)
Definition sample_hashes : Hashes :=
  {| blocks := [sample_digest [x61; x62; x63]];
     final := sample_digest [x61; x62; x63] |}.

(** The first byte an upload-part call addresses. *)
Definition part_first (c : Call) : Z :=
  match c_cmd c with
  | UploadMultipartPart _ _ _ first _ => first
  | _ => 0
  end.

(** The call uploads part [k] of the upload [uploadId] from the staging
    file [body]: the bytes from [k * chunkSize] up to the end of the part
    or of the file, whichever comes first. *)
Definition part_call (vault : option string) (uploadId body : string)
    (size chunkSize : Z) (c : Call) : Prop :=
  exists k, 0 <= k /\ k * chunkSize < size /\
    c_cmd c = UploadMultipartPart vault uploadId body (k * chunkSize)
                (Z.min ((k + 1) * chunkSize) size - 1).

(** The call is an [upload-multipart-part]. *)
Definition is_part (c : Call) : bool :=
  match c_cmd c with
  | UploadMultipartPart _ _ _ _ _ => true
  | _ => false
  end.

(** Two file systems that hold the same at every path but [tmpfile]. *)
Definition same_but (tmpfile : string) (fs fs' : gmap string (list byte)) : Prop :=
  forall path, path <> tmpfile -> fs' !! path = fs !! path.

(** The waits of the retry loop after [failures] failed attempts. *)
Definition backoff (failures : nat) : list Z :=
  map (fun i => 30 * Z.of_nat i) (seq 1 failures).

(** What one upload adds to the log, and how it ends.  The first call
    initiates the upload with the part size and the archive name.  Unless
    the run stops there, the answer carried an upload id; then come the
    attempts at the parts, in file order, and last, if every part went
    through, the commit with the checksum and the size of the archive, whose
    exit code decides the result. *)
Definition upload_log (config : Config) (name tmpfile : string) (size chunkSize : Z)
    (checksum : string) (fs : gmap string (list byte)) (new : list Call)
    (result : outcome bool) : Prop :=
  exists (init : Call) (parts tail : list Call),
    new = init :: parts ++ tail /\
    c_cmd init = InitiateMultipartUpload (glacier_vault config) name chunkSize /\
    c_fs init = fs /\
    ((parts = [] /\ tail = [] /\ result <> Ret true) \/
     exists (j : gmap string string) (uploadId : string),
       code (c_result init) = 0 /\
       json (c_result init) = Some j /\
       j !! "uploadId" = Some uploadId /\
       Forall (part_call (glacier_vault config) uploadId tmpfile size chunkSize) parts /\
       StronglySorted (fun a b => part_first a <= part_first b) parts /\
       ((tail = [] /\ result <> Ret true) \/
        exists commit : Call,
          tail = [commit] /\
          c_cmd commit
          = CompleteMultipartUpload (glacier_vault config) uploadId checksum size /\
          result = Ret (code (c_result commit) =? 0))).

(** The world after the first call of an upload, answered by [r]. *)
Definition initiated (config : Config) (name : string) (chunkSize : Z) (r : AwsResult)
    (w : World) : World :=
  {| w_fs := w_fs w;
     w_calls := w_calls w
                ++ [call_of (InitiateMultipartUpload (glacier_vault config) name chunkSize)
                      (w_fs w) r];
     w_errors := w_errors w; w_sleeps := w_sleeps w |}.

(** A configuration without a vault. *)
Definition sample_config_no_vault : Config :=
  {| glacier_vault := None; prepdir := "/prep" |}.

(** The tool exits with code 1 and prints nothing. *)
Definition sample_aws_refused (n : nat) : AwsResult :=
  {| code := 1; raw := EmptyString; json := None; error := "AccessDenied" |}.

(** The tool exits with code 0 and prints nothing that parses. *)
Definition sample_aws_silent (n : nat) : AwsResult :=
  {| code := 0; raw := EmptyString; json := None; error := EmptyString |}.

(** ** isConfigured (lines 40-81) *)

(** *** Text files *)

(** Line feed and carriage return. *)
Definition lf : Ascii.ascii := Ascii.ascii_of_nat 10.
Definition cr : Ascii.ascii := Ascii.ascii_of_nat 13.

(** [needle in hay] on strings. *)
Fixpoint contains (needle hay : string) : bool :=
  String.prefix needle hay
  || match hay with
     | EmptyString => false
     | String _ rest => contains needle rest
     end.

(** [s.lower()] on ASCII text. *)
Definition ascii_lower (c : Ascii.ascii) : Ascii.ascii :=
  let n := Ascii.nat_of_ascii c in
  if (65 <=? n)%nat && (n <=? 90)%nat then Ascii.ascii_of_nat (n + 32) else c.

Fixpoint lower (s : string) : string :=
  match s with
  | EmptyString => EmptyString
  | String c rest => String (ascii_lower c) (lower rest)
  end.

(** The text of a file opened by [io.open(path)]: the bytes decoded in the
    encoding of the locale, here ASCII (the C locale), where a byte above
    127 is a [UnicodeDecodeError], a [ValueError].  ASCII bytes decode to
    the same text in every encoding a locale is likely to have. *)
Definition is_ascii (b : byte) : bool := (Byte.to_N b <? 128)%N.

Definition decode (content : list byte) : option string :=
  if forallb is_ascii content
  then Some (String.string_of_list_ascii (map Ascii.ascii_of_byte content))
  else None.

(** Universal newlines, the default of [io.open]: a carriage return, with
    or without a line feed after it, reads as one line feed. *)
Fixpoint universal_newlines (s : string) : string :=
  match s with
  | EmptyString => EmptyString
  | String c rest =>
      if Ascii.eqb c cr then
        String lf
          match rest with
          | String c' rest' =>
              if Ascii.eqb c' lf then universal_newlines rest'
              else universal_newlines rest
          | EmptyString => EmptyString
          end
      else String c (universal_newlines rest)
  end.

(** [io.open(path)]: the file object is the text still to be read. *)
Definition io_open (path : string) : M string :=
  fun w =>
    match w_fs w !! path with
    | None => (Raise IOError, w)
    | Some content =>
        match decode content with
        | None => (Raise ValueError, w)
        | Some text => (Ret (universal_newlines text), w)
        end
    end.

(** [f.readline()]: the text up to and with the next line feed, or what is
    left of the file, the empty string at its end; and the file after it. *)
Fixpoint readline (f : string) : string * string :=
  match f with
  | EmptyString => (EmptyString, EmptyString)
  | String c rest =>
      if Ascii.eqb c lf then (String c EmptyString, rest)
      else let (line, f) := readline rest in (String c line, f)
  end.

(** The lines of a text, each with its line feed if it has one. *)
Fixpoint text_lines (s : string) : list string :=
  match s with
  | EmptyString => []
  | String c rest =>
      if Ascii.eqb c lf then String c EmptyString :: text_lines rest
      else match text_lines rest with
           | [] => [String c EmptyString]
           | line :: lines => String c line :: lines
           end
  end.

(** The line mentions [word], in any case. *)
Definition mentions (word line : string) : bool := contains word (lower line).

Section Configured.

(** The home directory [os.path.expanduser] finds for the current user,
    without a slash at its end. *)
Variable userhome : string.

(** [os.path.expanduser(path)] for a path that is [~] or starts with [~/]
    (or does not start with [~] at all). *)
Definition os_path_expanduser (path : string) : string :=
  match path with
  | String c rest =>
      if Ascii.eqb c (Ascii.ascii_of_nat 126) then userhome +:+ rest else path
  | EmptyString => path
  end.

(** Lines 51-58. *)
Fixpoint scan_config (fuel : nat) (f : string) (hasRegion hasJSON : bool) :
    outcome (bool * bool) :=
  match fuel with
  | O => OutOfFuel
  | S fuel =>
      let (line, f) := readline f in
      let line := lower line in
      if contains "region" line then scan_config fuel f true hasJSON
      else if contains "output" line && contains "json" line
           then scan_config fuel f hasRegion true
           else if String.eqb line EmptyString then Ret (hasRegion, hasJSON)
                else scan_config fuel f hasRegion hasJSON
  end.

(** Lines 61-68. *)
Fixpoint scan_credentials (fuel : nat) (f : string) (hasCred1 hasCred2 : bool) :
    outcome (bool * bool) :=
  match fuel with
  | O => OutOfFuel
  | S fuel =>
      let (line, f) := readline f in
      let line := lower line in
      if contains "aws_access_key_id" line then scan_credentials fuel f true hasCred2
      else if contains "aws_secret_access_key" line
           then scan_credentials fuel f hasCred1 true
           else if String.eqb line EmptyString then Ret (hasCred1, hasCred2)
                else scan_credentials fuel f hasCred1 hasCred2
  end.

(** [if not flag: logging.error(msg)] *)
Definition complain_unless (flag : bool) (msg : string) : M unit :=
  if negb flag then logging_error msg else mret tt.

Definition isConfigured (fuel : nat) : M bool :=
  found ← (config ← os_path_exists (os_path_expanduser "~/.aws/config");
           if negb config then mret false
           else os_path_exists (os_path_expanduser "~/.aws/credentials"));
  if negb found then
    logging_error
      "AWS is not configured, please run aws tool with configure for current user";;
    mret false
  else
    f ← io_open (os_path_expanduser "~/.aws/config");
    '(hasRegion, hasJSON) ← lift (scan_config fuel f false false);
    f ← io_open (os_path_expanduser "~/.aws/credentials");
    '(hasCred1, hasCred2) ← lift (scan_credentials fuel f false false);
    complain_unless hasRegion "AWS configuration is missing region setting";;
    complain_unless hasJSON
      "AWS configuration is missing output setting or it's not set to JSON";;
    complain_unless hasCred1 "AWS configuration is missing aws_access_key_id";;
    complain_unless hasCred2 "AWS configuration is missing aws_secret_access_key";;
    if negb (hasRegion && hasJSON && hasCred1 && hasCred2) then
      logging_error
        "Please resolve issues by running aws tool with configure for current user";;
      mret false
    else mret true.

End Configured.

(** What the two loops of [isConfigured] are after, said on the lines of
    the two files.  A line that mentions the region is not looked at for
    the output format, nor one with the key id for the secret key. *)
Definition has_region (lines : list string) : bool :=
  existsb (mentions "region") lines.

Definition has_json (lines : list string) : bool :=
  existsb (fun line => negb (mentions "region" line)
                       && (mentions "output" line && mentions "json" line)) lines.

Definition has_key_id (lines : list string) : bool :=
  existsb (mentions "aws_access_key_id") lines.

Definition has_secret_key (lines : list string) : bool :=
  existsb (fun line => negb (mentions "aws_access_key_id" line)
                       && mentions "aws_secret_access_key" line) lines.

(** The complaint logged when [flag] does not hold. *)
Definition complaint (flag : bool) (msg : string) : list string :=
  if flag then [] else [msg].

(** The bytes of an ASCII text. *)
Definition encode (text : string) : list byte :=
  map Ascii.byte_of_ascii (String.list_ascii_of_string text).

(** A home with both files in order. *)
Definition sample_home : World :=
  {| w_fs := {[ "/home/u/.aws/config" := encode (String.append "[default]" (String lf
                  (String.append "Region = eu-west-1" (String cr (String lf
                  (String.append "output = json" (String lf EmptyString)))))));
                "/home/u/.aws/credentials" := encode (String.append "[default]" (String lf
                  (String.append "aws_access_key_id = AKIA" (String lf
                  (String.append "aws_secret_access_key = abc" EmptyString))))) ]};
     w_calls := []; w_errors := []; w_sleeps := [] |}.

(** * Properties *)

Lemma MiB_eq : MiB = 1048576.
Proof. reflexivity. Qed.

Lemma MiB_nat_pos : (0 < Z.to_nat MiB)%nat.
Proof. rewrite MiB_eq. lia. Qed.

(** [Z.to_nat MiB] is never to be computed in unary. *)
#[global] Opaque MiB.

(** ** Ceiling division *)

Lemma ceil_div_ceil_div (a b c : Z) :
  0 < b -> 0 < c -> ceil_div (ceil_div a b) c = ceil_div a (b * c).
Proof.
  intros Hb Hc. unfold ceil_div.
  replace ((a + b - 1) / b + c - 1) with ((a + b - 1) / b + (c - 1)) by lia.
  rewrite <- Z.div_add by lia. rewrite Z.div_div by lia.
  f_equal. lia.
Qed.

Lemma ceil_div_1 (a : Z) : ceil_div a 1 = a.
Proof. unfold ceil_div. rewrite Z.div_1_r. lia. Qed.

(** [ceil_div a b] is the least [n] with [a <= n * b]. *)
Lemma ceil_div_le_iff (a b n : Z) : 0 < b -> ceil_div a b <= n <-> a <= n * b.
Proof.
  intros Hb. unfold ceil_div.
  pose proof (Z.div_mod (a + b - 1) b).
  pose proof (Z.mod_pos_bound (a + b - 1) b). nia.
Qed.

(** ** The planner at the part-count boundary *)

Example plan_small : planChunkSize 12345 = 1048576.
Proof. vm_compute. reflexivity. Qed.

Example plan_20GiB : planChunkSize (20 * 1024 ^ 3) = 4194304.
Proof. vm_compute. reflexivity. Qed.

(** C1: the planner on a file of 10000 MiB + 1 bytes keeps the 1 MiB part
    size, so the upload needs 10001 parts: the cap of 10000 is exceeded. *)
Theorem planChunkSize_exceeds_part_cap :
  planChunkSize (10000 * MiB + 1) = MiB /\
  part_count (10000 * MiB + 1) (planChunkSize (10000 * MiB + 1)) = 10001.
Proof. split; vm_compute; reflexivity. Qed.

(** C2: a file of exactly 10000 MiB plans to 1 MiB, and so does a file of
    10000 MiB + 1 bytes, where the next power of two (2 MiB) was needed. *)
Theorem planChunkSize_boundary :
  planChunkSize (10000 * MiB) = MiB /\
  planChunkSize (10000 * MiB + 1) = MiB /\
  planChunkSize (10000 * MiB + 1) <> 2 * MiB.
Proof. repeat split; vm_compute; congruence. Qed.

(** ** The tree hash *)

(** *** Lists two elements at a time *)

Lemma list_pair_ind {A : Type} (P : list A -> Prop) :
  P [] -> (forall x, P [x]) ->
  (forall x y rest, P rest -> P (x :: y :: rest)) ->
  forall l, P l.
Proof.
  intros Hnil Hone Hstep.
  assert (H : forall l, P l /\ forall x, P (x :: l)).
  { induction l as [|y l [IH1 IH2]]; split; auto. }
  intro l. apply H.
Qed.

Lemma every_other_cons {A : Type} (y : A) (rest : list A) :
  every_other (y :: rest) = y :: every_other (tail rest).
Proof. destruct rest as [|z [|? ?]]; reflexivity. Qed.

Section HashFacts.

Variable sha256 : list byte -> list byte.

Lemma py_index_last (l : list (list byte)) :
  py_index l (-1) = last l.
Proof.
  unfold py_index. simpl (-1 <? 0).  cbv iota.
  destruct l as [|x l]; [reflexivity|].
  replace (0 <=? Z.of_nat (length (x :: l)) + -1) with true
    by (symmetry; apply Z.leb_le; simpl length; lia).
  rewrite last_lookup. f_equal. simpl length. lia.
Qed.

Lemma pair_level_adjacent (hashlist : list (list byte)) :
  pair_level sha256 hashlist = Ret (pair_adjacent sha256 hashlist).
Proof.
  unfold pair_level. rewrite py_index_last.
  induction hashlist as [| x | x y rest IH] using list_pair_ind.
  - reflexivity.
  - reflexivity.
  - rewrite every_other_cons.
    change (tail (x :: y :: rest)) with (y :: rest).
    rewrite every_other_cons.
    change (every_other (x :: y :: rest)) with (x :: every_other rest).
    replace (Z.of_nat (length (x :: y :: rest)) mod 2)
      with (Z.of_nat (length rest) mod 2).
    2:{ simpl length. rewrite !Nat2Z.inj_succ.
        replace (Z.succ (Z.succ (Z.of_nat (length rest))))
          with (Z.of_nat (length rest) + 1 * 2) by lia.
        now rewrite Z.mod_add. }
    change (last (x :: y :: rest)) with (last (y :: rest)).
    simpl zip_with. simpl pair_adjacent.
    destruct (Z.of_nat (length rest) mod 2 =? 0) eqn:E.
    + congruence.
    + destruct rest as [|z rest]; [discriminate|].
      change (last (y :: z :: rest)) with (last (z :: rest)).
      destruct (last (z :: rest)); simpl in *; congruence.
Qed.

Lemma length_pair_adjacent (level : list (list byte)) :
  length (pair_adjacent sha256 level) = ((length level + 1) / 2)%nat.
Proof.
  induction level as [| x | x y rest IH] using list_pair_ind.
  - reflexivity.
  - reflexivity.
  - cbn [pair_adjacent length]. rewrite IH.
    pose proof (Nat.div_mod_eq (length rest + 1) 2).
    pose proof (Nat.div_mod_eq (S (S (length rest)) + 1) 2).
    pose proof (Nat.mod_upper_bound (length rest + 1) 2).
    pose proof (Nat.mod_upper_bound (S (S (length rest)) + 1) 2).
    lia.
Qed.

(** *** Levels of the tree *)

Lemma pair_adjacent_single (level : list (list byte)) :
  (length level <= 1)%nat -> pair_adjacent sha256 level = level.
Proof. destruct level as [|x [|y rest]]; simpl; intros; try reflexivity; lia. Qed.

Lemma tree_level_single (k : nat) (level : list (list byte)) :
  (length level <= 1)%nat -> tree_level sha256 k level = level.
Proof.
  intros H. induction k as [|k IH]; [reflexivity|].
  unfold tree_level in *. simpl. rewrite IH. now apply pair_adjacent_single.
Qed.

Lemma tree_level_succ (k : nat) (level : list (list byte)) :
  tree_level sha256 (S k) level = tree_level sha256 k (pair_adjacent sha256 level).
Proof. unfold tree_level. apply Nat.iter_succ_r. Qed.

Lemma tree_level_add (m k : nat) (level : list (list byte)) :
  tree_level sha256 (m + k) level = tree_level sha256 m (tree_level sha256 k level).
Proof. unfold tree_level. apply Nat.iter_add. Qed.

Lemma tree_level_short (k : nat) (level : list (list byte)) :
  (length level <= S k)%nat -> (length (tree_level sha256 k level) <= 1)%nat.
Proof.
  revert level. induction k as [|k IH]; intros level H; [exact H|].
  rewrite tree_level_succ. apply IH. rewrite length_pair_adjacent.
  pose proof (Nat.div_mod_eq (length level + 1) 2).
  pose proof (Nat.mod_upper_bound (length level + 1) 2). lia.
Qed.

Lemma tree_level_stable (k m : nat) (level : list (list byte)) :
  (length (tree_level sha256 k level) <= 1)%nat -> (k <= m)%nat ->
  tree_level sha256 m level = tree_level sha256 k level.
Proof.
  intros H Hkm. replace m with ((m - k) + k)%nat by lia.
  rewrite tree_level_add. now apply tree_level_single.
Qed.

Lemma length_tree_level_pos (k : nat) (level : list (list byte)) :
  (1 <= length level)%nat -> (1 <= length (tree_level sha256 k level))%nat.
Proof.
  revert level. induction k as [|k IH]; intros level H; [exact H|].
  rewrite tree_level_succ. apply IH. rewrite length_pair_adjacent.
  pose proof (Nat.div_mod_eq (length level + 1) 2).
  pose proof (Nat.mod_upper_bound (length level + 1) 2). lia.
Qed.

Lemma tree_root_step (level : list (list byte)) :
  (1 <= length level)%nat ->
  tree_root sha256 level = tree_root sha256 (pair_adjacent sha256 level).
Proof.
  intros Hpos. unfold tree_root.
  set (n := length level).
  set (n' := length (pair_adjacent sha256 level)).
  assert (Hn' : (1 <= n' <= n)%nat).
  { subst n n'. rewrite length_pair_adjacent.
    pose proof (Nat.div_mod_eq (length level + 1) 2).
    pose proof (Nat.mod_upper_bound (length level + 1) 2). lia. }
  assert (Hshort : (length (tree_level sha256 n' level) <= 1)%nat).
  { replace n' with (S (n' - 1)) by lia. rewrite tree_level_succ.
    apply tree_level_short. fold n'. lia. }
  rewrite (tree_level_stable n' n level Hshort) by lia.
  rewrite <- tree_level_succ.
  now rewrite (tree_level_stable n' (S n') level Hshort) by lia.
Qed.

Lemma tree_root_single (h : list byte) : tree_root sha256 [h] = Some h.
Proof. reflexivity. Qed.

(** *** recurse *)

(** [recurse] returns, and its result is the root of the tree. *)
Lemma recurse_root (fuel : nat) :
  forall (chunkSize : Z) (fin hashlist : list (list byte)) (size : Z),
    (1 <= length hashlist <= fuel)%nat ->
    exists fin' root,
      recurse sha256 fuel chunkSize fin hashlist size = Ret (fin', root) /\
      tree_root sha256 hashlist = Some root.
Proof.
  induction fuel as [|fuel IH]; intros chunkSize fin hashlist size Hlen; [lia|].
  cbn [recurse]. rewrite pair_level_adjacent.
  pose proof (length_pair_adjacent hashlist) as Hout.
  pose proof (Nat.div_mod_eq (length hashlist + 1) 2).
  pose proof (Nat.mod_upper_bound (length hashlist + 1) 2).
  rewrite tree_root_step by lia.
  destruct (1 <? Z.of_nat (length (pair_adjacent sha256 hashlist))) eqn:E.
  - apply Z.ltb_lt in E. apply IH. lia.
  - apply Z.ltb_ge in E.
    destruct (pair_adjacent sha256 hashlist) as [|h [|h' rest]] eqn:Eo;
      cbn [length] in Hout, E; try lia.
    eexists _, h. split; reflexivity.
Qed.

(** *** The read loop *)

Lemma ceil_div_MiB_0 : ceil_div 0 MiB = 0.
Proof. unfold ceil_div. now rewrite MiB_eq. Qed.

Lemma nth_block_0 (content : list byte) :
  nth_block content 0 = take (Z.to_nat MiB) content.
Proof. unfold nth_block. now rewrite Nat.mul_0_l, drop_0. Qed.

Lemma ceil_div_MiB_step (a : Z) :
  0 < a -> ceil_div a MiB = 1 + ceil_div (Z.max 0 (a - MiB)) MiB.
Proof.
  intros Ha. unfold ceil_div. rewrite MiB_eq.
  destruct (Z.max_spec 0 (a - 1048576)) as [[Hlt Hmax] | [Hge Hmax]];
    rewrite Hmax.
  - replace (a + 1048576 - 1) with ((a - 1048576 + 1048576 - 1) + 1 * 1048576) by lia.
    rewrite Z.div_add by lia. lia.
  - change ((0 + 1048576 - 1) / 1048576) with 0.
    assert ((a + 1048576 - 1) / 1048576 = 1) as ->; [|lia].
    symmetry. apply (Z.div_unique (a + 1048576 - 1) 1048576 1 (a - 1)); lia.
Qed.

Lemma nth_block_succ (content : list byte) (i : nat) :
  nth_block content (S i) = nth_block (drop (Z.to_nat MiB) content) i.
Proof.
  unfold nth_block. rewrite drop_drop. reflexivity.
Qed.

Lemma block_digests_nil : block_digests sha256 [] = [].
Proof.
  unfold block_digests. change (Z.of_nat (length (@nil byte))) with 0.
  now rewrite ceil_div_MiB_0.
Qed.

Lemma block_digests_cons (content : list byte) :
  content <> [] ->
  block_digests sha256 content =
  sha256 (take (Z.to_nat MiB) content)
    :: block_digests sha256 (drop (Z.to_nat MiB) content).
Proof.
  intros Hne. unfold block_digests.
  rewrite ceil_div_MiB_step by (destruct content; [congruence | simpl length; lia]).
  replace (Z.max 0 (Z.of_nat (length content) - MiB))
    with (Z.of_nat (length (drop (Z.to_nat MiB) content)))
    by (rewrite length_drop; pose proof MiB_eq; lia).
  set (m := ceil_div _ MiB).
  assert (Hm : 0 <= m).
  { subst m. unfold ceil_div. apply Z.div_pos; rewrite MiB_eq; lia. }
  replace (Z.to_nat (1 + m)) with (S (Z.to_nat m)) by lia.
  cbn [seq map]. rewrite nth_block_0.
  apply (f_equal (cons (sha256 (take (Z.to_nat MiB) content)))).
  rewrite <- seq_shift, map_map. apply map_ext. intros i.
  now rewrite nth_block_succ.
Qed.

Lemma length_block_digests (content : list byte) :
  length (block_digests sha256 content) =
  Z.to_nat (ceil_div (Z.of_nat (length content)) MiB).
Proof. unfold block_digests. now rewrite length_map, length_seq. Qed.

Lemma read_blocks_spec (fuel : nat) :
  forall (rest : list byte) (acc : list (list byte)),
    (length rest < fuel)%nat ->
    read_blocks sha256 fuel rest acc = Ret (acc ++ block_digests sha256 rest).
Proof.
  induction fuel as [|fuel IH]; intros rest acc Hfuel; [lia|].
  cbn [read_blocks].
  destruct rest as [|b rest'].
  - rewrite take_nil. cbn [length Nat.eqb]. now rewrite block_digests_nil, app_nil_r.
  - set (content := b :: rest') in *.
    assert (Hlen : (length (take (Z.to_nat MiB) content) =? 0)%nat = false).
    { apply Nat.eqb_neq. rewrite length_take. pose proof MiB_nat_pos.
      subst content. simpl length. lia. }
    rewrite Hlen. rewrite IH.
    + rewrite (block_digests_cons content) by (subst content; congruence).
      now rewrite <- app_assoc.
    + rewrite length_drop. pose proof MiB_nat_pos.
      subst content. simpl length in *. lia.
Qed.

Lemma tree_leaves_length (content : list byte) :
  Z.of_nat (length (tree_leaves sha256 content)) =
  Z.max 1 (ceil_div (Z.of_nat (length content)) MiB).
Proof.
  unfold tree_leaves. destruct content as [|b rest].
  { change (Z.of_nat (length (@nil byte))) with 0.
    rewrite ceil_div_MiB_0. reflexivity. }
  rewrite length_block_digests.
  rewrite ceil_div_MiB_step by (simpl length; lia).
  set (m := ceil_div _ MiB).
  assert (Hm : 0 <= m).
  { subst m. unfold ceil_div. apply Z.div_pos; rewrite MiB_eq; lia. }
  lia.
Qed.

(** [hashFile] on an existing file, with fuel for its two loops. *)
Lemma hashFile_existing (fuel : nat) (fs : gmap string (list byte)) (file : string)
    (content : list byte) (chunkSize : Z) :
  fs !! file = Some content ->
  (length content < fuel)%nat ->
  exists fin root,
    hashFile sha256 fuel fs file chunkSize
      = Ret (Some {| blocks := fin; final := root |}) /\
    recurse sha256 fuel chunkSize [] (tree_leaves sha256 content) MiB
      = Ret (fin, root) /\
    tree_root sha256 (tree_leaves sha256 content) = Some root.
Proof.
  intros Hfile Hfuel. unfold hashFile. rewrite Hfile.
  rewrite read_blocks_spec by exact Hfuel. rewrite app_nil_l.
  assert (Hleaves : match block_digests sha256 content with
                    | [] => [sha256 []] | _ => block_digests sha256 content end
                    = tree_leaves sha256 content).
  { unfold tree_leaves. destruct content as [|b rest]; [reflexivity|].
    rewrite block_digests_cons by congruence. reflexivity. }
  rewrite Hleaves.
  destruct (recurse_root fuel chunkSize [] (tree_leaves sha256 content) MiB)
    as (fin & root & Hrec & Hroot).
  { pose proof (tree_leaves_length content) as Hl.
    assert (ceil_div (Z.of_nat (length content)) MiB < Z.of_nat (length content) + 1).
    { unfold ceil_div. rewrite MiB_eq.
      apply Z.div_lt_upper_bound; lia. }
    lia. }
  exists fin, root. rewrite Hrec. auto.
Qed.

Lemma recurse_fuel_mono (fuel : nat) :
  forall (fuel' : nat) (chunkSize : Z) (fin hashlist : list (list byte)) (size : Z)
         (res : list (list byte) * list byte),
    (fuel <= fuel')%nat ->
    recurse sha256 fuel chunkSize fin hashlist size = Ret res ->
    recurse sha256 fuel' chunkSize fin hashlist size = Ret res.
Proof.
  induction fuel as [|fuel IH]; intros fuel' chunkSize fin hashlist size res Hle Hrun;
    [discriminate|].
  destruct fuel' as [|fuel']; [lia|].
  cbn [recurse] in *. rewrite pair_level_adjacent in *.
  destruct (1 <? Z.of_nat (length (pair_adjacent sha256 hashlist))).
  - apply IH with (fuel' := fuel') in Hrun; [exact Hrun | lia].
  - exact Hrun.
Qed.

End HashFacts.

(** C5: on an existing file, [hashFile] returns the same root for any two
    part sizes (so in particular for two part sizes of the planner), and
    that root is the iterated pairwise combination of the digests of the
    file's 1 MiB blocks. *)
Theorem hashFile_root_independent_of_part_size
    (sha256 : list byte -> list byte) (fuel : nat) (fs : gmap string (list byte))
    (file : string) (content : list byte) (p1 p2 : Z) :
  fs !! file = Some content ->
  (length content < fuel)%nat ->
  exists h1 h2,
    hashFile sha256 fuel fs file p1 = Ret (Some h1) /\
    hashFile sha256 fuel fs file p2 = Ret (Some h2) /\
    final h1 = final h2 /\
    tree_root sha256 (tree_leaves sha256 content) = Some (final h1).
Proof.
  intros Hfile Hfuel.
  destruct (hashFile_existing sha256 fuel fs file content p1 Hfile Hfuel)
    as (fin1 & root1 & Hrun1 & _ & Hroot1).
  destruct (hashFile_existing sha256 fuel fs file content p2 Hfile Hfuel)
    as (fin2 & root2 & Hrun2 & _ & Hroot2).
  eexists _, _. split; [exact Hrun1|]. split; [exact Hrun2|].
  cbn [final]. split; [congruence | exact Hroot1].
Qed.

Lemma hashFile_root_independent_of_part_size_witness :
  exists h1 h2,
    hashFile sample_digest 3 {[ "a.tar" := [x61; x62] ]} "a.tar" MiB = Ret (Some h1) /\
    hashFile sample_digest 3 {[ "a.tar" := [x61; x62] ]} "a.tar" (2 * MiB) = Ret (Some h2) /\
    final h1 = final h2 /\
    tree_root sample_digest (tree_leaves sample_digest [x61; x62]) = Some (final h1).
Proof.
  apply (hashFile_root_independent_of_part_size sample_digest 3
           {[ "a.tar" := [x61; x62] ]} "a.tar" [x61; x62] MiB (2 * MiB)).
  - vm_compute. reflexivity.
  - vm_compute. lia.
Defined.

(** C6: a zero-length file hashes to the digest of the empty string, with
    that digest as its only leaf at the planned part size, and the planner
    gives the minimum part size of 1 MiB for size 0. *)
Theorem hashFile_empty_file
    (sha256 : list byte -> list byte) (fuel : nat) (fs : gmap string (list byte))
    (file : string) (chunkSize : Z) :
  fs !! file = Some [] ->
  (0 < fuel)%nat ->
  (exists h, hashFile sha256 fuel fs file chunkSize = Ret (Some h) /\
             final h = sha256 []) /\
  hashFile sha256 fuel fs file (planChunkSize 0)
    = Ret (Some {| blocks := [sha256 []]; final := sha256 [] |}) /\
  planChunkSize 0 = MiB.
Proof.
  intros Hfile Hfuel.
  destruct (hashFile_existing sha256 fuel fs file [] chunkSize Hfile Hfuel)
    as (fin & root & Hrun & _ & Hroot).
  cbn in Hroot. injection Hroot as <-.
  split; [eexists; split; [exact Hrun | reflexivity]|].
  assert (Hplan : planChunkSize 0 = MiB) by (vm_compute; reflexivity).
  split; [|exact Hplan].
  rewrite Hplan. unfold hashFile. rewrite Hfile.
  destruct fuel as [|fuel]; [lia|].
  cbn [read_blocks]. rewrite take_nil. cbn [length Nat.eqb recurse].
  rewrite Z.eqb_refl, pair_level_adjacent. reflexivity.
Qed.

Lemma hashFile_empty_file_witness :
  (exists h, hashFile sample_digest 1 {[ "empty" := [] ]} "empty" (4 * MiB) = Ret (Some h) /\
             final h = sample_digest []) /\
  hashFile sample_digest 1 {[ "empty" := [] ]} "empty" (planChunkSize 0)
    = Ret (Some {| blocks := [sample_digest []]; final := sample_digest [] |}) /\
  planChunkSize 0 = MiB.
Proof.
  apply (hashFile_empty_file sample_digest 1 {[ "empty" := [] ]} "empty" (4 * MiB)).
  - vm_compute. reflexivity.
  - lia.
Defined.

(** C8: the result of [hashFile] is a function of the file's bytes and of
    [chunkSize] alone: two runs on the same bytes (whatever the path, the
    rest of the file system and the fuel given to the loops) return the
    same root and the same leaves. *)
Theorem hashFile_deterministic
    (sha256 : list byte -> list byte) (fuel1 fuel2 : nat)
    (fs1 fs2 : gmap string (list byte)) (file1 file2 : string)
    (content : list byte) (chunkSize : Z) :
  fs1 !! file1 = Some content ->
  fs2 !! file2 = Some content ->
  (length content < fuel1)%nat ->
  (length content < fuel2)%nat ->
  exists h,
    hashFile sha256 fuel1 fs1 file1 chunkSize = Ret (Some h) /\
    hashFile sha256 fuel2 fs2 file2 chunkSize = Ret (Some h).
Proof.
  intros Hfile1 Hfile2 Hfuel1 Hfuel2.
  destruct (hashFile_existing sha256 fuel1 fs1 file1 content chunkSize Hfile1 Hfuel1)
    as (fin1 & root1 & Hrun1 & Hrec1 & _).
  destruct (hashFile_existing sha256 fuel2 fs2 file2 content chunkSize Hfile2 Hfuel2)
    as (fin2 & root2 & Hrun2 & Hrec2 & _).
  apply (recurse_fuel_mono sha256 fuel1 (Nat.max fuel1 fuel2)) in Hrec1; [|lia].
  apply (recurse_fuel_mono sha256 fuel2 (Nat.max fuel1 fuel2)) in Hrec2; [|lia].
  rewrite Hrec1 in Hrec2. injection Hrec2 as <- <-.
  eexists. split; [exact Hrun1 | exact Hrun2].
Qed.

Lemma hashFile_deterministic_witness :
  exists h,
    hashFile sample_digest 3 {[ "a.tar" := [x61; x62] ]} "a.tar" MiB = Ret (Some h) /\
    hashFile sample_digest 5 {[ "copy" := [x61; x62]; "other" := [x00] ]} "copy" MiB
      = Ret (Some h).
Proof.
  apply (hashFile_deterministic sample_digest 3 5 {[ "a.tar" := [x61; x62] ]}
           {[ "copy" := [x61; x62]; "other" := [x00] ]} "a.tar" "copy" [x61; x62] MiB).
  - vm_compute. reflexivity.
  - vm_compute. reflexivity.
  - vm_compute. lia.
  - vm_compute. lia.
Defined.


(** ** Invariants of the world *)

Lemma keeps_ret {A : Type} (I : World -> Prop) (a : A) : keeps I (mret a).
Proof. intros w H. exact H. Qed.

Lemma keeps_raise {A : Type} (I : World -> Prop) (e : exn) : keeps I (@raise A e).
Proof. intros w H. exact H. Qed.

Lemma keeps_lift {A : Type} (I : World -> Prop) (o : outcome A) : keeps I (lift o).
Proof. intros w H. exact H. Qed.

(** The continuation only has to keep [I] for the values [m] can return. *)
Lemma keeps_bind_when {A B : Type} (I : World -> Prop) (Q : A -> Prop)
    (m : M A) (k : A -> M B) :
  keeps I m ->
  (forall w a, (m w).1 = Ret a -> Q a) ->
  (forall a, Q a -> keeps I (k a)) ->
  keeps I (m ≫= k).
Proof.
  intros Hm HQ Hk w Hw. unfold mbind, M_bind.
  specialize (Hm w Hw). specialize (HQ w).
  destruct (m w) as [[a | e |] w1]; cbn in *; auto.
  apply (Hk a); auto.
Qed.

Lemma keeps_bind {A B : Type} (I : World -> Prop) (m : M A) (k : A -> M B) :
  keeps I m -> (forall a, keeps I (k a)) -> keeps I (m ≫= k).
Proof.
  intros Hm Hk. apply (keeps_bind_when I (fun _ => True)); auto.
Qed.

Lemma keeps_os_path_exists (I : World -> Prop) file : keeps I (os_path_exists file).
Proof. intros w H. exact H. Qed.

Lemma keeps_os_path_getsize (I : World -> Prop) file : keeps I (os_path_getsize file).
Proof. intros w H. unfold os_path_getsize. now destruct (w_fs w !! file). Qed.

(** [extractChunk] returns [True] or raises: it never returns [False]. *)
Lemma extractChunk_result file tmp offset size w b :
  (extractChunk file tmp offset size w).1 = Ret b -> b = true.
Proof.
  unfold extractChunk.
  destruct (w_fs w !! file); [|discriminate].
  destruct (offset <? 0); [discriminate|].
  destruct (size <? -1); [discriminate|].
  cbn. congruence.
Qed.

Create HintDb keeps.
#[local] Hint Resolve keeps_ret keeps_raise keeps_lift keeps_os_path_exists
  keeps_os_path_getsize : keeps.

(** An invariant that survives a new subprocess in the log, a sleep, an
    extraction and every error message but the one of the branch taken when
    [extractChunk] returns [False], survives [uploadFile]. *)
Section Invariant.

Variable sha256 : list byte -> list byte.
Variable aws : nat -> AwsResult.
Variable isatty : bool.

Variable I : World -> Prop.

Hypothesis I_log :
  forall msg, msg <> "Unable to extract chunk for upload" ->
              keeps I (logging_error msg).
Hypothesis I_sleep : forall seconds, keeps I (time_sleep seconds).
Hypothesis I_call :
  forall w c, I w ->
              I {| w_fs := w_fs w; w_calls := w_calls w ++ [c];
                   w_errors := w_errors w; w_sleeps := w_sleeps w |}.
Hypothesis I_extract :
  forall file tmp offset size, keeps I (extractChunk file tmp offset size).

#[local] Hint Resolve I_sleep I_extract : keeps.

Lemma keeps_log (msg : string) :
  bool_decide (msg <> "Unable to extract chunk for upload") = true ->
  keeps I (logging_error msg).
Proof. intros H. apply I_log. now apply bool_decide_eq_true in H. Qed.

Lemma keeps_awsCommand config args : keeps I (awsCommand aws config args).
Proof.
  unfold awsCommand. destruct (glacier_vault config).
  - intros w H. cbn. now apply I_call.
  - apply keeps_bind; [now apply keeps_log | auto with keeps].
Qed.

Lemma keeps_progress divisors : keeps I (progress isatty divisors).
Proof. unfold progress. destruct (_ && _); auto with keeps. Qed.

Lemma keeps_part_accepted hashes block result :
  keeps I (part_accepted hashes block result).
Proof.
  unfold part_accepted.
  destruct result as [r|]; [|auto with keeps].
  destruct (json r) as [j|]; [|auto with keeps].
  destruct (j !! "checksum"); [|auto with keeps].
  destruct (py_index _ _); [|auto with keeps].
  destruct (bool_decide _); [auto with keeps|].
  apply keeps_bind; [now apply keeps_log | auto with keeps].
Qed.

Lemma keeps_upload_part retry config hashes uploadId tmpfile offset chunk block :
  keeps I (upload_part aws retry config hashes uploadId tmpfile offset chunk block).
Proof.
  induction retry as [|tries IH]; cbn [upload_part]; [auto with keeps|].
  apply keeps_bind; [apply keeps_awsCommand|]. intros result.
  apply keeps_bind; [apply keeps_part_accepted|]. intros [|]; [auto with keeps|].
  apply keeps_bind; [solve [auto with keeps]|]. intros ?. exact IH.
Qed.

Lemma keeps_transfer fuel config hashes file tmpfile uploadId size chunkSize
    bytesDone bytesTotal :
  forall remain offset block,
    keeps I
      (transfer aws isatty fuel config hashes file tmpfile uploadId size chunkSize
         bytesDone bytesTotal remain offset block).
Proof.
  induction fuel as [|fuel IH]; intros remain offset block; cbn [transfer];
    destruct (0 <? remain); auto with keeps.
  apply (keeps_bind_when _ (fun b => b = true)).
  - auto with keeps.
  - intros w b. apply extractChunk_result.
  - intros b Hb. rewrite Hb. cbn [negb].
    apply keeps_bind; [apply keeps_upload_part|]. intros retry.
    destruct (retry =? 0)%nat.
    + apply keeps_bind; [now apply keeps_log | auto with keeps].
    + apply keeps_bind; [apply keeps_progress|]. intros ?. apply IH.
Qed.

Lemma keeps_upload_hashed fuel config file tmpfile name size chunkSize hashes
    bytesDone bytesTotal :
  keeps I
    (upload_hashed aws isatty fuel config file tmpfile name size chunkSize hashes
       bytesDone bytesTotal).
Proof.
  unfold upload_hashed.
  apply keeps_bind; [apply keeps_awsCommand|]. intros result.
  apply keeps_bind.
  { destruct result as [r|]; [|auto with keeps].
    destruct (negb _); [auto with keeps|].
    destruct (json r); auto with keeps. }
  intros [uploadId|].
  2:{ apply keeps_bind; [now apply keeps_log | auto with keeps]. }
  apply keeps_bind; [apply keeps_progress|]. intros ?.
  apply keeps_bind; [apply keeps_transfer|]. intros [|b]; [|auto with keeps].
  apply keeps_bind; [apply keeps_awsCommand|]. intros [r|].
  - destruct (code r =? 0); [auto with keeps|].
    apply keeps_bind; [now apply keeps_log | auto with keeps].
  - apply keeps_bind; [now apply keeps_log | auto with keeps].
Qed.

Lemma keeps_uploadFile fuel config prefix file tmpfile bytesDone bytesTotal withPath :
  keeps I
    (uploadFile sha256 aws isatty fuel config prefix file tmpfile
       bytesDone bytesTotal withPath).
Proof.
  unfold uploadFile.
  apply keeps_bind; [auto with keeps|]. intros found.
  destruct (negb found).
  { apply keeps_bind; [now apply keeps_log | auto with keeps]. }
  apply keeps_bind; [auto with keeps|]. intros size.
  apply keeps_bind; [intros w H; exact H|]. intros [hashes|].
  - apply keeps_upload_hashed.
  - apply keeps_bind; [now apply keeps_log | auto with keeps].
Qed.

End Invariant.

(** The error log never gets the message of the dead branch. *)
Lemma uploadFile_never_logs_extract_error sha256 aws isatty fuel config prefix file
    tmpfile bytesDone bytesTotal withPath :
  keeps (never_logged "Unable to extract chunk for upload")
    (uploadFile sha256 aws isatty fuel config prefix file tmpfile
       bytesDone bytesTotal withPath).
Proof.
  apply keeps_uploadFile.
  - intros msg Hne w H. unfold never_logged, on_errors in *. cbn.
    rewrite elem_of_app, list_elem_of_singleton. intros [? | ?]; [auto | congruence].
  - intros seconds w H. exact H.
  - intros w c H. exact H.
  - intros file' tmp offset size w H. unfold extractChunk.
    destruct (w_fs w !! file'); [|exact H].
    destruct (offset <? 0); [exact H|].
    destruct (size <? -1); exact H.
Qed.

(** A file that exists still exists after [uploadFile]: the upload path
    writes the staging file and removes nothing. *)
Lemma uploadFile_keeps_file sha256 aws isatty fuel config prefix file tmpfile
    bytesDone bytesTotal withPath (path : string) :
  keeps (fun w => is_Some (w_fs w !! path))
    (uploadFile sha256 aws isatty fuel config prefix file tmpfile
       bytesDone bytesTotal withPath).
Proof.
  apply keeps_uploadFile.
  - intros msg _ w H. exact H.
  - intros seconds w H. exact H.
  - intros w c H. exact H.
  - intros file' tmp offset size w H. unfold extractChunk.
    destruct (w_fs w !! file'); [|exact H].
    destruct (offset <? 0); [exact H|].
    assert (Hkept : forall buf, is_Some (<[tmp := buf]> (<[tmp := []]> (w_fs w)) !! path)).
    { intros buf. destruct (decide (tmp = path)) as [-> | Hne].
      - rewrite lookup_insert_eq. eauto.
      - now rewrite !lookup_insert_ne by exact Hne. }
    destruct (size <? -1); cbn [snd set_fs w_fs].
    + destruct (decide (tmp = path)) as [-> | Hne].
      * rewrite lookup_insert_eq. eauto.
      * now rewrite lookup_insert_ne by exact Hne.
    + apply Hkept.
Qed.

(** ** extractChunk *)

Lemma length_read_at (content : list byte) (offset size : Z) :
  0 <= offset -> 0 <= size ->
  Z.of_nat (length (read_at content offset size))
  = Z.min size (Z.max 0 (Z.of_nat (length content) - offset)).
Proof. intros Ho Hs. unfold read_at. rewrite length_take, length_drop. lia. Qed.

Lemma extractChunk_existing (w : World) (file tmp : string) (content : list byte)
    (offset size : Z) :
  w_fs w !! file = Some content ->
  0 <= offset -> 0 <= size ->
  extractChunk file tmp offset size w
  = (Ret true,
     set_fs (<[tmp := read_at (default [] (<[tmp := []]> (w_fs w) !! file)) offset size]>
               (<[tmp := []]> (w_fs w))) w).
Proof.
  intros Hfile Ho Hs. unfold extractChunk. rewrite Hfile.
  destruct (offset <? 0) eqn:E1; [apply Z.ltb_lt in E1; lia|].
  destruct (size <? -1) eqn:E2; [apply Z.ltb_lt in E2; lia|].
  destruct (size =? -1) eqn:E3; [apply Z.eqb_eq in E3; lia|].
  reflexivity.
Qed.

(** C10: on an existing file [extractChunk] returns [True] for every byte
    offset and byte count (both are counts of bytes, so not negative), the
    staged bytes being the requested range cut at the end of the file; and
    no run of [uploadFile] logs 'Unable to extract chunk for upload'. *)
Theorem extractChunk_returns_True
    (sha256 : list byte -> list byte) (aws : nat -> AwsResult) (isatty : bool)
    (w : World) (file tmp : string) (content : list byte) (offset size : Z) :
  w_fs w !! file = Some content ->
  0 <= offset -> 0 <= size ->
  (extractChunk file tmp offset size w).1 = Ret true /\
  (tmp <> file ->
   w_fs (extractChunk file tmp offset size w).2 !! tmp
   = Some (read_at content offset size)) /\
  Z.of_nat (length (read_at content offset size))
  = Z.min size (Z.max 0 (Z.of_nat (length content) - offset)) /\
  (forall fuel config prefix tmpfile bytesDone bytesTotal withPath,
     never_logged "Unable to extract chunk for upload" w ->
     never_logged "Unable to extract chunk for upload"
       (uploadFile sha256 aws isatty fuel config prefix file tmpfile
          bytesDone bytesTotal withPath w).2).
Proof.
  intros Hfile Ho Hs.
  rewrite (extractChunk_existing w file tmp content offset size Hfile Ho Hs).
  split; [reflexivity|]. split; [|split].
  - intros Hne. cbn. rewrite lookup_insert_eq.
    rewrite lookup_insert_ne by exact Hne. now rewrite Hfile.
  - now apply length_read_at.
  - intros. now apply uploadFile_never_logs_extract_error.
Qed.

Lemma extractChunk_returns_True_witness :
  (extractChunk "/prep/a.tar" "/tmp/stage" 2 MiB sample_world).1 = Ret true /\
  ("/tmp/stage" <> "/prep/a.tar" ->
   w_fs (extractChunk "/prep/a.tar" "/tmp/stage" 2 MiB sample_world).2 !! "/tmp/stage"
   = Some (read_at [x61; x62; x63] 2 MiB)) /\
  Z.of_nat (length (read_at [x61; x62; x63] 2 MiB))
  = Z.min MiB (Z.max 0 (Z.of_nat (length [x61; x62; x63]) - 2)) /\
  (forall fuel config prefix tmpfile bytesDone bytesTotal withPath,
     never_logged "Unable to extract chunk for upload" sample_world ->
     never_logged "Unable to extract chunk for upload"
       (uploadFile sample_digest sample_aws_mismatch false fuel config prefix
          "/prep/a.tar" tmpfile bytesDone bytesTotal withPath sample_world).2).
Proof.
  apply (extractChunk_returns_True sample_digest sample_aws_mismatch false
           sample_world "/prep/a.tar" "/tmp/stage" [x61; x62; x63] 2 MiB).
  - vm_compute. reflexivity.
  - lia.
  - rewrite MiB_eq. lia.
Defined.

(** ** uploadFiles *)

Section BatchLoop.

Variable tmpname : string.
Variable line255 : Config -> Z -> nat -> string -> string -> Z -> Z -> M bool.

(** The loop over the files never makes [uploadFiles] return [True]. *)
Lemma upload_each_result config total tmp files :
  forall i d bytes w b,
    (upload_each line255 config total tmp files i d bytes w).1 = Ret (Return b) ->
    b = false.
Proof.
  induction files as [|file rest IH]; intros i d bytes w b; cbn [upload_each].
  - discriminate.
  - unfold mbind at 1, M_bind.
    destruct (line255 _ _ _ _ _ _ _ w) as [[ok | e |] w1]; try discriminate.
    destruct ok; cbn [negb].
    + unfold mbind at 1, M_bind.
      destruct (os_path_getsize _ w1) as [[size | e |] w2]; try discriminate.
      apply IH.
    + cbn. congruence.
Qed.

(** Nothing in the loop removes a file, unless line 255 does. *)
Lemma upload_each_keeps_file config total tmp files bytes (path : string) :
  (forall i file d,
     keeps (fun w => is_Some (w_fs w !! path)) (line255 config i total file tmp d bytes)) ->
  forall i d,
    keeps (fun w => is_Some (w_fs w !! path))
      (upload_each line255 config total tmp files i d bytes).
Proof.
  intros Hline.
  induction files as [|file rest IH]; intros i d; cbn [upload_each];
    [auto with keeps|].
  apply keeps_bind; [apply Hline|]. intros [|]; cbn [negb].
  - apply keeps_bind; [auto with keeps|]. intros size. apply IH.
  - auto with keeps.
Qed.

(** [uploadFiles], by how the loop over the files ends. *)
Lemma uploadFiles_run config files bytes w :
  uploadFiles tmpname line255 config files bytes w
  = match upload_each line255 config (length files) tmpname files 0 0 bytes
            (set_fs (<[tmpname := []]> (w_fs w)) w) with
    | (Ret Fallthrough, w1) => (os_unlink tmpname ≫= fun _ => mret true) w1
    | (Ret (Return b), w1) => (Ret b, w1)
    | (Raise e, w1) => (Raise e, w1)
    | (OutOfFuel, w1) => (OutOfFuel, w1)
    end.
Proof.
  unfold uploadFiles. unfold mbind at 1, M_bind. unfold NamedTemporaryFile.
  unfold mbind at 1, M_bind.
  destruct (upload_each _ _ _ _ _ _ _ _ _) as [[[|b] | e |] w1]; reflexivity.
Qed.

End BatchLoop.

(** C3: [uploadFiles] removes its temporary file only when the loop over
    the files runs to its end.  Line 255 does not parse as written; this
    holds however its condition is read, as long as evaluating it does not
    itself remove the temporary file: when [uploadFiles] returns [True] the
    file is gone, and however else it ends, by the [return False] of line
    256 or by an exception, the file is still there, line 258 not having
    been reached. *)
Theorem uploadFiles_failure_leaves_tmp
    (line255 : Config -> Z -> nat -> string -> string -> Z -> Z -> M bool)
    (tmpname : string) (config : Config) (files : list string) (bytes : Z) (w : World) :
  (forall i file d,
     keeps (fun w => is_Some (w_fs w !! tmpname))
       (line255 config i (length files) file tmpname d bytes)) ->
  ((uploadFiles tmpname line255 config files bytes w).1 = Ret true ->
   w_fs (uploadFiles tmpname line255 config files bytes w).2 !! tmpname = None) /\
  ((uploadFiles tmpname line255 config files bytes w).1 <> Ret true ->
   is_Some (w_fs (uploadFiles tmpname line255 config files bytes w).2 !! tmpname)).
Proof.
  intros Hline. rewrite uploadFiles_run.
  set (w0 := set_fs (<[tmpname := []]> (w_fs w)) w).
  pose proof (upload_each_result line255 config (length files) tmpname files 0 0 bytes w0)
    as Hres.
  pose proof (upload_each_keeps_file line255 config (length files) tmpname files bytes
                tmpname Hline 0 0 w0) as Hkept.
  assert (Htmp : is_Some (w_fs w0 !! tmpname)).
  { subst w0. cbn. rewrite lookup_insert_eq. eauto. }
  specialize (Hkept Htmp).
  destruct (upload_each _ _ _ _ _ _ _ _ _) as [[[|b] | e |] w1]; cbn [fst snd] in *.
  - destruct Hkept as [buf Hbuf].
    unfold mbind, M_bind, os_unlink. rewrite Hbuf. cbn.
    split; [intros _; apply lookup_delete_eq | congruence].
  - rewrite (Hres b eq_refl). split; [discriminate | intros _; exact Hkept].
  - split; [discriminate | intros _; exact Hkept].
  - split; [discriminate | intros _; exact Hkept].
Qed.

Lemma uploadFiles_failure_leaves_tmp_witness :
  ((uploadFiles "/tmp/tmpStage" (line255_call sample_digest sample_aws_mismatch false 4)
      sample_config ["missing.tar"] 3 sample_world).1 = Ret true ->
   w_fs (uploadFiles "/tmp/tmpStage"
           (line255_call sample_digest sample_aws_mismatch false 4)
           sample_config ["missing.tar"] 3 sample_world).2 !! "/tmp/tmpStage" = None) /\
  ((uploadFiles "/tmp/tmpStage" (line255_call sample_digest sample_aws_mismatch false 4)
      sample_config ["missing.tar"] 3 sample_world).1 <> Ret true ->
   is_Some (w_fs (uploadFiles "/tmp/tmpStage"
                    (line255_call sample_digest sample_aws_mismatch false 4)
                    sample_config ["missing.tar"] 3 sample_world).2 !! "/tmp/tmpStage")).
Proof.
  apply (uploadFiles_failure_leaves_tmp
           (line255_call sample_digest sample_aws_mismatch false 4)
           "/tmp/tmpStage" sample_config ["missing.tar"] 3 sample_world).
  intros i file d. apply uploadFile_keeps_file.
Defined.

(** With the parenthesis closed after [len(files)]: a file that does not
    exist, and a file whose part runs out of attempts, both make
    [uploadFiles] return [False] with the temporary file left behind. *)
Example uploadFiles_returns_False_with_tmp :
  (uploadFiles "/tmp/tmpStage" (line255_call sample_digest sample_aws_mismatch false 4)
     sample_config ["missing.tar"] 3 sample_world).1 = Ret false /\
  w_fs (uploadFiles "/tmp/tmpStage"
          (line255_call sample_digest sample_aws_mismatch false 4)
          sample_config ["missing.tar"] 3 sample_world).2 !! "/tmp/tmpStage"
  = Some [] /\
  (uploadFiles "/tmp/tmpStage" (line255_call sample_digest sample_aws_mismatch false 4)
     sample_config ["a.tar"] 3 sample_world).1 = Ret false /\
  w_fs (uploadFiles "/tmp/tmpStage"
          (line255_call sample_digest sample_aws_mismatch false 4)
          sample_config ["a.tar"] 3 sample_world).2 !! "/tmp/tmpStage"
  = Some [x61; x62; x63].
Proof. repeat split; vm_compute; reflexivity. Qed.

(** With the parenthesis closed anywhere else: the first file of any batch
    makes [uploadFiles] raise [TypeError], the temporary file left behind
    as well. *)
Example uploadFiles_raises_with_tmp :
  (uploadFiles "/tmp/tmpStage" line255_format_error sample_config ["a.tar"] 3
     sample_world).1 = Raise TypeError /\
  w_fs (uploadFiles "/tmp/tmpStage" line255_format_error sample_config ["a.tar"] 3
          sample_world).2 !! "/tmp/tmpStage"
  = Some [].
Proof. split; vm_compute; reflexivity. Qed.

(** ** The planner *)

Lemma testbit_or_shr (x k i : Z) :
  0 <= i -> 0 <= k ->
  Z.testbit (or_shr x k) i = Z.testbit x i || Z.testbit x (i + k).
Proof.
  intros Hi Hk. unfold or_shr. rewrite Z.lor_spec, Z.shiftr_spec by lia.
  reflexivity.
Qed.

(** One smearing step doubles the window. *)
Lemma or_shr_window (x y m : Z) :
  0 < m ->
  (forall i, 0 <= i -> Z.testbit y i = true <-> window x m i) ->
  forall i, 0 <= i -> Z.testbit (or_shr y m) i = true <-> window x (2 * m) i.
Proof.
  intros Hm Hy i Hi. rewrite testbit_or_shr by lia.
  rewrite orb_true_iff, !Hy by lia. unfold window. split.
  - intros [(s & Hs & Hbit) | (s & Hs & Hbit)].
    + exists s. split; [lia | exact Hbit].
    + exists (m + s). split; [lia|]. now rewrite Z.add_assoc.
  - intros (s & Hs & Hbit).
    destruct (Z_lt_ge_dec s m) as [Hlt | Hge].
    + left. exists s. split; [lia | exact Hbit].
    + right. exists (s - m). split; [lia|].
      now replace (i + m + (s - m)) with (i + s) by lia.
Qed.

(** Lines 156-160 together: a window of 32 bits. *)
Lemma smear_window (x i : Z) :
  0 <= i ->
  Z.testbit (or_shr (or_shr (or_shr (or_shr (or_shr x 1) 2) 4) 8) 16) i = true
  <-> window x 32 i.
Proof.
  revert i.
  apply (or_shr_window x _ 16); [lia|].
  apply (or_shr_window x _ 8); [lia|].
  apply (or_shr_window x _ 4); [lia|].
  apply (or_shr_window x _ 2); [lia|].
  apply (or_shr_window x _ 1); [lia|].
  intros i Hi. unfold window. split.
  - intros Hbit. exists 0. split; [lia|]. now rewrite Z.add_0_r.
  - intros (s & Hs & Hbit). now replace (i + s) with i in Hbit by lia.
Qed.

(** The smear fills every bit below the top one when the low 20 bits of
    [x] are set and [x] has at most 52 bits. *)
Lemma smear_ones (x : Z) :
  0 < x < 2 ^ 52 ->
  x mod 2 ^ 20 = 2 ^ 20 - 1 ->
  or_shr (or_shr (or_shr (or_shr (or_shr x 1) 2) 4) 8) 16
  = Z.ones (Z.log2 x + 1).
Proof.
  intros Hx Hlow.
  assert (Hlog : 0 <= Z.log2 x < 52).
  { split; [apply Z.log2_nonneg|]. apply Z.log2_lt_pow2; lia. }
  apply Z.bits_inj'. intros i Hi.
  rewrite Z.testbit_ones_nonneg by lia.
  apply eq_true_iff_eq. rewrite smear_window by lia.
  rewrite Z.ltb_lt. unfold window. split.
  - intros (s & Hs & Hbit).
    destruct (Z_lt_ge_dec (Z.log2 x) (i + s)) as [Hgt | Hle]; [|lia].
    rewrite Z.bits_above_log2 in Hbit by lia. discriminate.
  - intros Hle.
    destruct (Z_lt_ge_dec i 20) as [Hlt | Hge].
    + exists 0. split; [lia|]. rewrite Z.add_0_r.
      rewrite <- (Z.mod_pow2_bits_low x 20 i) by lia.
      rewrite Hlow. change (2 ^ 20 - 1) with (Z.ones 20).
      rewrite Z.testbit_ones_nonneg by lia.
      apply Z.ltb_lt. lia.
    + exists (Z.log2 x - i). split; [lia|].
      replace (i + (Z.log2 x - i)) with (Z.log2 x) by lia.
      apply Z.bit_log2. lia.
Qed.

Lemma round_pow2_spec (c0 : Z) :
  1 < c0 <= 2 ^ 52 ->
  c0 mod 2 ^ 20 = 0 ->
  round_pow2 c0 = 2 ^ (Z.log2 (c0 - 1) + 1).
Proof.
  intros Hc Hmod. unfold round_pow2. cbv zeta.
  rewrite smear_ones.
  - rewrite Z.ones_equiv. lia.
  - lia.
  - rewrite (Z.mod_divide c0 (2 ^ 20)) in Hmod by lia.
    destruct Hmod as [f Hf]. subst c0.
    replace (f * 2 ^ 20 - 1) with ((2 ^ 20 - 1) + (f - 1) * 2 ^ 20) by lia.
    rewrite Z.mod_add by lia. reflexivity.
Qed.

(** For every size a file can have, the planned part size is 1 MiB times
    a power of two, and a part larger than 1 MiB is smaller than the file. *)
Lemma planChunkSize_shape (size : Z) :
  0 <= size < 2 ^ 63 ->
  exists j : nat,
    planChunkSize size = MiB * 2 ^ Z.of_nat j /\
    (j = 0%nat \/ planChunkSize size < size) /\
    size / max_parts <= planChunkSize size.
Proof.
  intros Hsize. unfold planChunkSize, max_parts. cbv zeta.
  set (q := size / 10000).
  assert (Hq : 10000 * q <= size < 10000 * (q + 1)).
  { subst q. split; [apply Z.mul_div_le; lia|].
    rewrite Z.mul_add_distr_l, Z.mul_1_r.
    pose proof (Z.mod_pos_bound size 10000). pose proof (Z.div_mod size 10000). lia. }
  destruct (q <=? MiB) eqn:E.
  { exists 0%nat. apply Z.leb_le in E.
    split; [change (2 ^ Z.of_nat 0) with 1; lia|]. split; [now left | exact E]. }
  apply Z.leb_gt in E. rewrite MiB_eq in *. unfold ceil_div.
  set (f := (q + 1048576 - 1) / 1048576).
  assert (Hf : 1048576 * f <= q + 1048576 - 1 < 1048576 * (f + 1)).
  { subst f. split; [apply Z.mul_div_le; lia|].
    rewrite Z.mul_add_distr_l, Z.mul_1_r.
    pose proof (Z.mod_pos_bound (q + 1048576 - 1) 1048576).
    pose proof (Z.div_mod (q + 1048576 - 1) 1048576). lia. }
  set (c0 := 1048576 * f) in *.
  assert (Hmod : c0 mod 2 ^ 20 = 0).
  { subst c0. change 1048576 with (2 ^ 20). now rewrite Z.mul_comm, Z.mod_mul by lia. }
  rewrite round_pow2_spec; [| lia | exact Hmod].
  set (k := Z.log2 (c0 - 1)).
  assert (Hk : 2 ^ k <= c0 - 1 < 2 ^ (k + 1)).
  { subst k. replace (Z.log2 (c0 - 1) + 1) with (Z.succ (Z.log2 (c0 - 1))) by lia.
    apply Z.log2_spec. lia. }
  assert (Hk20 : 20 <= k).
  { subst k. rewrite <- (Z.log2_pow2 20) by lia. apply Z.log2_le_mono. lia. }
  exists (Z.to_nat (k + 1 - 20)).
  replace (Z.of_nat (Z.to_nat (k + 1 - 20))) with (k + 1 - 20) by lia.
  assert (Hpow : 2 ^ (k + 1) = 1048576 * 2 ^ (k + 1 - 20)).
  { change 1048576 with (2 ^ 20). rewrite <- Z.pow_add_r by lia. f_equal. lia. }
  assert (H2 : 2 ^ (k + 1) = 2 * 2 ^ k).
  { rewrite Z.pow_add_r by lia. lia. }
  split; [exact Hpow|]. split; [right|]; lia.
Qed.

Lemma planChunkSize_min (size : Z) :
  0 <= size < 2 ^ 63 -> MiB <= planChunkSize size.
Proof.
  intros Hsize. destruct (planChunkSize_shape size Hsize) as (j & -> & _).
  pose proof (Z.pow_pos_nonneg 2 (Z.of_nat j)). rewrite MiB_eq. lia.
Qed.

(** X1: what the planner does guarantee for every file size: a power of
    two, at least 1 MiB, and at most 10001 parts. *)
Lemma planChunkSize_bounds (size : Z) :
  0 <= size < 2 ^ 63 ->
  is_pow2 (planChunkSize size) /\
  MiB <= planChunkSize size /\
  part_count size (planChunkSize size) <= max_parts + 1.
Proof.
  intros Hsize. pose proof (planChunkSize_min size Hsize) as Hmin.
  destruct (planChunkSize_shape size Hsize) as (j & Hc & _ & Hq).
  split; [|split; [exact Hmin|]].
  - exists (20 + Z.of_nat j). split; [lia|].
    rewrite Hc, MiB_eq, Z.pow_add_r by lia. reflexivity.
  - unfold part_count, max_parts in *. rewrite MiB_eq in Hmin.
    apply ceil_div_le_iff; [lia|].
    pose proof (Z.mod_pos_bound size 10000). pose proof (Z.div_mod size 10000). lia.
Qed.

(** ** The leaves *)

Section Leaves.

Variable sha256 : list byte -> list byte.

Lemma length_pair_adjacent_Z (level : list (list byte)) :
  Z.of_nat (length (pair_adjacent sha256 level)) = ceil_div (Z.of_nat (length level)) 2.
Proof.
  rewrite length_pair_adjacent, Nat2Z.inj_div, Nat2Z.inj_add. unfold ceil_div.
  change (Z.of_nat 2) with 2. f_equal. lia.
Qed.

Lemma length_tree_level (j : nat) :
  forall level : list (list byte),
    Z.of_nat (length (tree_level sha256 j level))
    = ceil_div (Z.of_nat (length level)) (2 ^ Z.of_nat j).
Proof.
  induction j as [|j IH]; intros level.
  - change (2 ^ Z.of_nat 0) with 1. now rewrite ceil_div_1.
  - rewrite tree_level_succ, IH, length_pair_adjacent_Z.
    pose proof (Z.pow_pos_nonneg 2 (Z.of_nat j)).
    rewrite ceil_div_ceil_div by lia.
    now rewrite Nat2Z.inj_succ, Z.pow_succ_r by lia.
Qed.

(** Past the level of [chunkSize] nothing is appended to [final]. *)
Lemma recurse_final_past (fuel : nat) :
  forall (chunkSize : Z) (fin hashlist : list (list byte)) (size : Z)
         (res : list (list byte) * list byte),
    0 < size -> chunkSize < size ->
    recurse sha256 fuel chunkSize fin hashlist size = Ret res ->
    res.1 = fin.
Proof.
  induction fuel as [|fuel IH]; intros chunkSize fin hashlist size res Hpos Hlt Hrun;
    [discriminate|].
  cbn [recurse] in Hrun. rewrite pair_level_adjacent in Hrun.
  replace (size =? chunkSize) with false in Hrun by (symmetry; apply Z.eqb_neq; lia).
  destruct (1 <? _).
  - apply IH in Hrun; [exact Hrun | lia | lia].
  - destruct (py_index _ 0); [|discriminate]. now injection Hrun as <-.
Qed.

(** The level captured in [final] when [chunkSize] is [size] times [2^j]:
    level [j], if the recursion gets that far. *)
Lemma recurse_final_at (j : nat) :
  forall (fuel : nat) (fin hashlist : list (list byte)) (size : Z)
         (res : list (list byte) * list byte),
    0 < size ->
    recurse sha256 fuel (size * 2 ^ Z.of_nat j) fin hashlist size = Ret res ->
    res.1 = fin ++ (if (j =? 0)%nat || (2 ^ Z.of_nat j <? Z.of_nat (length hashlist))
                    then tree_level sha256 j hashlist else []).
Proof.
  induction j as [|j IH]; intros fuel fin hashlist size res Hpos Hrun;
    (destruct fuel as [|fuel]; [discriminate|]);
    cbn [recurse] in Hrun; rewrite pair_level_adjacent in Hrun.
  - change (2 ^ Z.of_nat 0) with 1 in Hrun. rewrite Z.mul_1_r, Z.eqb_refl in Hrun.
    cbn [Nat.eqb orb]. change (tree_level sha256 0 hashlist) with hashlist.
    destruct (1 <? _).
    + apply recurse_final_past in Hrun; [exact Hrun | lia | lia].
    + destruct (py_index _ 0); [|discriminate]. now injection Hrun as <-.
  - pose proof (Z.pow_pos_nonneg 2 (Z.of_nat j)) as Hp.
    assert (Hpow : 2 ^ Z.of_nat (S j) = 2 * 2 ^ Z.of_nat j)
      by (rewrite Nat2Z.inj_succ, Z.pow_succ_r by lia; reflexivity).
    rewrite Hpow in *.
    replace (size =? size * (2 * 2 ^ Z.of_nat j)) with false in Hrun
      by (symmetry; apply Z.eqb_neq; nia).
    cbn [Nat.eqb orb]. rewrite tree_level_succ.
    pose proof (length_pair_adjacent_Z hashlist) as Hlen.
    assert (Hceil : forall n, ceil_div (Z.of_nat (length hashlist)) 2 <= n
                              <-> Z.of_nat (length hashlist) <= n * 2)
      by (intros n; apply ceil_div_le_iff; lia).
    destruct (1 <? Z.of_nat (length (pair_adjacent sha256 hashlist))) eqn:E.
    + apply Z.ltb_lt in E.
      replace (size * (2 * 2 ^ Z.of_nat j)) with (size * 2 * 2 ^ Z.of_nat j) in Hrun by lia.
      apply IH in Hrun; [|lia]. rewrite Hrun. f_equal.
      assert (Hcond : (j =? 0)%nat || (2 ^ Z.of_nat j <? Z.of_nat (length (pair_adjacent sha256 hashlist)))
                      = (2 * 2 ^ Z.of_nat j <? Z.of_nat (length hashlist))).
      { rewrite Hlen in *. apply eq_true_iff_eq.
        rewrite orb_true_iff, Nat.eqb_eq, !Z.ltb_lt.
        pose proof (Hceil (2 ^ Z.of_nat j)) as H1. pose proof (Hceil 1) as H2.
        split.
        - intros [-> | Hlt]; [change (2 ^ Z.of_nat 0) with 1; lia | lia].
        - intros Hlt. right. lia. }
      now rewrite Hcond.
    + apply Z.ltb_ge in E.
      destruct (py_index _ 0); [|discriminate]. injection Hrun as <-. cbn [fst].
      replace (2 * 2 ^ Z.of_nat j <? Z.of_nat (length hashlist)) with false.
      * now rewrite app_nil_r.
      * symmetry. apply Z.ltb_ge. rewrite Hlen in E.
        pose proof (Hceil 1) as H2. lia.
Qed.

End Leaves.

Lemma py_index_nonneg {A : Type} (l : list A) (i : Z) :
  0 <= i -> py_index l i = l !! Z.to_nat i.
Proof.
  intros Hi. unfold py_index.
  destruct (i <? 0) eqn:E; [apply Z.ltb_lt in E; lia | reflexivity].
Qed.

(** [hashFile] at the planned part size: one leaf per part. *)
Lemma hashFile_planned (sha256 : list byte -> list byte) (fuel : nat)
    (fs : gmap string (list byte)) (file : string) (content : list byte) :
  fs !! file = Some content ->
  Z.of_nat (length content) < 2 ^ 63 ->
  (length content < fuel)%nat ->
  exists hashes,
    hashFile sha256 fuel fs file (planChunkSize (Z.of_nat (length content)))
      = Ret (Some hashes) /\
    Z.of_nat (length (blocks hashes))
    = Z.max 1 (part_count (Z.of_nat (length content))
                 (planChunkSize (Z.of_nat (length content)))).
Proof.
  intros Hfile Hsize Hfuel.
  set (size := Z.of_nat (length content)) in *.
  destruct (hashFile_existing sha256 fuel fs file content (planChunkSize size)
              Hfile Hfuel) as (fin & root & Hrun & Hrec & _).
  exists {| blocks := fin; final := root |}. split; [exact Hrun|]. cbn [blocks].
  destruct (planChunkSize_shape size) as (j & Hc & Hj & _); [lia|].
  rewrite Hc in *. unfold part_count.
  apply recurse_final_at in Hrec; [|rewrite MiB_eq; lia].
  cbn [fst app] in Hrec. subst fin.
  pose proof (tree_leaves_length sha256 content) as Hleaves. fold size in Hleaves.
  pose proof (Z.pow_pos_nonneg 2 (Z.of_nat j)) as Hp.
  assert (HM : 0 < MiB) by (rewrite MiB_eq; lia).
  pose proof (ceil_div_le_iff size MiB (2 ^ Z.of_nat j) HM) as Hle.
  pose proof (ceil_div_le_iff size MiB 0 HM) as Hle0.
  assert (Hcond : (j =? 0)%nat
                  || (2 ^ Z.of_nat j <? Z.of_nat (length (tree_leaves sha256 content)))
                  = true).
  { apply orb_true_iff. destruct Hj as [-> | Hlt]; [now left|].
    right. apply Z.ltb_lt. rewrite Hleaves. lia. }
  rewrite Hcond, length_tree_level, Hleaves.
  destruct (Z.eq_dec size 0) as [Hz | Hnz].
  - rewrite Hz. unfold ceil_div at 2 3.
    rewrite !Z.div_small by (rewrite ?MiB_eq; nia).
    change (Z.max 1 0) with 1. unfold ceil_div.
    replace (1 + 2 ^ Z.of_nat j - 1) with (2 ^ Z.of_nat j) by lia.
    now rewrite Z.div_same by lia.
  - rewrite (Z.max_r 1 (ceil_div size MiB)) by lia.
    rewrite ceil_div_ceil_div by lia.
    pose proof (ceil_div_le_iff size (MiB * 2 ^ Z.of_nat j) 0). nia.
Qed.

(** C9: for a file of size [s] and the part size [c] planned for it, the
    'blocks' list of [hashFile] has max(1, ceil(s / c)) entries, so every
    index the transfer loop uses, 0 .. ceil(s / c) - 1, is within bounds.
    File sizes are file offsets of the operating system, below [2^63]. *)
Theorem hashFile_blocks_cover_parts (sha256 : list byte -> list byte) (fuel : nat)
    (fs : gmap string (list byte)) (file : string) (content : list byte) :
  fs !! file = Some content ->
  Z.of_nat (length content) < 2 ^ 63 ->
  (length content < fuel)%nat ->
  exists hashes,
    hashFile sha256 fuel fs file (planChunkSize (Z.of_nat (length content)))
      = Ret (Some hashes) /\
    Z.of_nat (length (blocks hashes))
    = Z.max 1 (part_count (Z.of_nat (length content))
                 (planChunkSize (Z.of_nat (length content)))) /\
    forall block,
      0 <= block < part_count (Z.of_nat (length content))
                     (planChunkSize (Z.of_nat (length content))) ->
      is_Some (py_index (blocks hashes) block).
Proof.
  intros Hfile Hsize Hfuel.
  destruct (hashFile_planned sha256 fuel fs file content Hfile Hsize Hfuel)
    as (hashes & Hrun & Hlen).
  exists hashes. split; [exact Hrun|]. split; [exact Hlen|].
  intros block Hblock. rewrite py_index_nonneg by lia.
  apply lookup_lt_is_Some. lia.
Qed.

Lemma hashFile_blocks_cover_parts_witness :
  exists hashes,
    hashFile sample_digest 4 {[ "a.tar" := [x61; x62; x63] ]} "a.tar"
      (planChunkSize (Z.of_nat (length [x61; x62; x63]))) = Ret (Some hashes) /\
    Z.of_nat (length (blocks hashes))
    = Z.max 1 (part_count (Z.of_nat (length [x61; x62; x63]))
                 (planChunkSize (Z.of_nat (length [x61; x62; x63])))) /\
    forall block,
      0 <= block < part_count (Z.of_nat (length [x61; x62; x63]))
                     (planChunkSize (Z.of_nat (length [x61; x62; x63]))) ->
      is_Some (py_index (blocks hashes) block).
Proof.
  apply (hashFile_blocks_cover_parts sample_digest 4 {[ "a.tar" := [x61; x62; x63] ]}
           "a.tar" [x61; x62; x63]).
  - vm_compute. reflexivity.
  - vm_compute. reflexivity.
  - vm_compute. lia.
Defined.

(** ** The retry loop *)

Section Transfer.

Variable sha256 : list byte -> list byte.
Variable aws : nat -> AwsResult.
Variable isatty : bool.

Lemma awsCommand_run (config : Config) (vault : string) (args : AwsCmd) (w : World) :
  glacier_vault config = Some vault ->
  awsCommand aws config args w
  = (Ret (Some (aws (length (w_calls w)))),
     {| w_fs := w_fs w;
        w_calls := w_calls w ++ [call_of args (w_fs w) (aws (length (w_calls w)))];
        w_errors := w_errors w; w_sleeps := w_sleeps w |}).
Proof. intros Hv. unfold awsCommand. rewrite Hv. reflexivity. Qed.

Lemma part_accepted_run (hashes : Hashes) (block : Z) (leaf : list byte)
    (r : AwsResult) (w : World) :
  py_index (blocks hashes) block = Some leaf ->
  exists w',
    part_accepted hashes block (Some r) w
    = (Ret (negb (attempt_failed (Some leaf) r)), w') /\
    w_fs w' = w_fs w /\ w_calls w' = w_calls w.
Proof.
  intros Hleaf. unfold part_accepted, attempt_failed. rewrite Hleaf.
  destruct (json r) as [j|]; [|now exists w].
  destruct (j !! "checksum") as [checksum|]; [|now exists w].
  cbn [fmap option_fmap option_map].
  rewrite negb_involutive.
  destruct (decide (hexdigest leaf = checksum)) as [Heq | Hne].
  - rewrite !bool_decide_eq_true_2 by congruence. now exists w.
  - rewrite !bool_decide_eq_false_2 by congruence.
    eexists. split; [reflexivity|]. split; reflexivity.
Qed.

(** The retry loop on a part whose leaf exists: it returns, the file
    system is untouched, and the log grows by the attempts made, all
    failed but an accepted last one, or all [retry] of them failed. *)
Lemma upload_part_run (config : Config) (vault : string) (hashes : Hashes)
    (uploadId tmpfile : string) (offset chunk block : Z) (leaf : list byte) :
  glacier_vault config = Some vault ->
  py_index (blocks hashes) block = Some leaf ->
  forall (retry : nat) (w : World),
  exists (n : nat) (results : list AwsResult) (w' : World),
    upload_part aws retry config hashes uploadId tmpfile offset chunk block w
    = (Ret n, w') /\
    w_fs w' = w_fs w /\
    w_calls w'
    = w_calls w
      ++ map (call_of (UploadMultipartPart (Some vault) uploadId tmpfile
                         offset (offset + chunk - 1)) (w_fs w)) results /\
    ((n = 0%nat /\ length results = retry /\
      Forall (fun r => attempt_failed (Some leaf) r = true) results)
     \/
     (n <> 0%nat /\
      exists fails ok,
        results = fails ++ [ok] /\
        Forall (fun r => attempt_failed (Some leaf) r = true) fails /\
        attempt_failed (Some leaf) ok = false /\
        (length fails < retry)%nat)).
Proof.
  intros Hv Hleaf. induction retry as [|tries IH]; intros w.
  - exists 0%nat, [], w. cbn [upload_part map]. rewrite app_nil_r.
    repeat split. left. repeat split. constructor.
  - cbn [upload_part]. unfold mbind at 1, M_bind.
    rewrite (awsCommand_run config vault _ w Hv). rewrite Hv.
    set (r := aws (length (w_calls w))).
    set (w1 := {| w_fs := w_fs w; w_calls := _; w_errors := _; w_sleeps := _ |}).
    unfold mbind at 1, M_bind.
    destruct (part_accepted_run hashes block leaf r w1 Hleaf) as (w2 & -> & Hfs2 & Hcalls2).
    destruct (attempt_failed (Some leaf) r) eqn:Hfail; cbn [negb].
    + unfold mbind at 1, M_bind. cbn [time_sleep].
      set (w3 := {| w_fs := w_fs w2; w_calls := _; w_errors := _; w_sleeps := _ |}).
      destruct (IH w3) as (n & results & w' & Hrun & Hfs & Hcalls & Hcases).
      exists n, (r :: results), w'. split; [exact Hrun|].
      split; [rewrite Hfs; subst w3; cbn; rewrite Hfs2; reflexivity|].
      split.
      { rewrite Hcalls. subst w3. cbn [w_calls w_fs]. rewrite Hcalls2, Hfs2.
        subst w1. cbn [w_calls w_fs map]. now rewrite <- app_assoc. }
      destruct Hcases as [(-> & Hlen & Hall) | (Hn & fails & ok & -> & Hall & Hok & Hlen)].
      * left. split; [reflexivity|]. split; [cbn; lia | now constructor].
      * right. split; [exact Hn|]. exists (r :: fails), ok.
        split; [reflexivity|]. split; [now constructor|].
        split; [exact Hok | cbn; lia].
    + exists (S tries), [r], w2. split; [reflexivity|].
      split; [rewrite Hfs2; reflexivity|].
      split; [rewrite Hcalls2; reflexivity|].
      right. split; [lia|]. exists [], r.
      split; [reflexivity|]. split; [constructor|]. split; [exact Hfail | cbn; lia].
Qed.

(** *** Attempts in the log *)

Lemma failed_attempts_app leaves chunkSize first (log1 log2 : list Call) :
  failed_attempts leaves chunkSize first (log1 ++ log2)
  = failed_attempts leaves chunkSize first log1
    ++ failed_attempts leaves chunkSize first log2.
Proof. unfold failed_attempts. apply List.filter_app. Qed.

Lemma failed_attempts_part leaves chunkSize first vault uploadId body offset last fs
    (results : list AwsResult) :
  failed_attempts leaves chunkSize first
    (map (call_of (UploadMultipartPart vault uploadId body offset last) fs) results)
  = if offset =? first
    then map (call_of (UploadMultipartPart vault uploadId body offset last) fs)
           (List.filter (attempt_failed (leaf_of leaves chunkSize first)) results)
    else [].
Proof.
  unfold failed_attempts.
  induction results as [|r results IH]; cbn [map List.filter].
  - now destruct (offset =? first).
  - rewrite IH. unfold is_part_attempt at 1. cbn [c_cmd call_of c_result].
    destruct (offset =? first); cbn [andb]; [|reflexivity].
    now destruct (attempt_failed _ r).
Qed.

Lemma failed_attempts_later leaves chunkSize first lo (log : list Call) :
  Forall (part_from lo) log -> first < lo ->
  failed_attempts leaves chunkSize first log = [].
Proof.
  intros Hall Hlt. unfold failed_attempts.
  induction Hall as [|c log Hc _ IH]; [reflexivity|]. cbn [List.filter].
  rewrite IH. unfold is_part_attempt, part_from in *.
  destruct (c_cmd c) as [| ? ? ? f ? |]; try contradiction.
  replace (f =? first) with false by (symmetry; apply Z.eqb_neq; lia).
  reflexivity.
Qed.

Lemma filter_all_failed leaf (fails : list AwsResult) :
  Forall (fun r => attempt_failed leaf r = true) fails ->
  List.filter (attempt_failed leaf) fails = fails /\
  List.filter (fun r => negb (attempt_failed leaf r)) fails = [].
Proof.
  induction 1 as [|r fails Hr _ [IH1 IH2]]; [now split|].
  cbn [List.filter]. rewrite Hr, IH1, IH2. now split.
Qed.

Lemma accepted_attempts_part leaves chunkSize vault uploadId body offset last fs
    (results : list AwsResult) :
  List.filter (accepted_attempt leaves chunkSize)
    (map (call_of (UploadMultipartPart vault uploadId body offset last) fs) results)
  = map (call_of (UploadMultipartPart vault uploadId body offset last) fs)
      (List.filter (fun r => negb (attempt_failed (leaf_of leaves chunkSize offset) r))
         results).
Proof.
  induction results as [|r results IH]; [reflexivity|]. cbn [map List.filter].
  rewrite IH. unfold accepted_attempt at 1. cbn [c_cmd call_of c_result].
  now destruct (attempt_failed _ r).
Qed.

Lemma part_from_weaken lo lo' (log : list Call) :
  lo' <= lo -> Forall (part_from lo) log -> Forall (part_from lo') log.
Proof.
  intros Hle Hall. eapply Forall_impl; [exact Hall|].
  intros c. unfold part_from. destruct (c_cmd c); auto. lia.
Qed.

Lemma part_from_attempts lo vault uploadId body last fs (results : list AwsResult) :
  Forall (part_from lo)
    (map (call_of (UploadMultipartPart vault uploadId body lo last) fs) results).
Proof.
  apply Forall_forall. intros c Hin. apply list_elem_of_In, in_map_iff in Hin.
  destruct Hin as (r & <- & _). unfold part_from. cbn. lia.
Qed.

End Transfer.

(** ** The transfer loop *)

Section TransferLoop.

Variable sha256 : list byte -> list byte.
Variable aws : nat -> AwsResult.
Variable isatty : bool.

Lemma progress_run (divisors : list Z) (w : World) :
  progress isatty divisors w = (Ret tt, w) \/
  progress isatty divisors w = (Raise ZeroDivisionError, w).
Proof. unfold progress. destruct (_ && _); [now right | now left]. Qed.

(** The three ways one turn of the loop goes. *)
Lemma transfer_done fuel config hashes file tmpfile uploadId size chunkSize
    bytesDone bytesTotal remain offset block w :
  remain <= 0 ->
  transfer aws isatty fuel config hashes file tmpfile uploadId size chunkSize
    bytesDone bytesTotal remain offset block w
  = (Ret Fallthrough, w).
Proof.
  intros Hle. apply Z.ltb_ge in Hle.
  destruct fuel; cbn [transfer]; now rewrite Hle.
Qed.

Lemma transfer_out_of_fuel config hashes file tmpfile uploadId size chunkSize
    bytesDone bytesTotal remain offset block w :
  0 < remain ->
  transfer aws isatty 0 config hashes file tmpfile uploadId size chunkSize
    bytesDone bytesTotal remain offset block w
  = (OutOfFuel, w).
Proof. intros Hpos. apply Z.ltb_lt in Hpos. cbn [transfer]. now rewrite Hpos. Qed.

Lemma transfer_step fuel config hashes file tmpfile uploadId size chunkSize
    bytesDone bytesTotal remain offset block w content0 n w2 :
  0 < remain -> 0 <= offset -> 0 <= chunkSize ->
  w_fs w !! file = Some content0 ->
  upload_part aws 10 config hashes uploadId tmpfile offset
    (if chunkSize <? remain then chunkSize else remain) block
    (set_fs (<[tmpfile := read_at (default [] (<[tmpfile := []]> (w_fs w) !! file))
                            offset chunkSize]>
               (<[tmpfile := []]> (w_fs w))) w)
  = (Ret n, w2) ->
  transfer aws isatty (S fuel) config hashes file tmpfile uploadId size chunkSize
    bytesDone bytesTotal remain offset block w
  = if (n =? 0)%nat
    then (Ret (Return false),
          (logging_error "Unable to upload %s at offset %d" w2).2)
    else if isatty && existsb (Z.eqb 0) [size; bytesTotal]
         then (Raise ZeroDivisionError, w2)
         else transfer aws isatty fuel config hashes file tmpfile uploadId size
                chunkSize bytesDone bytesTotal
                (remain - (if chunkSize <? remain then chunkSize else remain))
                (offset + (if chunkSize <? remain then chunkSize else remain))
                (block + 1) w2.
Proof.
  intros Hpos Hoff Hc Hfile Hup. apply Z.ltb_lt in Hpos.
  cbn [transfer]. rewrite Hpos. unfold mbind at 1, M_bind.
  rewrite (extractChunk_existing w file tmpfile content0 offset chunkSize Hfile Hoff Hc).
  cbn [negb]. unfold mbind at 1, M_bind. rewrite Hup.
  destruct (n =? 0)%nat; [reflexivity|].
  unfold mbind at 1, M_bind, progress.
  destruct (isatty && _); reflexivity.
Qed.


(** What one run of the transfer loop adds to the log: attempts at parts
    from [offset] on; with ten failed attempts at one part the loop has
    returned [False]; and when the loop ends normally the accepted
    attempts address, one after the other, the rest of the file. *)
Lemma transfer_run (config : Config) (vault : string) (hashes : Hashes)
    (file tmpfile uploadId : string) (size chunkSize bytesDone bytesTotal : Z) :
  glacier_vault config = Some vault ->
  0 < chunkSize ->
  (forall b, 0 <= b -> b * chunkSize < size -> is_Some (py_index (blocks hashes) b)) ->
  forall (fuel : nat) (remain offset block : Z) (w : World),
    0 <= block -> 0 <= offset ->
    remain = size - offset ->
    (0 < remain -> offset = block * chunkSize) ->
    is_Some (w_fs w !! file) ->
    exists new : list Call,
      w_calls (transfer aws isatty fuel config hashes file tmpfile uploadId size
                 chunkSize bytesDone bytesTotal remain offset block w).2
      = w_calls w ++ new /\
      Forall (part_from offset) new /\
      (forall first,
         (10 <= length (failed_attempts (blocks hashes) chunkSize first new))%nat ->
         (transfer aws isatty fuel config hashes file tmpfile uploadId size
            chunkSize bytesDone bytesTotal remain offset block w).1
         = Ret (Return false)) /\
      (forall content,
         tmpfile <> file ->
         w_fs w !! file = Some content ->
         size = Z.of_nat (length content) ->
         (transfer aws isatty fuel config hashes file tmpfile uploadId size
            chunkSize bytesDone bytesTotal remain offset block w).1
         = Ret Fallthrough ->
         concat (map addressed_bytes
                   (List.filter (accepted_attempt (blocks hashes) chunkSize) new))
         = drop (Z.to_nat offset) content).
Proof.
  intros Hv Hc Hleaves.
  induction fuel as [|fuel IH]; intros remain offset block w Hblock Hoff Hremain Hinv Hfile;
    (destruct (Z_lt_ge_dec 0 remain) as [Hpos | Hle];
     [| rewrite transfer_done by lia; exists []; rewrite app_nil_r; cbn;
        split; [reflexivity|]; split; [constructor|]; split; [lia|];
        intros content _ _ Hsize _; rewrite drop_ge; [reflexivity | lia]]).
  - rewrite transfer_out_of_fuel by exact Hpos.
    exists []. rewrite app_nil_r. cbn.
    split; [reflexivity|]. split; [constructor|]. split; [lia | discriminate].
  - specialize (Hinv Hpos). destruct Hfile as [content0 Hfile].
    set (chunk := if chunkSize <? remain then chunkSize else remain).
    assert (Hchunk : 0 < chunk <= chunkSize /\ chunk <= remain).
    { subst chunk. destruct (chunkSize <? remain) eqn:E;
        [apply Z.ltb_lt in E | apply Z.ltb_ge in E]; lia. }
    set (fs1 := <[tmpfile := read_at (default [] (<[tmpfile := []]> (w_fs w) !! file))
                               offset chunkSize]> (<[tmpfile := []]> (w_fs w))).
    destruct (Hleaves block) as [leaf Hleaf]; [lia | nia |].
    destruct (upload_part_run aws config vault hashes uploadId tmpfile offset chunk
                block leaf Hv Hleaf 10 (set_fs fs1 w))
      as (n & results & w2 & Hup & Hfs2 & Hcalls2 & Hcases).
    rewrite (transfer_step fuel config hashes file tmpfile uploadId size chunkSize
               bytesDone bytesTotal remain offset block w content0 n w2)
      by (lia || assumption).
    fold chunk.
    set (cmd := UploadMultipartPart (Some vault) uploadId tmpfile offset
                  (offset + chunk - 1)) in *.
    assert (Hcalls : w_calls w2 = w_calls w ++ map (call_of cmd fs1) results)
      by exact Hcalls2.
    assert (Hleaf_of : leaf_of (blocks hashes) chunkSize offset = Some leaf).
    { unfold leaf_of. rewrite Hinv, Z.div_mul by lia. exact Hleaf. }
    assert (Hfew : n <> 0%nat -> forall first,
              (length (failed_attempts (blocks hashes) chunkSize first
                         (map (call_of cmd fs1) results)) < 10)%nat).
    { intros Hn first. destruct Hcases as [(-> & _) | (_ & fails & ok & -> & Hall & Hok & Hlen)];
        [congruence|].
      subst cmd. rewrite failed_attempts_part.
      destruct (offset =? first) eqn:E; [|cbn; lia].
      apply Z.eqb_eq in E. subst first. rewrite Hleaf_of, length_map.
      rewrite List.filter_app. cbn [List.filter]. rewrite Hok, app_nil_r.
      destruct (filter_all_failed (Some leaf) fails Hall) as [-> _]. lia. }
    destruct (n =? 0)%nat eqn:Hn0.
    { (* the part ran out of attempts *)
      exists (map (call_of cmd fs1) results). cbn [fst snd logging_error w_calls].
      split; [exact Hcalls|]. split; [apply part_from_attempts|].
      split; [reflexivity | discriminate]. }
    apply Nat.eqb_neq in Hn0. specialize (Hfew Hn0).
    destruct (isatty && existsb (Z.eqb 0) [size; bytesTotal]).
    { (* the progress line divides by zero *)
      exists (map (call_of cmd fs1) results). cbn [fst snd].
      split; [exact Hcalls|]. split; [apply part_from_attempts|].
      split; [|discriminate].
      intros first Hten. specialize (Hfew first). lia. }
    (* on to the next part *)
    assert (Hfs1 : is_Some (w_fs w2 !! file)).
    { rewrite Hfs2. cbn [set_fs w_fs]. subst fs1.
      destruct (decide (tmpfile = file)) as [-> | Hne].
      - rewrite lookup_insert_eq. eauto.
      - rewrite !lookup_insert_ne by exact Hne. eauto. }
    destruct (IH (remain - chunk) (offset + chunk) (block + 1) w2)
      as (new2 & Hcalls' & Hfrom & Hten & Hcat); [lia | lia | lia | | exact Hfs1 |].
    { intros Hmore. subst chunk.
      destruct (chunkSize <? remain) eqn:E; [lia|]. lia. }
    exists (map (call_of cmd fs1) results ++ new2).
    split; [rewrite Hcalls', Hcalls; now rewrite <- app_assoc|].
    split.
    { apply Forall_app. split; [apply part_from_attempts|].
      apply (part_from_weaken (offset + chunk)); [lia | exact Hfrom]. }
    split.
    { intros first. rewrite failed_attempts_app, length_app.
      destruct (Z.eq_dec first offset) as [-> | Hne].
      - rewrite (failed_attempts_later _ _ offset (offset + chunk) new2 Hfrom) by lia.
        specialize (Hfew offset). cbn [length]. lia.
      - subst cmd. rewrite failed_attempts_part.
        replace (offset =? first) with false by (symmetry; apply Z.eqb_neq; lia).
        cbn [length]. apply Hten. }
    intros content Hne Hcontent Hsize Hfall.
    rewrite List.filter_app, map_app, concat_app.
    rewrite (Hcat content Hne); [| | exact Hsize | exact Hfall].
    2:{ rewrite Hfs2. cbn [set_fs w_fs]. subst fs1.
        now rewrite !lookup_insert_ne by exact Hne. }
    destruct Hcases as [(-> & _) | (_ & fails & ok & -> & Hall & Hok & Hlen)];
      [congruence|].
    subst cmd. rewrite accepted_attempts_part, Hleaf_of.
    rewrite List.filter_app. cbn [List.filter]. rewrite Hok. cbn [negb].
    destruct (filter_all_failed (Some leaf) fails Hall) as [_ ->].
    cbn [app map concat]. unfold addressed_bytes. cbn [c_cmd call_of c_fs].
    subst fs1. rewrite lookup_insert_eq, lookup_insert_ne, Hcontent by exact Hne.
    cbn [default from_option]. unfold read_at, id. rewrite app_nil_r, take_take.
    replace (Z.to_nat (offset + chunk - 1 - offset + 1) `min` Z.to_nat chunkSize)%nat
      with (Z.to_nat chunk) by lia.
    replace (Z.to_nat (offset + chunk)) with (Z.to_nat offset + Z.to_nat chunk)%nat by lia.
    rewrite <- drop_drop. apply take_drop.
Qed.

(** The loop never makes [uploadFile] return [True]. *)
Lemma transfer_result config hashes file tmpfile uploadId size chunkSize
    bytesDone bytesTotal (fuel : nat) :
  forall remain offset block w b,
    (transfer aws isatty fuel config hashes file tmpfile uploadId size chunkSize
       bytesDone bytesTotal remain offset block w).1 = Ret (Return b) ->
    b = false.
Proof.
  induction fuel as [|fuel IH]; intros remain offset block w b; cbn [transfer];
    destruct (0 <? remain); try discriminate.
  unfold mbind at 1, M_bind.
  destruct (extractChunk _ _ _ _ w) as [[[|] | e |] w1]; cbn [negb]; try discriminate.
  - unfold mbind at 1, M_bind.
    destruct (upload_part _ _ _ _ _ _ _ _ _ w1) as [[n | e |] w2]; try discriminate.
    destruct (n =? 0)%nat.
    + unfold mbind, M_bind, logging_error. cbn. congruence.
    + unfold mbind at 1, M_bind.
      destruct (progress_run [size; bytesTotal] w2) as [-> | ->]; [|discriminate].
      apply IH.
  - unfold mbind, M_bind, logging_error. cbn. congruence.
Qed.

Lemma failed_attempts_other leaves chunkSize first (c : Call) :
  is_part_attempt first c = false ->
  failed_attempts leaves chunkSize first [c] = [].
Proof. intros H. unfold failed_attempts. cbn [List.filter]. now rewrite H. Qed.

Lemma part_from_not_commit lo (log : list Call) :
  Forall (part_from lo) log -> Forall (fun c => is_commit c = false) log.
Proof.
  intros Hall. eapply Forall_impl; [exact Hall|].
  intros c. unfold part_from, is_commit. now destruct (c_cmd c).
Qed.

(** The remote part of [uploadFile]: what it adds to the log. *)
Lemma upload_hashed_run (fuel : nat) (config : Config) (file tmpfile name : string)
    (size chunkSize : Z) (hashes : Hashes) (bytesDone bytesTotal : Z) (w : World) :
  0 < chunkSize ->
  (forall b, 0 <= b -> b * chunkSize < size -> is_Some (py_index (blocks hashes) b)) ->
  is_Some (w_fs w !! file) ->
  exists new : list Call,
    w_calls (upload_hashed aws isatty fuel config file tmpfile name size chunkSize
               hashes bytesDone bytesTotal w).2 = w_calls w ++ new /\
    (forall first,
       (10 <= length (failed_attempts (blocks hashes) chunkSize first new))%nat ->
       (upload_hashed aws isatty fuel config file tmpfile name size chunkSize
          hashes bytesDone bytesTotal w).1 = Ret false /\
       Forall (fun c => is_commit c = false) new) /\
    (forall content,
       tmpfile <> file ->
       w_fs w !! file = Some content ->
       size = Z.of_nat (length content) ->
       (upload_hashed aws isatty fuel config file tmpfile name size chunkSize
          hashes bytesDone bytesTotal w).1 = Ret true ->
       concat (map addressed_bytes
                 (List.filter (accepted_attempt (blocks hashes) chunkSize) new))
       = content).
Proof.
  intros Hc Hleaves Hfile.
  remember (upload_hashed aws isatty fuel config file tmpfile name size chunkSize
              hashes bytesDone bytesTotal w) as run eqn:Hrun.
  unfold upload_hashed in Hrun.
  destruct (glacier_vault config) as [vault|] eqn:Hv.
  2:{ (* awsCommand refuses to run *)
      unfold awsCommand in Hrun. rewrite Hv in Hrun. subst run.
      exists []. rewrite app_nil_r. cbn.
      split; [reflexivity|]. split; [lia | discriminate]. }
  unfold mbind at 1, M_bind in Hrun.
  rewrite (awsCommand_run aws config vault _ w Hv) in Hrun.
  set (init := call_of (InitiateMultipartUpload (Some vault) name chunkSize) (w_fs w)
                 (aws (length (w_calls w)))) in *.
  set (w1 := {| w_fs := w_fs w; w_calls := w_calls w ++ [init];
                w_errors := w_errors w; w_sleeps := w_sleeps w |}) in *.
  assert (Hearly : w_calls run.2 = w_calls w1 -> run.1 <> Ret true ->
            exists new : list Call,
              w_calls run.2 = w_calls w ++ new /\
              (forall first,
                 (10 <= length (failed_attempts (blocks hashes) chunkSize first new))%nat ->
                 run.1 = Ret false /\ Forall (fun c => is_commit c = false) new) /\
              (forall content,
                 tmpfile <> file -> w_fs w !! file = Some content ->
                 size = Z.of_nat (length content) -> run.1 = Ret true ->
                 concat (map addressed_bytes
                           (List.filter (accepted_attempt (blocks hashes) chunkSize) new))
                 = content)).
  { intros Hcalls Ho. exists [init].
    split; [exact Hcalls|]. split; [|congruence].
    intros first. rewrite failed_attempts_other by reflexivity. cbn. lia. }
  unfold mbind at 1, M_bind in Hrun.
  destruct (negb (code (aws (length (w_calls w))) =? 0)).
  { apply Hearly; subst run; [reflexivity | discriminate]. }
  destruct (json (aws (length (w_calls w)))) as [j|].
  2:{ apply Hearly; subst run; [reflexivity | discriminate]. }
  cbn [mret M_ret] in Hrun.
  destruct (j !! "uploadId") as [uploadId|].
  2:{ apply Hearly; subst run; [reflexivity | discriminate]. }
  unfold mbind at 1, M_bind in Hrun.
  destruct (progress_run [bytesTotal] w1) as [Hp | Hp]; rewrite Hp in Hrun.
  2:{ apply Hearly; subst run; [reflexivity | discriminate]. }
  clear Hearly.
  unfold mbind at 1, M_bind in Hrun.
  destruct (transfer_run config vault hashes file tmpfile uploadId size chunkSize
              bytesDone bytesTotal Hv Hc Hleaves fuel size 0 0 w1)
    as (new & Hcalls & Hfrom & Hten & Hcat); [lia | lia | lia | lia | exact Hfile |].
  pose proof (transfer_result config hashes file tmpfile uploadId size chunkSize
                bytesDone bytesTotal fuel size 0 0 w1) as Hres.
  destruct (transfer _ _ _ _ _ _ _ _ _ _ _ _ _ _ _ w1) as [o wt].
  cbn [fst snd] in Hcalls, Hten, Hcat, Hres.
  assert (Hcalls1 : w_calls wt = w_calls w ++ [init] ++ new).
  { rewrite Hcalls. subst w1. cbn [w_calls]. now rewrite <- app_assoc. }
  assert (Hfailed : forall first extra,
            (forall c, c ∈ extra -> is_part_attempt first c = false) ->
            failed_attempts (blocks hashes) chunkSize first ([init] ++ new ++ extra)
            = failed_attempts (blocks hashes) chunkSize first new).
  { intros first extra Hextra. rewrite !failed_attempts_app.
    rewrite failed_attempts_other by reflexivity. cbn [app].
    replace (failed_attempts (blocks hashes) chunkSize first extra) with (@nil Call).
    - now rewrite app_nil_r.
    - unfold failed_attempts. induction extra as [|c extra IHx]; [reflexivity|].
      cbn [List.filter]. rewrite (Hextra c) by (left). cbn [andb].
      apply IHx. intros c' Hc'. apply Hextra. now right. }
  destruct o as [[|b] | e |].
  - (* every part sent: commit *)
    unfold mbind at 1, M_bind in Hrun.
    rewrite (awsCommand_run aws config vault _ wt Hv) in Hrun.
    set (commit := call_of _ (w_fs wt) _) in Hrun.
    exists ([init] ++ new ++ [commit]).
    assert (Hcalls2 : w_calls run.2 = w_calls w ++ [init] ++ new ++ [commit]).
    { subst run. destruct (code (aws (length (w_calls wt))) =? 0);
        cbn; rewrite Hcalls1; now rewrite <- !app_assoc. }
    split; [exact Hcalls2|]. split.
    + intros first. rewrite Hfailed.
      * intros Hfirst. specialize (Hten first Hfirst). discriminate.
      * intros c Hc'. apply list_elem_of_singleton in Hc'. now subst c.
    + intros content Hne Hcontent Hsize _.
      rewrite !List.filter_app. cbn [List.filter accepted_attempt c_cmd init commit call_of].
      rewrite app_nil_r. cbn [app].
      now rewrite (Hcat content Hne Hcontent Hsize eq_refl), drop_0.
  - (* a part ran out of attempts *)
    specialize (Hres b eq_refl). subst b. subst run.
    exists ([init] ++ new). cbn [fst snd mret M_ret].
    split; [exact Hcalls1|]. split; [|discriminate].
    intros first _. split; [reflexivity|].
    apply Forall_app. split; [now repeat constructor|].
    now apply (part_from_not_commit 0).
  - subst run. exists ([init] ++ new). cbn [fst snd].
    split; [exact Hcalls1|]. split; [|discriminate].
    intros first. rewrite <- (app_nil_r new), Hfailed by (intros c Hc'; inversion Hc').
    intros Hfirst. specialize (Hten first Hfirst). discriminate.
  - subst run. exists ([init] ++ new). cbn [fst snd].
    split; [exact Hcalls1|]. split; [|discriminate].
    intros first. rewrite <- (app_nil_r new), Hfailed by (intros c Hc'; inversion Hc').
    intros Hfirst. specialize (Hten first Hfirst). discriminate.
Qed.

End TransferLoop.

(** ** uploadFile *)

Section UploadFile.

Variable sha256 : list byte -> list byte.
Variable aws : nat -> AwsResult.
Variable isatty : bool.

Lemma read_blocks_fuel_mono (fuel : nat) :
  forall (fuel' : nat) (rest : list byte) (acc res : list (list byte)),
    (fuel <= fuel')%nat ->
    read_blocks sha256 fuel rest acc = Ret res ->
    read_blocks sha256 fuel' rest acc = Ret res.
Proof.
  induction fuel as [|fuel IH]; intros fuel' rest acc res Hle Hrun; [discriminate|].
  destruct fuel' as [|fuel']; [lia|]. cbn [read_blocks] in *.
  destruct (length (take (Z.to_nat MiB) rest) =? 0)%nat; [exact Hrun|].
  apply IH with (fuel' := fuel') in Hrun; [exact Hrun | lia].
Qed.

Lemma hashFile_fuel_mono (fuel fuel' : nat) (fs : gmap string (list byte))
    (file : string) (chunkSize : Z) (hashes : Hashes) :
  (fuel <= fuel')%nat ->
  hashFile sha256 fuel fs file chunkSize = Ret (Some hashes) ->
  hashFile sha256 fuel' fs file chunkSize = Ret (Some hashes).
Proof.
  intros Hle. unfold hashFile. destruct (fs !! file) as [content|]; [|discriminate].
  destruct (read_blocks sha256 fuel content []) as [blks | e |] eqn:Hread;
    try discriminate.
  rewrite (read_blocks_fuel_mono fuel fuel' content [] blks Hle Hread).
  destruct (recurse sha256 fuel chunkSize [] _ MiB) as [[fin root] | e |] eqn:Hrec;
    try discriminate.
  now rewrite (recurse_fuel_mono sha256 fuel fuel' chunkSize [] _ MiB (fin, root) Hle Hrec).
Qed.

(** Every leaf the transfer loop looks up exists. *)
Lemma hashFile_blocks_in_range (fuel : nat) (fs : gmap string (list byte))
    (file : string) (content : list byte) (hashes : Hashes) :
  fs !! file = Some content ->
  Z.of_nat (length content) < 2 ^ 63 ->
  hashFile sha256 fuel fs file (planChunkSize (Z.of_nat (length content)))
    = Ret (Some hashes) ->
  forall b,
    0 <= b ->
    b * planChunkSize (Z.of_nat (length content)) < Z.of_nat (length content) ->
    is_Some (py_index (blocks hashes) b).
Proof.
  intros Hfile Hsize Hrun b Hb Hlt.
  apply (hashFile_fuel_mono fuel (fuel + S (length content))) in Hrun; [|lia].
  destruct (hashFile_planned sha256 (fuel + S (length content)) fs file content
              Hfile Hsize) as (hashes' & Hrun' & Hlen); [lia|].
  rewrite Hrun in Hrun'. injection Hrun' as <-.
  rewrite py_index_nonneg by lia. apply lookup_lt_is_Some.
  pose proof (planChunkSize_min (Z.of_nat (length content))) as Hmin.
  rewrite MiB_eq in Hmin.
  pose proof (ceil_div_le_iff (Z.of_nat (length content))
                (planChunkSize (Z.of_nat (length content))) b) as Hceil.
  unfold part_count in Hlen. lia.
Qed.

(** On an existing file that hashes, [uploadFile] is its remote part. *)
Lemma uploadFile_existing (fuel : nat) (config : Config) (prefix file tmpfile : string)
    (bytesDone bytesTotal : Z) (withPath : bool) (w : World) (content : list byte)
    (hashes : Hashes) :
  w_fs w !! file = Some content ->
  hashFile sha256 fuel (w_fs w) file (planChunkSize (Z.of_nat (length content)))
    = Ret (Some hashes) ->
  uploadFile sha256 aws isatty fuel config prefix file tmpfile bytesDone bytesTotal
    withPath w
  = upload_hashed aws isatty fuel config file tmpfile
      (if withPath then file else os_path_basename file)
      (Z.of_nat (length content)) (planChunkSize (Z.of_nat (length content)))
      hashes bytesDone bytesTotal w.
Proof.
  intros Hfile Hhash. unfold uploadFile.
  unfold mbind at 1, M_bind. unfold os_path_exists.
  rewrite bool_decide_eq_true_2 by (rewrite Hfile; eauto). cbn [negb].
  unfold mbind at 1, M_bind. unfold os_path_getsize. rewrite Hfile.
  unfold mbind at 1, M_bind. rewrite Hhash. reflexivity.
Qed.

(** If [uploadFile] returns [True], the file was hashed. *)
Lemma uploadFile_True_hashed (fuel : nat) (config : Config) (prefix file tmpfile : string)
    (bytesDone bytesTotal : Z) (withPath : bool) (w : World) (content : list byte) :
  w_fs w !! file = Some content ->
  (uploadFile sha256 aws isatty fuel config prefix file tmpfile bytesDone bytesTotal
     withPath w).1 = Ret true ->
  exists hashes,
    hashFile sha256 fuel (w_fs w) file (planChunkSize (Z.of_nat (length content)))
    = Ret (Some hashes).
Proof.
  intros Hfile. unfold uploadFile.
  unfold mbind at 1, M_bind. unfold os_path_exists.
  rewrite bool_decide_eq_true_2 by (rewrite Hfile; eauto). cbn [negb].
  unfold mbind at 1, M_bind. unfold os_path_getsize. rewrite Hfile.
  unfold mbind at 1, M_bind.
  destruct (hashFile _ _ _ _ _) as [[hashes|] | e |]; try discriminate.
  eauto.
Qed.

End UploadFile.

(** ** A transport that accepts every part *)

Section Accepted.

Variable sha256 : list byte -> list byte.
Variable aws : nat -> AwsResult.
Variable isatty : bool.

Lemma upload_part_first_try (tries : nat) (config : Config) (vault : string)
    (hashes : Hashes) (uploadId tmpfile : string) (offset chunk block : Z)
    (leaf : list byte) (w : World) :
  glacier_vault config = Some vault ->
  py_index (blocks hashes) block = Some leaf ->
  attempt_failed (Some leaf) (aws (length (w_calls w))) = false ->
  exists w',
    upload_part aws (S tries) config hashes uploadId tmpfile offset chunk block w
    = (Ret (S tries), w') /\
    w_fs w' = w_fs w /\ length (w_calls w') = S (length (w_calls w)).
Proof.
  intros Hv Hleaf Hok. cbn [upload_part]. unfold mbind at 1, M_bind.
  rewrite (awsCommand_run aws config vault _ w Hv).
  set (w1 := {| w_fs := w_fs w; w_calls := _; w_errors := _; w_sleeps := _ |}).
  unfold mbind at 1, M_bind.
  destruct (part_accepted_run hashes block leaf (aws (length (w_calls w))) w1 Hleaf)
    as (w2 & -> & Hfs2 & Hcalls2).
  rewrite Hok. cbn [negb]. exists w2. split; [reflexivity|].
  split; [now rewrite Hfs2|].
  rewrite Hcalls2. subst w1. cbn [w_calls]. rewrite length_app. cbn. lia.
Qed.

(** With fuel for every part left, the loop sends them all. *)
Lemma transfer_accepted (config : Config) (vault : string) (hashes : Hashes)
    (file tmpfile uploadId : string) (size chunkSize bytesDone bytesTotal : Z) :
  glacier_vault config = Some vault ->
  0 < chunkSize ->
  (isatty = false \/ bytesTotal <> 0) ->
  forall (fuel : nat) (block : Z) (w : World),
    0 <= block ->
    block * chunkSize <= size ->
    is_Some (w_fs w !! file) ->
    (Z.to_nat (ceil_div (size - block * chunkSize) chunkSize) <= fuel)%nat ->
    (forall k : nat,
       (Z.of_nat k < ceil_div (size - block * chunkSize) chunkSize) ->
       exists leaf,
         py_index (blocks hashes) (block + Z.of_nat k) = Some leaf /\
         attempt_failed (Some leaf) (aws (length (w_calls w) + k)%nat) = false) ->
    (transfer aws isatty fuel config hashes file tmpfile uploadId size chunkSize
       bytesDone bytesTotal (size - block * chunkSize) (block * chunkSize) block w).1
    = Ret Fallthrough /\
    length (w_calls (transfer aws isatty fuel config hashes file tmpfile uploadId
                       size chunkSize bytesDone bytesTotal
                       (size - block * chunkSize) (block * chunkSize) block w).2)
    = (length (w_calls w)
       + Z.to_nat (ceil_div (size - block * chunkSize) chunkSize))%nat.
Proof.
  intros Hv Hc Htty.
  induction fuel as [|fuel IH]; intros block w Hblock Hle Hfile Hfuel Hacc;
    set (remain := size - block * chunkSize) in *;
    pose proof (ceil_div_le_iff remain chunkSize 0 Hc) as Hzero;
    (destruct (Z_lt_ge_dec 0 remain) as [Hpos | Hdone];
     [| rewrite transfer_done by lia; cbn [fst snd]; split; [reflexivity | lia]]).
  - lia.
  - destruct Hfile as [content0 Hfile].
    set (chunk := if chunkSize <? remain then chunkSize else remain).
    destruct (Hacc 0%nat) as (leaf & Hleaf & Hok); [lia|].
    rewrite Z.add_0_r in Hleaf. rewrite Nat.add_0_r in Hok.
    set (fs1 := <[tmpfile := read_at (default [] (<[tmpfile := []]> (w_fs w) !! file))
                               (block * chunkSize) chunkSize]>
                  (<[tmpfile := []]> (w_fs w))).
    destruct (upload_part_first_try 9 config vault hashes uploadId tmpfile
                (block * chunkSize) chunk block leaf (set_fs fs1 w) Hv Hleaf Hok)
      as (w2 & Hup & Hfs2 & Hcalls2).
    rewrite (transfer_step aws isatty fuel config hashes file tmpfile uploadId size
               chunkSize bytesDone bytesTotal remain (block * chunkSize) block w
               content0 10%nat w2) by (lia || assumption).
    cbn [Nat.eqb]. fold chunk.
    assert (Hsize : size <> 0) by lia.
    replace (isatty && existsb (Z.eqb 0) [size; bytesTotal]) with false.
    2:{ symmetry. destruct Htty as [-> | Hne]; [reflexivity|].
        cbn [existsb]. apply andb_false_iff. right.
        rewrite !orb_false_iff. repeat split; apply Z.eqb_neq; lia. }
    assert (Hfs1 : is_Some (w_fs w2 !! file)).
    { rewrite Hfs2. cbn [set_fs w_fs]. subst fs1.
      destruct (decide (tmpfile = file)) as [-> | Hne].
      - rewrite lookup_insert_eq. eauto.
      - rewrite !lookup_insert_ne by exact Hne. eauto. }
    pose proof (ceil_div_le_iff remain chunkSize 1 Hc) as Hone.
    destruct (chunkSize <? remain) eqn:E; subst chunk.
    + (* a full part, more to come *)
      apply Z.ltb_lt in E.
      assert (Hstep : ceil_div remain chunkSize
                      = 1 + ceil_div (size - (block + 1) * chunkSize) chunkSize).
      { unfold ceil_div, remain.
        replace (size - block * chunkSize + chunkSize - 1)
          with (size - (block + 1) * chunkSize + chunkSize - 1 + 1 * chunkSize) by lia.
        rewrite Z.div_add by lia. lia. }
      pose proof (ceil_div_le_iff (size - (block + 1) * chunkSize) chunkSize 0 Hc) as Hnext.
      replace (remain - chunkSize) with (size - (block + 1) * chunkSize) by (unfold remain; lia).
      replace (block * chunkSize + chunkSize) with ((block + 1) * chunkSize) by lia.
      destruct (IH (block + 1) w2) as [Hres Hlen]; [lia | lia | exact Hfs1 | lia | |].
      { intros k Hk. destruct (Hacc (S k)) as (leaf' & Hleaf' & Hok'); [lia|].
        exists leaf'. split.
        - rewrite <- Hleaf'. f_equal. lia.
        - rewrite <- Hok'. do 2 f_equal. rewrite Hcalls2. cbn [set_fs w_calls]. lia. }
      split; [exact Hres|]. rewrite Hlen, Hcalls2. cbn [set_fs w_calls]. lia.
    + (* the last part *)
      apply Z.ltb_ge in E.
      rewrite transfer_done by lia. cbn [fst snd].
      split; [reflexivity|]. rewrite Hcalls2. cbn [set_fs w_calls]. lia.
Qed.

End Accepted.

(** X19: with a transport that accepts every part at once and fuel for
    the loops, [uploadFile] returns [True]. *)
Lemma uploadFile_succeeds (sha256 : list byte -> list byte) (aws : nat -> AwsResult)
    (isatty : bool) (fuel : nat) (config : Config) (vault prefix file tmpfile : string)
    (bytesDone bytesTotal : Z) (withPath : bool) (w : World) (content : list byte) :
  w_fs w !! file = Some content ->
  Z.of_nat (length content) < 2 ^ 63 ->
  (length content < fuel)%nat ->
  glacier_vault config = Some vault ->
  (isatty = false \/ bytesTotal <> 0) ->
  (forall hashes,
     hashFile sha256 fuel (w_fs w) file (planChunkSize (Z.of_nat (length content)))
       = Ret (Some hashes) ->
     accepting aws (length (w_calls w)) (blocks hashes)
       (Z.to_nat (part_count (Z.of_nat (length content))
                    (planChunkSize (Z.of_nat (length content)))))) ->
  (uploadFile sha256 aws isatty fuel config prefix file tmpfile bytesDone bytesTotal
     withPath w).1 = Ret true.
Proof.
  intros Hfile Hsize Hfuel Hv Htty Hacc.
  set (size := Z.of_nat (length content)) in *.
  set (c := planChunkSize size) in *.
  destruct (hashFile_planned sha256 fuel (w_fs w) file content Hfile Hsize Hfuel)
    as (hashes & Hhash & Hlen).
  fold size c in Hhash, Hlen.
  destruct (Hacc hashes Hhash) as (Hcode & (j & uploadId & Hjson & Hid) & Hparts & Hcommit).
  rewrite (uploadFile_existing sha256 aws isatty fuel config prefix file tmpfile
             bytesDone bytesTotal withPath w content hashes Hfile Hhash).
  fold size c. unfold upload_hashed.
  unfold mbind at 1, M_bind. rewrite (awsCommand_run aws config vault _ w Hv).
  set (w1 := {| w_fs := w_fs w; w_calls := _; w_errors := _; w_sleeps := _ |}).
  unfold mbind at 1, M_bind. rewrite Hcode, Hjson. cbn [Z.eqb negb mret M_ret].
  rewrite Hid. unfold mbind at 1, M_bind.
  assert (Hprog : progress isatty [bytesTotal] w1 = (Ret tt, w1)).
  { unfold progress. replace (isatty && existsb (Z.eqb 0) [bytesTotal]) with false;
      [reflexivity|].
    symmetry. destruct Htty as [-> | Hne]; [reflexivity|].
    cbn [existsb]. apply andb_false_iff. right.
    rewrite orb_false_iff. split; [apply Z.eqb_neq; lia | reflexivity]. }
  rewrite Hprog. unfold mbind at 1, M_bind.
  pose proof (planChunkSize_min size) as Hmin. rewrite MiB_eq in Hmin.
  assert (Hc : 0 < c) by (subst c; lia).
  pose proof (ceil_div_le_iff size c (Z.of_nat (length content)) Hc) as Hcount.
  pose proof (ceil_div_le_iff size c (-1) Hc) as Hcount0.
  destruct (transfer_accepted aws isatty config vault hashes file tmpfile uploadId size c
              bytesDone bytesTotal Hv Hc Htty fuel 0 w1) as [Hres Hcalls].
  - lia.
  - lia.
  - cbn [w_fs w1]. rewrite Hfile. eauto.
  - rewrite Z.mul_0_l, Z.sub_0_r. fold size in Hcount. nia.
  - intros k Hk. rewrite Z.mul_0_l, Z.sub_0_r in Hk.
    destruct (Hparts k) as (leaf & Hleaf & Hok); [unfold part_count; lia|].
    exists leaf. split.
    + rewrite py_index_nonneg by lia. rewrite <- Hleaf. f_equal. lia.
    + rewrite <- Hok. f_equal. subst w1. cbn [w_calls]. rewrite length_app. cbn.
      reflexivity.
  - rewrite Z.mul_0_l, Z.sub_0_r in Hres, Hcalls.
    destruct (transfer _ _ _ _ _ _ _ _ _ _ _ _ _ _ _ w1) as [o wt].
    cbn [fst snd] in Hres, Hcalls. subst o.
    unfold mbind at 1, M_bind. rewrite (awsCommand_run aws config vault _ wt Hv).
    replace (length (w_calls wt))
      with (length (w_calls w) + 1 + Z.to_nat (part_count size c))%nat.
    + now rewrite Hcommit.
    + rewrite Hcalls. subst w1. cbn [w_calls]. rewrite length_app. cbn.
      unfold part_count. lia.
Qed.

(** C4: when the log of a run of [uploadFile] shows ten failed attempts at
    one part (answers with no JSON output, without checksum, or with a
    checksum other than the hex digest of the part's leaf), the run has
    returned [False] and has issued no complete-multipart-upload call.
    This holds for every transport [aws], every terminal setting and
    whatever the model's loop fuel. *)
Theorem exhausted_part_fails_without_commit
    (sha256 : list byte -> list byte) (aws : nat -> AwsResult) (isatty : bool)
    (fuel : nat) (config : Config) (prefix file tmpfile : string)
    (bytesDone bytesTotal : Z) (withPath : bool) (w : World)
    (content : list byte) (hashes : Hashes) (first : Z) :
  w_fs w !! file = Some content ->
  Z.of_nat (length content) < 2 ^ 63 ->
  hashFile sha256 fuel (w_fs w) file (planChunkSize (Z.of_nat (length content)))
    = Ret (Some hashes) ->
  (10 <= length
           (failed_attempts (blocks hashes)
              (planChunkSize (Z.of_nat (length content))) first
              (drop (length (w_calls w))
                 (w_calls (uploadFile sha256 aws isatty fuel config prefix file
                             tmpfile bytesDone bytesTotal withPath w).2))))%nat ->
  (uploadFile sha256 aws isatty fuel config prefix file tmpfile bytesDone
     bytesTotal withPath w).1 = Ret false /\
  Forall (fun c => is_commit c = false)
    (drop (length (w_calls w))
       (w_calls (uploadFile sha256 aws isatty fuel config prefix file tmpfile
                   bytesDone bytesTotal withPath w).2)).
Proof.
  intros Hfile Hsize Hhash.
  rewrite (uploadFile_existing sha256 aws isatty fuel config prefix file tmpfile
             bytesDone bytesTotal withPath w content hashes Hfile Hhash).
  pose proof (planChunkSize_min (Z.of_nat (length content))) as Hmin.
  rewrite MiB_eq in Hmin.
  destruct (upload_hashed_run aws isatty fuel config file tmpfile
              (if withPath then file else os_path_basename file)
              (Z.of_nat (length content)) (planChunkSize (Z.of_nat (length content)))
              hashes bytesDone bytesTotal w)
    as (new & Hcalls & Hten & _).
  - lia.
  - now apply (hashFile_blocks_in_range sha256 fuel (w_fs w) file content hashes).
  - rewrite Hfile. eauto.
  - rewrite Hcalls, drop_app_length. apply Hten.
Qed.

Lemma exhausted_part_fails_without_commit_witness :
  (uploadFile sample_digest sample_aws_mismatch false 4 sample_config EmptyString
     "/prep/a.tar" "/tmp/stage" 0 3 false sample_world).1 = Ret false /\
  Forall (fun c => is_commit c = false)
    (drop (length (w_calls sample_world))
       (w_calls (uploadFile sample_digest sample_aws_mismatch false 4 sample_config
                   EmptyString "/prep/a.tar" "/tmp/stage" 0 3 false sample_world).2)).
Proof.
  apply (exhausted_part_fails_without_commit sample_digest sample_aws_mismatch false
           4 sample_config EmptyString "/prep/a.tar" "/tmp/stage" 0 3 false
           sample_world [x61; x62; x63] sample_hashes 0).
  - vm_compute. reflexivity.
  - vm_compute. reflexivity.
  - vm_compute. reflexivity.
  - vm_compute. lia.
Defined.

(** C7: in a run of [uploadFile] that returns [True], the bytes addressed
    by the accepted attempts (for each part, the first [chunk] bytes of the
    staged file, [chunk] being the range length of the call), taken in the
    order of the log, which is ascending part order, are exactly the bytes
    of the file.  The staging file is not the file being uploaded. *)
Theorem uploaded_parts_reassemble_file
    (sha256 : list byte -> list byte) (aws : nat -> AwsResult) (isatty : bool)
    (fuel : nat) (config : Config) (prefix file tmpfile : string)
    (bytesDone bytesTotal : Z) (withPath : bool) (w : World) (content : list byte) :
  w_fs w !! file = Some content ->
  Z.of_nat (length content) < 2 ^ 63 ->
  tmpfile <> file ->
  (uploadFile sha256 aws isatty fuel config prefix file tmpfile bytesDone
     bytesTotal withPath w).1 = Ret true ->
  exists hashes,
    hashFile sha256 fuel (w_fs w) file (planChunkSize (Z.of_nat (length content)))
      = Ret (Some hashes) /\
    concat (map addressed_bytes
              (List.filter
                 (accepted_attempt (blocks hashes)
                    (planChunkSize (Z.of_nat (length content))))
                 (drop (length (w_calls w))
                    (w_calls (uploadFile sha256 aws isatty fuel config prefix file
                                tmpfile bytesDone bytesTotal withPath w).2))))
    = content.
Proof.
  intros Hfile Hsize Hne Htrue.
  destruct (uploadFile_True_hashed sha256 aws isatty fuel config prefix file tmpfile
              bytesDone bytesTotal withPath w content Hfile Htrue) as [hashes Hhash].
  exists hashes. split; [exact Hhash|].
  rewrite (uploadFile_existing sha256 aws isatty fuel config prefix file tmpfile
             bytesDone bytesTotal withPath w content hashes Hfile Hhash) in *.
  pose proof (planChunkSize_min (Z.of_nat (length content))) as Hmin.
  rewrite MiB_eq in Hmin.
  destruct (upload_hashed_run aws isatty fuel config file tmpfile
              (if withPath then file else os_path_basename file)
              (Z.of_nat (length content)) (planChunkSize (Z.of_nat (length content)))
              hashes bytesDone bytesTotal w)
    as (new & Hcalls & _ & Hcat).
  - lia.
  - now apply (hashFile_blocks_in_range sha256 fuel (w_fs w) file content hashes).
  - rewrite Hfile. eauto.
  - rewrite Hcalls, drop_app_length. now apply Hcat.
Qed.

Lemma uploaded_parts_reassemble_file_witness :
  exists hashes,
    hashFile sample_digest 4 (w_fs sample_world) "/prep/a.tar"
      (planChunkSize (Z.of_nat (length [x61; x62; x63]))) = Ret (Some hashes) /\
    concat (map addressed_bytes
              (List.filter
                 (accepted_attempt (blocks hashes)
                    (planChunkSize (Z.of_nat (length [x61; x62; x63]))))
                 (drop (length (w_calls sample_world))
                    (w_calls (uploadFile sample_digest sample_aws_match false 4
                                sample_config EmptyString "/prep/a.tar" "/tmp/stage"
                                0 3 false sample_world).2))))
    = [x61; x62; x63].
Proof.
  apply (uploaded_parts_reassemble_file sample_digest sample_aws_match false 4
           sample_config EmptyString "/prep/a.tar" "/tmp/stage" 0 3 false
           sample_world [x61; x62; x63]).
  - vm_compute. reflexivity.
  - vm_compute. reflexivity.
  - discriminate.
  - vm_compute. reflexivity.
Defined.

(** ** Worked examples *)

(** Five 1 MiB blocks and a part size of 4 MiB: the leaves are the two
    nodes of the third level, the root sits one level higher. *)
Example recurse_five_blocks :
  recurse sample_digest 5 (4 * MiB) [] [[x61]; [x62]; [x63]; [x64]; [x65]] MiB
  = Ret ([[x01; x01; x61; x62; x01; x63; x64]; [x65]],
         [x01; x01; x01; x61; x62; x01; x63; x64; x65]).
Proof. vm_compute. reflexivity. Qed.

(** The same off-by-one one power of two higher, and a size just past it. *)
Example plan_next_boundary :
  planChunkSize (10000 * 2 ^ 21 + 1) = 2 ^ 21 /\
  part_count (10000 * 2 ^ 21 + 1) (2 ^ 21) = 10001 /\
  planChunkSize (10000 * 2 ^ 21 + 10000) = 2 ^ 22.
Proof. repeat split; vm_compute; reflexivity. Qed.

(** A run that succeeds: initiate, one part, commit. *)
Example uploadFile_calls :
  map c_cmd
    (w_calls (uploadFile sample_digest sample_aws_match false 4 sample_config
                EmptyString "/prep/a.tar" "/tmp/stage" 0 3 false sample_world).2)
  = [InitiateMultipartUpload (Some "vault") "a.tar" 1048576;
     UploadMultipartPart (Some "vault") "upload-1" "/tmp/stage" 0 2;
     CompleteMultipartUpload (Some "vault") "upload-1" "01616263" 3].
Proof. vm_compute. reflexivity. Qed.

(** The waits of a part that runs out of attempts. *)
Example uploadFile_backoff :
  w_sleeps (uploadFile sample_digest sample_aws_mismatch false 4 sample_config
              EmptyString "/prep/a.tar" "/tmp/stage" 0 3 false sample_world).2
  = [30; 60; 90; 120; 150; 180; 210; 240; 270; 300].
Proof. vm_compute. reflexivity. Qed.

(** With the parenthesis of line 255 closed after [len(files)], a batch
    that succeeds leaves only the archive behind. *)
Example uploadFiles_success :
  (uploadFiles "/tmp/tmpStage" (line255_call sample_digest sample_aws_match false 4)
     sample_config ["a.tar"] 3 sample_world).1 = Ret true /\
  w_fs (uploadFiles "/tmp/tmpStage" (line255_call sample_digest sample_aws_match false 4)
          sample_config ["a.tar"] 3 sample_world).2
  = {[ "/prep/a.tar" := [x61; x62; x63] ]}.
Proof. split; vm_compute; reflexivity. Qed.

(** * Further properties of the module *)

(** ** The planner as a function of the file size *)

Lemma planChunkSize_bounds_witness :
  is_pow2 (planChunkSize (20 * 1024 ^ 3)) /\
  MiB <= planChunkSize (20 * 1024 ^ 3) /\
  part_count (20 * 1024 ^ 3) (planChunkSize (20 * 1024 ^ 3)) <= max_parts + 1.
Proof.
  apply (planChunkSize_bounds (20 * 1024 ^ 3)).
  split; [lia | vm_compute; reflexivity].
Defined.

Lemma planChunkSize_is_pow2 (size : Z) :
  0 <= size < 2 ^ 63 -> is_pow2 (planChunkSize size).
Proof.
  intros Hsize. destruct (planChunkSize_shape size Hsize) as (j & Hc & _).
  exists (20 + Z.of_nat j). split; [lia|].
  rewrite Hc, MiB_eq, Z.pow_add_r by lia. reflexivity.
Qed.

(** Above the 1 MiB floor the planned size is [2^(k+1)] with [2^k] below
    [size / 10000] rounded up to a multiple of 1 MiB. *)
Lemma planChunkSize_large (size : Z) :
  0 <= size < 2 ^ 63 ->
  MiB < size / max_parts ->
  exists k, 20 <= k /\
            planChunkSize size = 2 ^ (k + 1) /\
            2 ^ k < MiB * ceil_div (size / max_parts) MiB.
Proof.
  intros Hsize Hq. unfold planChunkSize, max_parts in *. cbv zeta.
  set (q := size / 10000) in *.
  assert (Hq' : 10000 * q <= size) by (subst q; apply Z.mul_div_le; lia).
  replace (q <=? MiB) with false by (symmetry; apply Z.leb_gt; exact Hq).
  rewrite MiB_eq in *. unfold ceil_div.
  set (f := (q + 1048576 - 1) / 1048576).
  assert (Hf : 1048576 * f <= q + 1048576 - 1 < 1048576 * (f + 1)).
  { subst f. split; [apply Z.mul_div_le; lia|].
    rewrite Z.mul_add_distr_l, Z.mul_1_r.
    pose proof (Z.mod_pos_bound (q + 1048576 - 1) 1048576).
    pose proof (Z.div_mod (q + 1048576 - 1) 1048576). lia. }
  set (c0 := 1048576 * f) in *.
  assert (Hmod : c0 mod 2 ^ 20 = 0).
  { subst c0. change 1048576 with (2 ^ 20). now rewrite Z.mul_comm, Z.mod_mul by lia. }
  rewrite round_pow2_spec; [| lia | exact Hmod].
  exists (Z.log2 (c0 - 1)).
  assert (Hk : 2 ^ Z.log2 (c0 - 1) <= c0 - 1) by (apply Z.log2_spec; lia).
  split; [|split; [reflexivity | lia]].
  rewrite <- (Z.log2_pow2 20) by lia. apply Z.log2_le_mono. lia.
Qed.

(** Among the powers of two that are at least 1 MiB and at least
    [size / 10000], the planned part size is the least. *)
Lemma planChunkSize_least (size p : Z) :
  0 <= size < 2 ^ 63 ->
  is_pow2 p -> MiB <= p -> size / max_parts <= p ->
  planChunkSize size <= p.
Proof.
  intros Hsize (m & Hm & ->) Hmin Hq.
  destruct (Z_le_gt_dec (size / max_parts) MiB) as [Hsmall | Hlarge].
  { unfold planChunkSize. cbv zeta.
    now replace (size / max_parts <=? MiB) with true by (symmetry; now apply Z.leb_le). }
  destruct (planChunkSize_large size Hsize) as (k & Hk20 & -> & Hk); [lia|].
  assert (Hm20 : 20 <= m).
  { rewrite MiB_eq in Hmin. change 1048576 with (2 ^ 20) in Hmin.
    apply (Z.pow_le_mono_r_iff 2); lia. }
  assert (Hmul : 2 ^ m = 2 ^ (m - 20) * MiB).
  { rewrite MiB_eq. change 1048576 with (2 ^ 20).
    rewrite <- Z.pow_add_r by lia. f_equal. lia. }
  assert (Hceil : ceil_div (size / max_parts) MiB <= 2 ^ (m - 20)).
  { apply ceil_div_le_iff; [rewrite MiB_eq; lia|]. now rewrite <- Hmul. }
  assert (Hlt : 2 ^ k < 2 ^ m).
  { rewrite Hmul. pose proof MiB_eq. nia. }
  apply Z.pow_lt_mono_r_iff in Hlt; [|lia|lia].
  apply Z.pow_le_mono_r; lia.
Qed.

(** X2: for every file size the planned part size is the least power of
    two that is at least 1 MiB and at least [size / 10000] (the floor of
    the quotient). *)
Theorem planChunkSize_least_power_of_two (size : Z) :
  0 <= size < 2 ^ 63 ->
  is_pow2 (planChunkSize size) /\
  MiB <= planChunkSize size /\
  size / max_parts <= planChunkSize size /\
  forall p, is_pow2 p -> MiB <= p -> size / max_parts <= p ->
            planChunkSize size <= p.
Proof.
  intros Hsize.
  pose proof (planChunkSize_is_pow2 size Hsize) as Hpow.
  pose proof (planChunkSize_min size Hsize) as Hmin.
  destruct (planChunkSize_shape size Hsize) as (_ & _ & _ & Hq).
  repeat split; try assumption.
  intros p. now apply planChunkSize_least.
Qed.

Lemma planChunkSize_least_power_of_two_witness :
  is_pow2 (planChunkSize (3 * 10 ^ 10)) /\
  MiB <= planChunkSize (3 * 10 ^ 10) /\
  3 * 10 ^ 10 / max_parts <= planChunkSize (3 * 10 ^ 10) /\
  forall p, is_pow2 p -> MiB <= p -> 3 * 10 ^ 10 / max_parts <= p ->
            planChunkSize (3 * 10 ^ 10) <= p.
Proof.
  apply (planChunkSize_least_power_of_two (3 * 10 ^ 10)).
  split; [lia | vm_compute; reflexivity].
Defined.

(** X3: a larger file never gets a smaller part size. *)
Theorem planChunkSize_monotone (size1 size2 : Z) :
  0 <= size1 -> size1 <= size2 -> size2 < 2 ^ 63 ->
  planChunkSize size1 <= planChunkSize size2.
Proof.
  intros H0 Hle Hmax.
  destruct (planChunkSize_shape size2) as (_ & _ & _ & Hq); [lia|].
  apply planChunkSize_least;
    [lia | apply planChunkSize_is_pow2; lia | apply planChunkSize_min; lia |].
  etransitivity; [|exact Hq]. apply Z.div_le_mono; [unfold max_parts|]; lia.
Qed.

Lemma planChunkSize_monotone_witness :
  planChunkSize (3 * 10 ^ 10) <= planChunkSize (5 * 10 ^ 10).
Proof.
  apply (planChunkSize_monotone (3 * 10 ^ 10) (5 * 10 ^ 10)).
  - lia.
  - lia.
  - vm_compute. reflexivity.
Defined.

(** ** The leaves are the tree hashes of the parts *)

Section PartLeaves.

Variable sha256 : list byte -> list byte.

Lemma pair_adjacent_drop (n : nat) :
  forall level : list (list byte),
    pair_adjacent sha256 (drop (2 * n) level) = drop n (pair_adjacent sha256 level).
Proof.
  induction n as [|n IH]; intros level; [reflexivity|].
  replace (2 * S n)%nat with (S (S (2 * n))) by lia.
  destruct level as [|x [|y rest]]; [reflexivity | now destruct n |].
  cbn [drop pair_adjacent]. apply IH.
Qed.

Lemma pair_adjacent_take (n : nat) :
  forall level : list (list byte),
    pair_adjacent sha256 (take (2 * n) level) = take n (pair_adjacent sha256 level).
Proof.
  induction n as [|n IH]; intros level; [reflexivity|].
  replace (2 * S n)%nat with (S (S (2 * n))) by lia.
  destruct level as [|x [|y rest]]; [reflexivity | now destruct n |].
  cbn [take pair_adjacent]. now rewrite IH.
Qed.

(** Level [j] of a slice of [2^j] nodes is node [k] of level [j]. *)
Lemma tree_level_slice (j : nat) :
  forall (k : nat) (level : list (list byte)),
    tree_level sha256 j (take (2 ^ j) (drop (k * 2 ^ j) level))
    = take 1 (drop k (tree_level sha256 j level)).
Proof.
  induction j as [|j IH]; intros k level.
  - change (2 ^ 0)%nat with 1%nat. now rewrite Nat.mul_1_r.
  - rewrite !tree_level_succ.
    replace (2 ^ S j)%nat with (2 * 2 ^ j)%nat by (cbn; lia).
    replace (k * (2 * 2 ^ j))%nat with (2 * (k * 2 ^ j))%nat by lia.
    now rewrite pair_adjacent_take, pair_adjacent_drop, IH.
Qed.

Lemma tree_root_level (j : nat) (level : list (list byte)) :
  (1 <= length level <= 2 ^ j)%nat ->
  tree_root sha256 level = head (tree_level sha256 j level).
Proof.
  intros Hlen. unfold tree_root.
  assert (H1 : (length (tree_level sha256 (length level) level) <= 1)%nat)
    by (apply tree_level_short; lia).
  assert (H2 : (length (tree_level sha256 j level) <= 1)%nat).
  { pose proof (length_tree_level sha256 j level) as Hl.
    pose proof (Z.pow_pos_nonneg 2 (Z.of_nat j)).
    assert (ceil_div (Z.of_nat (length level)) (2 ^ Z.of_nat j) <= 1); [|lia].
    apply ceil_div_le_iff; [lia|].
    rewrite Z.mul_1_l. pose proof (Nat2Z.inj_pow 2 j) as Hpow.
    change (Z.of_nat 2) with 2 in Hpow. lia. }
  destruct (Nat.le_ge_cases j (length level)) as [Hle | Hge].
  - now rewrite (tree_level_stable sha256 j (length level) level H2 Hle).
  - now rewrite (tree_level_stable sha256 (length level) j level H1 Hge).
Qed.

(** Node [k] of level [j] is the root of the tree over its [2^j] leaves. *)
Lemma tree_level_lookup (j k : nat) (level : list (list byte)) :
  (k * 2 ^ j < length level)%nat ->
  tree_level sha256 j level !! k
  = tree_root sha256 (take (2 ^ j) (drop (k * 2 ^ j) level)).
Proof.
  intros Hk.
  pose proof (Nat.pow_nonzero 2 j) as Hp.
  rewrite (tree_root_level j), tree_level_slice.
  - rewrite head_lookup, lookup_take_lt, lookup_drop by lia.
    f_equal. lia.
  - rewrite length_take, length_drop. lia.
Qed.

(** *** Block digests of aligned slices *)

Lemma block_digests_drop (n : nat) :
  forall content : list byte,
    block_digests sha256 (drop (n * Z.to_nat MiB) content)
    = drop n (block_digests sha256 content).
Proof.
  induction n as [|n IH]; intros content; [reflexivity|].
  destruct content as [|b rest].
  { rewrite drop_nil, block_digests_nil. reflexivity. }
  rewrite (block_digests_cons sha256 (b :: rest)) by congruence.
  replace (S n * Z.to_nat MiB)%nat with (Z.to_nat MiB + n * Z.to_nat MiB)%nat by lia.
  rewrite <- drop_drop, IH. symmetry. apply skipn_cons.
Qed.

Lemma block_digests_take (n : nat) :
  forall content : list byte,
    block_digests sha256 (take (n * Z.to_nat MiB) content)
    = take n (block_digests sha256 content).
Proof.
  pose proof MiB_nat_pos as HB.
  induction n as [|n IH]; intros content.
  { rewrite Nat.mul_0_l, take_0, block_digests_nil. reflexivity. }
  destruct content as [|b rest].
  { rewrite take_nil, block_digests_nil. reflexivity. }
  set (content := b :: rest).
  assert (Hne : take (S n * Z.to_nat MiB) content <> []).
  { intros Hnil. apply (f_equal length) in Hnil. rewrite length_take in Hnil.
    subst content. cbn [length] in Hnil. lia. }
  rewrite (block_digests_cons sha256 _ Hne).
  rewrite (block_digests_cons sha256 content) by (subst content; congruence).
  rewrite firstn_cons, <- IH, take_take.
  replace (Z.to_nat MiB `min` (S n * Z.to_nat MiB))%nat with (Z.to_nat MiB) by lia.
  replace (S n * Z.to_nat MiB)%nat with (Z.to_nat MiB + n * Z.to_nat MiB)%nat by lia.
  rewrite (skipn_firstn_comm (Z.to_nat MiB) (Z.to_nat MiB + n * Z.to_nat MiB)).
  replace (Z.to_nat MiB + n * Z.to_nat MiB - Z.to_nat MiB)%nat
    with (n * Z.to_nat MiB)%nat by lia.
  reflexivity.
Qed.

Lemma to_nat_pow2 (j : nat) : Z.to_nat (2 ^ Z.of_nat j) = (2 ^ j)%nat.
Proof.
  pose proof (Nat2Z.inj_pow 2 j) as Hpow. change (Z.of_nat 2) with 2 in Hpow.
  rewrite <- Hpow. apply Nat2Z.id.
Qed.

(** The 1 MiB digests of part [k] are a slice of those of the file. *)
Lemma tree_leaves_part (content : list byte) (j : nat) (k : Z) :
  0 <= k ->
  k * (MiB * 2 ^ Z.of_nat j) < Z.of_nat (length content) ->
  tree_leaves sha256 (read_at content (k * (MiB * 2 ^ Z.of_nat j)) (MiB * 2 ^ Z.of_nat j))
  = take (2 ^ j) (drop (Z.to_nat k * 2 ^ j) (tree_leaves sha256 content)).
Proof.
  intros Hk Hlt.
  pose proof (Z.pow_pos_nonneg 2 (Z.of_nat j)) as Hp.
  pose proof MiB_eq as HM.
  assert (Hc : Z.to_nat (MiB * 2 ^ Z.of_nat j) = (2 ^ j * Z.to_nat MiB)%nat).
  { rewrite Z2Nat.inj_mul, to_nat_pow2 by lia. lia. }
  assert (Hoff : Z.to_nat (k * (MiB * 2 ^ Z.of_nat j))
                 = (Z.to_nat k * 2 ^ j * Z.to_nat MiB)%nat).
  { rewrite Z2Nat.inj_mul, Hc by lia. lia. }
  unfold read_at. rewrite Hc, Hoff.
  assert (Hcontent : tree_leaves sha256 content = block_digests sha256 content).
  { unfold tree_leaves. destruct content; [cbn [length] in Hlt; nia | reflexivity]. }
  rewrite Hcontent, <- block_digests_drop, <- block_digests_take.
  unfold tree_leaves.
  destruct (take _ (drop _ content)) eqn:E; [|reflexivity].
  apply (f_equal length) in E. rewrite length_take, length_drop in E.
  cbn [length] in E. rewrite <- Hoff, <- Hc in E. lia.
Qed.

(** [hashFile] at the planned part size [1 MiB * 2^j]: the leaves are
    level [j] of the tree. *)
Lemma hashFile_planned_level (fuel : nat) (fs : gmap string (list byte))
    (file : string) (content : list byte) :
  fs !! file = Some content ->
  Z.of_nat (length content) < 2 ^ 63 ->
  (length content < fuel)%nat ->
  exists (j : nat) (hashes : Hashes),
    planChunkSize (Z.of_nat (length content)) = MiB * 2 ^ Z.of_nat j /\
    hashFile sha256 fuel fs file (planChunkSize (Z.of_nat (length content)))
      = Ret (Some hashes) /\
    blocks hashes = tree_level sha256 j (tree_leaves sha256 content).
Proof.
  intros Hfile Hsize Hfuel.
  set (size := Z.of_nat (length content)) in *.
  destruct (hashFile_existing sha256 fuel fs file content (planChunkSize size)
              Hfile Hfuel) as (fin & root & Hrun & Hrec & _).
  destruct (planChunkSize_shape size) as (j & Hc & Hj & _); [lia|].
  exists j, {| blocks := fin; final := root |}.
  split; [exact Hc|]. split; [exact Hrun|]. cbn [blocks].
  rewrite Hc in *.
  apply recurse_final_at in Hrec; [|rewrite MiB_eq; lia].
  cbn [fst app] in Hrec. subst fin.
  pose proof (tree_leaves_length sha256 content) as Hleaves. fold size in Hleaves.
  pose proof (Z.pow_pos_nonneg 2 (Z.of_nat j)) as Hp.
  assert (HM : 0 < MiB) by (rewrite MiB_eq; lia).
  pose proof (ceil_div_le_iff size MiB (2 ^ Z.of_nat j) HM) as Hle.
  replace ((j =? 0)%nat
           || (2 ^ Z.of_nat j <? Z.of_nat (length (tree_leaves sha256 content))))
    with true; [reflexivity|].
  symmetry. apply orb_true_iff. destruct Hj as [-> | Hlt]; [now left|].
  right. apply Z.ltb_lt. rewrite Hleaves. lia.
Qed.

End PartLeaves.

(** X4: at the planned part size [c], the leaf [hashFile] returns for part
    [k] is the tree hash of the bytes of that part, [c] bytes from offset
    [k * c], cut at the end of the file. *)
Theorem hashFile_leaf_is_part_tree_hash
    (sha256 : list byte -> list byte) (fuel : nat) (fs : gmap string (list byte))
    (file : string) (content : list byte) :
  fs !! file = Some content ->
  Z.of_nat (length content) < 2 ^ 63 ->
  (length content < fuel)%nat ->
  exists hashes,
    hashFile sha256 fuel fs file (planChunkSize (Z.of_nat (length content)))
      = Ret (Some hashes) /\
    forall k,
      0 <= k ->
      k * planChunkSize (Z.of_nat (length content)) < Z.of_nat (length content) ->
      py_index (blocks hashes) k
      = tree_root sha256
          (tree_leaves sha256
             (read_at content (k * planChunkSize (Z.of_nat (length content)))
                (planChunkSize (Z.of_nat (length content))))).
Proof.
  intros Hfile Hsize Hfuel.
  destruct (hashFile_planned_level sha256 fuel fs file content Hfile Hsize Hfuel)
    as (j & hashes & Hc & Hrun & Hblocks).
  exists hashes. split; [exact Hrun|]. intros k Hk Hlt.
  rewrite Hc in *. rewrite py_index_nonneg, Hblocks by lia.
  rewrite tree_leaves_part by assumption.
  apply tree_level_lookup.
  pose proof (tree_leaves_length sha256 content) as Hleaves.
  pose proof (Z.pow_pos_nonneg 2 (Z.of_nat j)) as Hp.
  assert (HM : 0 < MiB) by (rewrite MiB_eq; lia).
  pose proof (ceil_div_le_iff (Z.of_nat (length content)) MiB
                (k * 2 ^ Z.of_nat j) HM) as Hle.
  pose proof (Nat2Z.inj_pow 2 j) as Hpow. change (Z.of_nat 2) with 2 in Hpow.
  apply Nat2Z.inj_lt. rewrite Nat2Z.inj_mul, Hpow, Z2Nat.id, Hleaves by lia.
  nia.
Qed.

Lemma hashFile_leaf_is_part_tree_hash_witness :
  exists hashes,
    hashFile sample_digest 4 {[ "a.tar" := [x61; x62; x63] ]} "a.tar"
      (planChunkSize (Z.of_nat (length [x61; x62; x63]))) = Ret (Some hashes) /\
    forall k,
      0 <= k ->
      k * planChunkSize (Z.of_nat (length [x61; x62; x63]))
        < Z.of_nat (length [x61; x62; x63]) ->
      py_index (blocks hashes) k
      = tree_root sample_digest
          (tree_leaves sample_digest
             (read_at [x61; x62; x63]
                (k * planChunkSize (Z.of_nat (length [x61; x62; x63])))
                (planChunkSize (Z.of_nat (length [x61; x62; x63]))))).
Proof.
  apply (hashFile_leaf_is_part_tree_hash sample_digest 4
           {[ "a.tar" := [x61; x62; x63] ]} "a.tar" [x61; x62; x63]).
  - vm_compute. reflexivity.
  - vm_compute. reflexivity.
  - vm_compute. lia.
Defined.

(** ** The retry loop: attempts and waits *)

Section Retry.

Variable aws : nat -> AwsResult.

Lemma part_accepted_frame (hashes : Hashes) (block : Z) (result : option AwsResult)
    (w : World) :
  w_fs (part_accepted hashes block result w).2 = w_fs w /\
  w_calls (part_accepted hashes block result w).2 = w_calls w /\
  w_sleeps (part_accepted hashes block result w).2 = w_sleeps w.
Proof.
  unfold part_accepted.
  destruct result as [r|]; [|now cbn].
  destruct (json r) as [j|]; [|now cbn].
  destruct (j !! "checksum"); [|now cbn].
  destruct (py_index _ _); [|now cbn].
  destruct (bool_decide _); now cbn.
Qed.

(** Whatever the answers, the retry loop leaves the files alone and adds
    to the log only attempts at its own part, at most [retry] of them. *)
Lemma upload_part_frame (config : Config) (hashes : Hashes)
    (uploadId tmpfile : string) (offset chunk block : Z) (retry : nat) :
  forall (w : World) (o : outcome nat) (w' : World),
    upload_part aws retry config hashes uploadId tmpfile offset chunk block w = (o, w') ->
    w_fs w' = w_fs w /\
    exists results : list AwsResult,
      (length results <= retry)%nat /\
      w_calls w'
      = w_calls w
        ++ map (call_of (UploadMultipartPart (glacier_vault config) uploadId tmpfile
                           offset (offset + chunk - 1)) (w_fs w)) results.
Proof.
  induction retry as [|tries IH]; intros w o w' Hrun.
  { injection Hrun as <- <-. split; [reflexivity|].
    exists []. cbn. split; [lia|]. now rewrite app_nil_r. }
  cbn [upload_part] in Hrun. unfold mbind at 1, M_bind in Hrun.
  destruct (glacier_vault config) as [vault|] eqn:Hv.
  2:{ unfold awsCommand in Hrun. rewrite Hv in Hrun. cbn in Hrun.
      injection Hrun as <- <-. cbn. split; [reflexivity|].
      exists []. cbn. split; [lia|]. now rewrite app_nil_r. }
  rewrite (awsCommand_run aws config vault _ w Hv) in Hrun.
  set (r := aws (length (w_calls w))) in *.
  set (w1 := {| w_fs := w_fs w; w_calls := _; w_errors := _; w_sleeps := _ |}) in *.
  unfold mbind at 1, M_bind in Hrun.
  destruct (part_accepted_frame hashes block (Some r) w1) as (Hfs & Hcalls & _).
  assert (Hone : forall w2, w_fs w2 = w_fs w1 -> w_calls w2 = w_calls w1 ->
            w_fs w2 = w_fs w /\
            exists results : list AwsResult,
              (length results <= S tries)%nat /\
              w_calls w2
              = w_calls w
                ++ map (call_of (UploadMultipartPart (Some vault) uploadId tmpfile
                                   offset (offset + chunk - 1)) (w_fs w)) results).
  { intros w2 H1 H2. split; [now rewrite H1|]. exists [r].
    split; [cbn; lia|]. now rewrite H2. }
  destruct (part_accepted hashes block (Some r) w1) as [[[|] | e |] w2];
    cbn [fst snd] in *.
  - injection Hrun as <- <-. now apply Hone.
  - unfold mbind at 1, M_bind in Hrun. cbn [time_sleep] in Hrun.
    set (w3 := {| w_fs := w_fs w2; w_calls := _; w_errors := _; w_sleeps := _ |}) in *.
    destruct (IH w3 o w' Hrun) as (Hfs3 & results & Hlen & Hcalls3).
    split; [rewrite Hfs3; subst w3; cbn; now rewrite Hfs|].
    exists (r :: results). split; [cbn; lia|].
    rewrite Hcalls3. subst w3. cbn [w_calls w_fs]. rewrite Hcalls, Hfs.
    subst w1. cbn [w_calls w_fs map]. now rewrite <- app_assoc.
  - injection Hrun as <- <-. now apply Hone.
  - injection Hrun as <- <-. now apply Hone.
Qed.

(** The waits: after the [i]-th failed attempt of the ten the loop sleeps
    [30 * i] seconds, also after the tenth. *)
Lemma upload_part_sleeps (config : Config) (vault : string) (hashes : Hashes)
    (uploadId tmpfile : string) (offset chunk block : Z) (leaf : list byte) :
  glacier_vault config = Some vault ->
  py_index (blocks hashes) block = Some leaf ->
  forall (retry : nat) (w : World),
  exists (n : nat) (w' : World),
    upload_part aws retry config hashes uploadId tmpfile offset chunk block w
    = (Ret n, w') /\
    (n <= retry)%nat /\
    w_sleeps w'
    = w_sleeps w
      ++ map (fun i => (10 - Z.of_nat retry + Z.of_nat i) * 30) (seq 1 (retry - n)) /\
    length (w_calls w')
    = (length (w_calls w) + (retry - n) + (if (n =? 0)%nat then 0 else 1))%nat.
Proof.
  intros Hv Hleaf. induction retry as [|tries IH]; intros w.
  { exists 0%nat, w. cbn. rewrite app_nil_r. repeat split; lia. }
  cbn [upload_part]. unfold mbind at 1, M_bind.
  rewrite (awsCommand_run aws config vault _ w Hv).
  set (r := aws (length (w_calls w))).
  set (w1 := {| w_fs := w_fs w; w_calls := _; w_errors := _; w_sleeps := _ |}).
  unfold mbind at 1, M_bind.
  destruct (part_accepted_run hashes block leaf r w1 Hleaf) as (w2 & Hacc & _ & Hcalls2).
  destruct (part_accepted_frame hashes block (Some r) w1) as (_ & _ & Hsleeps2).
  rewrite Hacc in Hsleeps2 |- *. cbn [snd] in Hsleeps2.
  assert (Hlen1 : length (w_calls w2) = S (length (w_calls w))).
  { rewrite Hcalls2. subst w1. cbn [w_calls]. rewrite length_app. cbn. lia. }
  destruct (attempt_failed (Some leaf) r); cbn [negb].
  - unfold mbind at 1, M_bind. cbn [time_sleep].
    set (w3 := {| w_fs := w_fs w2; w_calls := _; w_errors := _; w_sleeps := _ |}).
    destruct (IH w3) as (n & w' & Hrun & Hn & Hsleeps & Hlen).
    exists n, w'. split; [exact Hrun|]. split; [lia|]. split.
    + rewrite Hsleeps. subst w3. cbn [w_sleeps]. rewrite Hsleeps2.
      subst w1. cbn [w_sleeps]. rewrite <- app_assoc. f_equal.
      replace (S tries - n)%nat with (S (tries - n)) by lia.
      cbn [seq map app]. f_equal; [lia|].
      rewrite <- (seq_shift (tries - n) 1), map_map. apply map_ext. intros i. lia.
    + rewrite Hlen. subst w3. cbn [w_calls]. rewrite Hlen1. lia.
  - exists (S tries), w2. split; [reflexivity|]. split; [lia|]. split.
    + rewrite Nat.sub_diag. cbn [seq map]. rewrite app_nil_r.
      rewrite Hsleeps2. reflexivity.
    + rewrite Hlen1. cbn. lia.
Qed.

End Retry.

(** X5: the retry loop of a part makes at most ten attempts and, after the
    [i]-th failed one, waits [30 * i] seconds before going on, the tenth
    included: the waits are 30, 60, ... for as many attempts as failed. *)
Theorem upload_part_backoff (aws : nat -> AwsResult) (config : Config) (vault : string)
    (hashes : Hashes) (uploadId tmpfile : string) (offset chunk block : Z)
    (leaf : list byte) (w : World) :
  glacier_vault config = Some vault ->
  py_index (blocks hashes) block = Some leaf ->
  exists (n : nat) (w' : World),
    upload_part aws 10 config hashes uploadId tmpfile offset chunk block w
    = (Ret n, w') /\
    (n <= 10)%nat /\
    w_sleeps w' = w_sleeps w ++ backoff (10 - n) /\
    length (w_calls w')
    = (length (w_calls w) + (10 - n) + (if (n =? 0)%nat then 0 else 1))%nat.
Proof.
  intros Hv Hleaf.
  destruct (upload_part_sleeps aws config vault hashes uploadId tmpfile offset chunk
              block leaf Hv Hleaf 10 w) as (n & w' & Hrun & Hn & Hsleeps & Hlen).
  exists n, w'. split; [exact Hrun|]. split; [exact Hn|]. split; [|exact Hlen].
  rewrite Hsleeps. f_equal. unfold backoff. apply map_ext. intros i. lia.
Qed.

Lemma upload_part_backoff_witness :
  exists (n : nat) (w' : World),
    upload_part sample_aws_mismatch 10 sample_config sample_hashes "upload-1"
      "/tmp/stage" 0 3 0 sample_world = (Ret n, w') /\
    (n <= 10)%nat /\
    w_sleeps w' = w_sleeps sample_world ++ backoff (10 - n) /\
    length (w_calls w')
    = (length (w_calls sample_world) + (10 - n) + (if (n =? 0)%nat then 0 else 1))%nat.
Proof.
  apply (upload_part_backoff sample_aws_mismatch sample_config "vault" sample_hashes
           "upload-1" "/tmp/stage" 0 3 0 (sample_digest [x61; x62; x63]) sample_world).
  - reflexivity.
  - reflexivity.
Defined.

(** ** The log and the files of a run, whatever the transport answers *)

Lemma planChunkSize_pos (size : Z) : 0 < planChunkSize size.
Proof.
  unfold planChunkSize. destruct (size / max_parts <=? MiB) eqn:E.
  - rewrite MiB_eq. lia.
  - apply Z.leb_gt in E. set (f := ceil_div (size / max_parts) MiB).
    assert (Hf : 1 <= f).
    { subst f. unfold ceil_div. rewrite MiB_eq in *. apply Z.div_le_lower_bound; lia. }
    unfold round_pow2, or_shr.
    assert (Hnn : forall x k, 0 <= x -> 0 <= Z.lor x (Z.shiftr x k)).
    { intros x k Hx. apply Z.lor_nonneg. split; [exact Hx|]. now apply Z.shiftr_nonneg. }
    assert (H0 : 0 <= MiB * f - 1) by (rewrite MiB_eq; lia).
    pose proof (Hnn _ 1 H0) as H1. pose proof (Hnn _ 2 H1) as H2.
    pose proof (Hnn _ 4 H2) as H4. pose proof (Hnn _ 8 H4) as H8.
    pose proof (Hnn _ 16 H8) as H16. cbn zeta. lia.
Qed.

Lemma same_but_refl (tmpfile : string) (fs : gmap string (list byte)) :
  same_but tmpfile fs fs.
Proof. intros path _. reflexivity. Qed.

Lemma same_but_trans (tmpfile : string) (fs1 fs2 fs3 : gmap string (list byte)) :
  same_but tmpfile fs1 fs2 -> same_but tmpfile fs2 fs3 -> same_but tmpfile fs1 fs3.
Proof. intros H12 H23 path Hne. now rewrite H23, H12. Qed.

Lemma extractChunk_frame (file tmp : string) (offset size : Z) (w : World) :
  same_but tmp (w_fs w) (w_fs (extractChunk file tmp offset size w).2) /\
  w_calls (extractChunk file tmp offset size w).2 = w_calls w.
Proof.
  unfold extractChunk.
  destruct (w_fs w !! file); [|split; [apply same_but_refl | reflexivity]].
  destruct (offset <? 0); [split; [apply same_but_refl | reflexivity]|].
  destruct (size <? -1); cbn [snd set_fs w_fs w_calls]; (split; [|reflexivity]);
    intros path Hne; now rewrite !lookup_insert_ne by congruence.
Qed.

Section Log.

Variable aws : nat -> AwsResult.
Variable isatty : bool.

(** What the transfer loop does to the world, however it ends: it writes
    no file but the staging file, and every call it makes uploads a part,
    aligned and inside the file, at or after [offset], in ascending order. *)
Lemma transfer_log (config : Config) (hashes : Hashes)
    (file tmpfile uploadId : string) (size chunkSize bytesDone bytesTotal : Z) :
  0 < chunkSize ->
  forall (fuel : nat) (remain offset block : Z) (w : World) (o : outcome flow)
         (w' : World),
    0 <= block ->
    remain = size - offset ->
    (0 < remain -> offset = block * chunkSize) ->
    transfer aws isatty fuel config hashes file tmpfile uploadId size chunkSize
      bytesDone bytesTotal remain offset block w = (o, w') ->
    same_but tmpfile (w_fs w) (w_fs w') /\
    exists parts : list Call,
      w_calls w' = w_calls w ++ parts /\
      Forall (part_call (glacier_vault config) uploadId tmpfile size chunkSize) parts /\
      Forall (fun c => offset <= part_first c) parts /\
      StronglySorted (fun a b => part_first a <= part_first b) parts.
Proof.
  intros Hc.
  assert (Hnone : forall (w : World) (offset : Z),
            same_but tmpfile (w_fs w) (w_fs w) /\
            exists parts : list Call,
              w_calls w = w_calls w ++ parts /\
              Forall (part_call (glacier_vault config) uploadId tmpfile size chunkSize)
                parts /\
              Forall (fun c => offset <= part_first c) parts /\
              StronglySorted (fun a b => part_first a <= part_first b) parts).
  { intros w offset. split; [apply same_but_refl|]. exists [].
    rewrite app_nil_r. repeat split; constructor. }
  induction fuel as [|fuel IH]; intros remain offset block w o w' Hblock Hremain Hinv Hrun;
    cbn [transfer] in Hrun; destruct (0 <? remain) eqn:Hpos;
    try (injection Hrun as <- <-; apply Hnone).
  apply Z.ltb_lt in Hpos. specialize (Hinv Hpos).
  set (chunk := if chunkSize <? remain then chunkSize else remain) in *.
  unfold mbind at 1, M_bind in Hrun.
  destruct (extractChunk_frame file tmpfile offset chunkSize w) as [Hfs1 Hcalls1].
  destruct (extractChunk file tmpfile offset chunkSize w) as [[extracted | e |] w1];
    cbn [fst snd] in Hfs1, Hcalls1.
  2,3: injection Hrun as <- <-; split; [exact Hfs1|]; exists [];
       rewrite app_nil_r; repeat split; [exact Hcalls1 | constructor..].
  destruct extracted; cbn [negb] in Hrun.
  2:{ injection Hrun as <- <-. cbn [w_fs w_calls]. split; [exact Hfs1|]. exists [].
      rewrite app_nil_r. repeat split; [exact Hcalls1 | constructor..]. }
  unfold mbind at 1, M_bind in Hrun.
  destruct (upload_part aws 10 config hashes uploadId tmpfile offset chunk block w1)
    as [o2 w2] eqn:Hup.
  destruct (upload_part_frame aws config hashes uploadId tmpfile offset chunk block 10
              w1 o2 w2 Hup) as (Hfs2 & results & _ & Hcalls2).
  set (attempts := map (call_of (UploadMultipartPart (glacier_vault config) uploadId
                                   tmpfile offset (offset + chunk - 1)) (w_fs w1))
                       results) in *.
  assert (Hattempts : Forall (fun c => part_call (glacier_vault config) uploadId tmpfile
                                         size chunkSize c /\ part_first c = offset)
                             attempts).
  { apply Forall_forall. intros c Hin. apply list_elem_of_fmap in Hin.
    destruct Hin as (r & -> & _). split; [|reflexivity].
    exists block. split; [lia|]. split; [lia|]. cbn [call_of c_cmd].
    f_equal; [lia|]. subst chunk.
    destruct (chunkSize <? remain) eqn:E;
      [apply Z.ltb_lt in E | apply Z.ltb_ge in E]; lia. }
  assert (Hsame : same_but tmpfile (w_fs w) (w_fs w2)).
  { intros path Hne. rewrite Hfs2. now apply Hfs1. }
  assert (Hsorted : StronglySorted (fun a b => part_first a <= part_first b) attempts).
  { clear -Hattempts. induction Hattempts as [|c rest [_ Hc] Hrest IH]; constructor.
    - exact IH.
    - eapply Forall_impl; [exact Hrest|]. intros c' [_ Hc']. cbn beta. lia. }
  assert (Hstop : same_but tmpfile (w_fs w) (w_fs w2) /\
            exists parts : list Call,
              w_calls w2 = w_calls w ++ parts /\
              Forall (part_call (glacier_vault config) uploadId tmpfile size chunkSize)
                parts /\
              Forall (fun c => offset <= part_first c) parts /\
              StronglySorted (fun a b => part_first a <= part_first b) parts).
  { split; [exact Hsame|]. exists attempts.
    split; [now rewrite Hcalls2, Hcalls1|].
    split; [eapply Forall_impl; [exact Hattempts|]; now intros c [? _]|].
    split; [eapply Forall_impl; [exact Hattempts|]; intros c [_ ->]; lia|].
    exact Hsorted. }
  destruct o2 as [n | e |].
  - destruct (n =? 0)%nat.
    { injection Hrun as <- <-. exact Hstop. }
    unfold mbind at 1, M_bind in Hrun.
    destruct (progress_run isatty [size; bytesTotal] w2) as [Hp | Hp]; rewrite Hp in Hrun;
      [|injection Hrun as <- <-; exact Hstop].
    assert (Hchunk : 0 < chunk /\ (0 < remain - chunk -> chunk = chunkSize)).
    { subst chunk. destruct (chunkSize <? remain) eqn:E;
        [apply Z.ltb_lt in E | apply Z.ltb_ge in E]; lia. }
    destruct (IH (remain - chunk) (offset + chunk) (block + 1) w2 o w')
      as (Hfs3 & later & Hcalls3 & Hparts3 & Hfrom3 & Hsorted3);
      [lia | lia | intros Hmore; destruct Hchunk as [_ Heq]; specialize (Heq Hmore); lia | exact Hrun |].
    split; [now apply (same_but_trans tmpfile _ (w_fs w2))|].
    exists (attempts ++ later).
    split; [rewrite Hcalls3, Hcalls2, Hcalls1; now rewrite <- app_assoc|].
    split.
    { apply Forall_app. split; [|exact Hparts3].
      eapply Forall_impl; [exact Hattempts|]. now intros c [? _]. }
    split.
    { apply Forall_app. split.
      - eapply Forall_impl; [exact Hattempts|]. intros c [_ ->]. lia.
      - eapply Forall_impl; [exact Hfrom3|]. intros c Hle. cbn beta in *. lia. }
    apply StronglySorted_app_2; [| exact Hsorted | exact Hsorted3].
    intros c1 c2 Hin1 Hin2.
    rewrite Forall_forall in Hattempts, Hfrom3.
    destruct (Hattempts c1 Hin1) as [_ ->]. specialize (Hfrom3 c2 Hin2). cbn beta in *. lia.
  - injection Hrun as <- <-. exact Hstop.
  - injection Hrun as <- <-. exact Hstop.
Qed.

(** The remote part of [uploadFile]: without a vault nothing is run; with
    one, the log grows as [upload_log] says. *)
Lemma upload_hashed_log (fuel : nat) (config : Config) (file tmpfile name : string)
    (size chunkSize : Z) (hashes : Hashes) (bytesDone bytesTotal : Z) (w : World) :
  0 < chunkSize ->
  same_but tmpfile (w_fs w)
    (w_fs (upload_hashed aws isatty fuel config file tmpfile name size chunkSize
             hashes bytesDone bytesTotal w).2) /\
  ((glacier_vault config = None /\
    w_calls (upload_hashed aws isatty fuel config file tmpfile name size chunkSize
               hashes bytesDone bytesTotal w).2 = w_calls w /\
    (upload_hashed aws isatty fuel config file tmpfile name size chunkSize
       hashes bytesDone bytesTotal w).1 = Ret false) \/
   exists new : list Call,
     w_calls (upload_hashed aws isatty fuel config file tmpfile name size chunkSize
                hashes bytesDone bytesTotal w).2 = w_calls w ++ new /\
     upload_log config name tmpfile size chunkSize (hexdigest (final hashes)) (w_fs w)
       new
       (upload_hashed aws isatty fuel config file tmpfile name size chunkSize
          hashes bytesDone bytesTotal w).1).
Proof.
  intros Hc.
  remember (upload_hashed aws isatty fuel config file tmpfile name size chunkSize
              hashes bytesDone bytesTotal w) as run eqn:Hrun.
  unfold upload_hashed in Hrun.
  destruct (glacier_vault config) as [vault|] eqn:Hv.
  2:{ unfold awsCommand in Hrun. rewrite Hv in Hrun. subst run. cbn.
      split; [apply same_but_refl|]. left. auto. }
  unfold mbind at 1, M_bind in Hrun.
  rewrite (awsCommand_run aws config vault _ w Hv) in Hrun.
  set (r := aws (length (w_calls w))) in *.
  set (init := call_of (InitiateMultipartUpload (Some vault) name chunkSize) (w_fs w) r)
    in *.
  set (w1 := {| w_fs := w_fs w; w_calls := w_calls w ++ [init];
                w_errors := w_errors w; w_sleeps := w_sleeps w |}) in *.
  assert (Hearly : w_fs run.2 = w_fs w -> w_calls run.2 = w_calls w1 ->
            run.1 <> Ret true ->
            same_but tmpfile (w_fs w) (w_fs run.2) /\
            ((Some vault = None /\ w_calls run.2 = w_calls w /\ run.1 = Ret false) \/
             exists new : list Call,
               w_calls run.2 = w_calls w ++ new /\
               upload_log config name tmpfile size chunkSize (hexdigest (final hashes))
                 (w_fs w) new run.1)).
  { intros Hfs Hcalls Ho. split; [rewrite Hfs; apply same_but_refl|]. right.
    exists [init]. split; [exact Hcalls|].
    exists init, [], []. rewrite Hv. repeat split; auto. }
  unfold mbind at 1, M_bind in Hrun.
  destruct (code r =? 0) eqn:Hcode; cbn [negb] in Hrun.
  2:{ apply Hearly; subst run; [reflexivity | reflexivity | discriminate]. }
  destruct (json r) as [j|] eqn:Hjson.
  2:{ apply Hearly; subst run; [reflexivity | reflexivity | discriminate]. }
  cbn [mret M_ret] in Hrun.
  destruct (j !! "uploadId") as [uploadId|] eqn:Hid.
  2:{ apply Hearly; subst run; [reflexivity | reflexivity | discriminate]. }
  unfold mbind at 1, M_bind in Hrun.
  destruct (progress_run isatty [bytesTotal] w1) as [Hp | Hp]; rewrite Hp in Hrun.
  2:{ apply Hearly; subst run; [reflexivity | reflexivity | discriminate]. }
  clear Hearly.
  unfold mbind at 1, M_bind in Hrun.
  pose proof (transfer_result aws isatty config hashes file tmpfile uploadId size
                chunkSize bytesDone bytesTotal fuel size 0 0 w1) as Hres.
  destruct (transfer aws isatty fuel config hashes file tmpfile uploadId size chunkSize
              bytesDone bytesTotal size 0 0 w1) as [o wt] eqn:Htr.
  destruct (transfer_log config hashes file tmpfile uploadId size chunkSize bytesDone
              bytesTotal Hc fuel size 0 0 w1 o wt) as (Hfs & parts & Hcalls & Hparts & _ & Hsorted);
    [lia | lia | lia | exact Htr |].
  cbn [fst] in Hres. rewrite Hv in Hparts.
  assert (Hcalls1 : w_calls wt = w_calls w ++ init :: parts).
  { rewrite Hcalls. subst w1. cbn [w_calls]. now rewrite <- app_assoc. }
  apply Z.eqb_eq in Hcode.
  assert (Hshape : forall (tail : list Call) (o' : outcome bool),
            ((tail = [] /\ o' <> Ret true) \/
             exists commit : Call,
               tail = [commit] /\
               c_cmd commit
               = CompleteMultipartUpload (Some vault) uploadId (hexdigest (final hashes))
                   size /\
               o' = Ret (code (c_result commit) =? 0)) ->
            upload_log config name tmpfile size chunkSize (hexdigest (final hashes))
              (w_fs w) (init :: parts ++ tail) o').
  { intros tail o' Htail. exists init, parts, tail. rewrite Hv.
    split; [reflexivity|]. split; [reflexivity|]. split; [reflexivity|]. right.
    exists j, uploadId.
    split; [exact Hcode|]. split; [exact Hjson|]. split; [exact Hid|].
    split; [exact Hparts|]. split; [exact Hsorted|]. exact Htail. }
  destruct o as [[|b] | e |]; cbn [fst snd] in Hrun.
  - (* every part was sent: commit *)
    unfold mbind at 1, M_bind in Hrun.
    rewrite (awsCommand_run aws config vault _ wt Hv) in Hrun.
    set (r' := aws (length (w_calls wt))) in *.
    set (commit := call_of (CompleteMultipartUpload (Some vault) uploadId
                              (hexdigest (final hashes)) size) (w_fs wt) r') in *.
    assert (Hfinal : forall run' : outcome bool * World,
              w_fs run'.2 = w_fs wt -> w_calls run'.2 = w_calls wt ++ [commit] ->
              run'.1 = Ret (code r' =? 0) ->
              same_but tmpfile (w_fs w) (w_fs run'.2) /\
              ((Some vault = None /\ w_calls run'.2 = w_calls w /\ run'.1 = Ret false) \/
               exists new : list Call,
                 w_calls run'.2 = w_calls w ++ new /\
                 upload_log config name tmpfile size chunkSize
                   (hexdigest (final hashes)) (w_fs w) new run'.1)).
    { intros run' Hfs' Hcalls' Ho'. split; [rewrite Hfs'; exact Hfs|]. right.
      exists (init :: parts ++ [commit]).
      split; [rewrite Hcalls', Hcalls1; now rewrite <- app_assoc|].
      apply Hshape. right. exists commit. auto. }
    subst run. destruct (code r' =? 0) eqn:Hcode'; apply Hfinal; cbn; auto.
  - specialize (Hres b eq_refl). subst b. subst run. cbn [fst snd mret M_ret].
    split; [exact Hfs|]. right. exists (init :: parts ++ []).
    split; [now rewrite app_nil_r|]. apply Hshape. left. split; [reflexivity | discriminate].
  - subst run. cbn [fst snd].
    split; [exact Hfs|]. right. exists (init :: parts ++ []).
    split; [now rewrite app_nil_r|]. apply Hshape. left. split; [reflexivity | discriminate].
  - subst run. cbn [fst snd].
    split; [exact Hfs|]. right. exists (init :: parts ++ []).
    split; [now rewrite app_nil_r|]. apply Hshape. left. split; [reflexivity | discriminate].
Qed.

End Log.

Section UploadLog.

Variable sha256 : list byte -> list byte.
Variable aws : nat -> AwsResult.
Variable isatty : bool.

(** [uploadFile] on an existing file, by what [hashFile] gives. *)
Lemma uploadFile_unhashed (fuel : nat) (config : Config) (prefix file tmpfile : string)
    (bytesDone bytesTotal : Z) (withPath : bool) (w : World) (content : list byte) :
  w_fs w !! file = Some content ->
  uploadFile sha256 aws isatty fuel config prefix file tmpfile bytesDone bytesTotal
    withPath w
  = match hashFile sha256 fuel (w_fs w) file (planChunkSize (Z.of_nat (length content)))
    with
    | Ret (Some hashes) =>
        upload_hashed aws isatty fuel config file tmpfile
          (if withPath then file else os_path_basename file)
          (Z.of_nat (length content)) (planChunkSize (Z.of_nat (length content)))
          hashes bytesDone bytesTotal w
    | Ret None => (Ret false, (logging_error "Unable to hash file %s" w).2)
    | Raise e => (Raise e, w)
    | OutOfFuel => (OutOfFuel, w)
    end.
Proof.
  intros Hfile. unfold uploadFile.
  unfold mbind at 1, M_bind. unfold os_path_exists.
  rewrite bool_decide_eq_true_2 by (rewrite Hfile; eauto). cbn [negb].
  unfold mbind at 1, M_bind. unfold os_path_getsize. rewrite Hfile.
  unfold mbind at 1, M_bind.
  destruct (hashFile _ _ _ _ _) as [[hashes|] | e |]; reflexivity.
Qed.

(** [uploadFile] as a whole: it either runs nothing and fails, or hashes
    the file and adds an [upload_log] whose part size is the planned one and
    whose checksum is the root [hashFile] returned. *)
Lemma uploadFile_log (fuel : nat) (config : Config) (prefix file tmpfile : string)
    (bytesDone bytesTotal : Z) (withPath : bool) (w : World) :
  same_but tmpfile (w_fs w)
    (w_fs (uploadFile sha256 aws isatty fuel config prefix file tmpfile bytesDone
             bytesTotal withPath w).2) /\
  ((w_calls (uploadFile sha256 aws isatty fuel config prefix file tmpfile bytesDone
               bytesTotal withPath w).2 = w_calls w /\
    (uploadFile sha256 aws isatty fuel config prefix file tmpfile bytesDone
       bytesTotal withPath w).1 <> Ret true) \/
   exists (content : list byte) (hashes : Hashes) (new : list Call),
     w_fs w !! file = Some content /\
     hashFile sha256 fuel (w_fs w) file (planChunkSize (Z.of_nat (length content)))
     = Ret (Some hashes) /\
     w_calls (uploadFile sha256 aws isatty fuel config prefix file tmpfile bytesDone
                bytesTotal withPath w).2 = w_calls w ++ new /\
     upload_log config (if withPath then file else os_path_basename file) tmpfile
       (Z.of_nat (length content)) (planChunkSize (Z.of_nat (length content)))
       (hexdigest (final hashes)) (w_fs w) new
       (uploadFile sha256 aws isatty fuel config prefix file tmpfile bytesDone
          bytesTotal withPath w).1).
Proof.
  destruct (w_fs w !! file) as [content|] eqn:Hfile.
  2:{ unfold uploadFile, mbind, M_bind, os_path_exists. rewrite Hfile.
      rewrite bool_decide_eq_false_2 by (intros [? ?]; discriminate).
      cbn. split; [apply same_but_refl|]. left. split; [reflexivity | discriminate]. }
  destruct (hashFile sha256 fuel (w_fs w) file (planChunkSize (Z.of_nat (length content))))
    as [[hashes|] | e |] eqn:Hhash.
  - rewrite (uploadFile_existing sha256 aws isatty fuel config prefix file tmpfile
               bytesDone bytesTotal withPath w content hashes Hfile Hhash).
    destruct (upload_hashed_log aws isatty fuel config file tmpfile
                (if withPath then file else os_path_basename file)
                (Z.of_nat (length content)) (planChunkSize (Z.of_nat (length content)))
                hashes bytesDone bytesTotal w (planChunkSize_pos _))
      as [Hfs [(_ & Hcalls & Hres) | (new & Hcalls & Hlog)]].
    + split; [exact Hfs|]. left. split; [exact Hcalls|]. rewrite Hres. discriminate.
    + split; [exact Hfs|]. right. exists content, hashes, new. auto.
  - split; [|left]; rewrite (uploadFile_unhashed fuel config prefix file tmpfile
                                  bytesDone bytesTotal withPath w content Hfile);
      rewrite Hhash; cbn; [apply same_but_refl | split; [reflexivity | discriminate]].
  - split; [|left]; rewrite (uploadFile_unhashed fuel config prefix file tmpfile
                                  bytesDone bytesTotal withPath w content Hfile);
      rewrite Hhash; cbn; [apply same_but_refl | split; [reflexivity | discriminate]].
  - split; [|left]; rewrite (uploadFile_unhashed fuel config prefix file tmpfile
                                  bytesDone bytesTotal withPath w content Hfile);
      rewrite Hhash; cbn; [apply same_but_refl | split; [reflexivity | discriminate]].
Qed.

End UploadLog.

Lemma part_call_is_part vault uploadId body size chunkSize (c : Call) :
  part_call vault uploadId body size chunkSize c ->
  is_part c = true /\ is_commit c = false.
Proof. intros (k & _ & _ & Hcmd). unfold is_part, is_commit. now rewrite Hcmd. Qed.

Lemma filter_true {A : Type} (f : A -> bool) (l : list A) :
  Forall (fun x => f x = true) l -> List.filter f l = l.
Proof.
  induction 1 as [|x l Hx _ IH]; [reflexivity|]. cbn. now rewrite Hx, IH.
Qed.

Lemma filter_false {A : Type} (f : A -> bool) (l : list A) :
  Forall (fun x => f x = false) l -> List.filter f l = [].
Proof.
  induction 1 as [|x l Hx _ IH]; [reflexivity|]. cbn. now rewrite Hx, IH.
Qed.

(** In a list whose only commit is its last element, a commit has nothing
    after it. *)
Lemma commit_is_last (l : list Call) (commit : Call) :
  Forall (fun c => is_commit c = false) l ->
  forall (pre : list Call) (c : Call) (post : list Call),
    l ++ [commit] = pre ++ c :: post -> is_commit c = true ->
    post = [] /\ c = commit.
Proof.
  induction 1 as [|x l Hx _ IH]; intros pre c post Heq Hc.
  - destruct pre as [|p pre]; cbn in Heq.
    + injection Heq as <- <-. auto.
    + injection Heq as _ Heq. destruct pre; discriminate.
  - destruct pre as [|p pre]; cbn in Heq.
    + injection Heq as <- _. congruence.
    + injection Heq as _ Heq. now apply (IH pre).
Qed.

(** The calls of an upload that are part uploads. *)
Lemma upload_log_parts config name tmpfile size chunkSize checksum fs new result :
  upload_log config name tmpfile size chunkSize checksum fs new result ->
  StronglySorted (fun a b => part_first a <= part_first b) (List.filter is_part new) /\
  forall c, c ∈ new -> is_part c = true ->
    exists init j uploadId,
      head new = Some init /\
      json (c_result init) = Some j /\
      j !! "uploadId" = Some uploadId /\
      part_call (glacier_vault config) uploadId tmpfile size chunkSize c.
Proof.
  intros (init & parts & tail & -> & Hinit & _ & Hcases).
  assert (Hi : is_part init = false) by (unfold is_part; now rewrite Hinit).
  destruct Hcases as [(-> & -> & _) | (j & uploadId & _ & Hjson & Hid & Hparts & Hsorted & Htail)].
  - cbn. rewrite Hi. split; [constructor|].
    intros c Hin Hc. apply list_elem_of_singleton in Hin. congruence.
  - assert (Hall : Forall (fun c => is_part c = true) parts).
    { eapply Forall_impl; [exact Hparts|]. intros c Hc. now apply part_call_is_part in Hc. }
    assert (Htl : Forall (fun c => is_part c = false) tail).
    { destruct Htail as [(-> & _) | (commit & -> & Hcmd & _)]; repeat constructor.
      unfold is_part. now rewrite Hcmd. }
    split.
    + cbn [List.filter]. rewrite Hi, List.filter_app, (filter_true _ _ Hall),
        (filter_false _ _ Htl), app_nil_r. exact Hsorted.
    + intros c Hin Hc. exists init, j, uploadId.
      split; [reflexivity|]. split; [exact Hjson|]. split; [exact Hid|].
      apply elem_of_cons in Hin. destruct Hin as [-> | Hin]; [congruence|].
      apply elem_of_app in Hin. destruct Hin as [Hin | Hin].
      * rewrite Forall_forall in Hparts. now apply Hparts.
      * rewrite Forall_forall in Htl. specialize (Htl c Hin). congruence.
Qed.

(** The commit of an upload. *)
Lemma upload_log_commit config name tmpfile size chunkSize checksum fs new result :
  upload_log config name tmpfile size chunkSize checksum fs new result ->
  (forall pre c post,
     new = pre ++ c :: post -> is_commit c = true ->
     post = [] /\
     (exists uploadId,
        c_cmd c = CompleteMultipartUpload (glacier_vault config) uploadId checksum size) /\
     result = Ret (code (c_result c) =? 0)) /\
  (result = Ret true ->
   exists c, last new = Some c /\ is_commit c = true /\ code (c_result c) = 0).
Proof.
  intros (init & parts & tail & -> & Hinit & _ & Hcases).
  assert (Hi : is_commit init = false) by (unfold is_commit; now rewrite Hinit).
  assert (Hnone : forall l : list Call,
            Forall (fun c => is_commit c = false) l ->
            forall pre c post, l = pre ++ c :: post -> is_commit c = true -> False).
  { intros l Hl pre c post -> Hc. rewrite Forall_forall in Hl.
    rewrite (Hl c) in Hc; [discriminate|]. apply elem_of_app. right. left. }
  destruct Hcases as [(-> & -> & Hres) | (j & uploadId & _ & _ & _ & Hparts & _ & Htail)].
  - split; [|congruence]. intros pre c post Heq Hc. exfalso.
    apply (Hnone [init] ltac:(now repeat constructor) pre c post Heq Hc).
  - assert (Hall : Forall (fun c => is_commit c = false) (init :: parts)).
    { constructor; [exact Hi|]. eapply Forall_impl; [exact Hparts|].
      intros c Hc. now apply part_call_is_part in Hc. }
    destruct Htail as [(-> & Hres) | (commit & -> & Hcmd & Hres)].
    + split; [|congruence]. intros pre c post Heq Hc. exfalso.
      rewrite app_nil_r in Heq. now apply (Hnone (init :: parts) Hall pre c post).
    + split.
      * intros pre c post Heq Hc.
        destruct (commit_is_last (init :: parts) commit Hall pre c post Heq Hc)
          as [-> ->].
        split; [reflexivity|]. split; [now exists uploadId | exact Hres].
      * intros Htrue. exists commit. rewrite app_comm_cons, last_snoc.
        split; [reflexivity|]. split; [unfold is_commit; now rewrite Hcmd|].
        rewrite Hres in Htrue. injection Htrue as Htrue. now apply Z.eqb_eq.
Qed.

(** X6: whatever the tool answers, every part upload of a run of
    [uploadFile] sends, from the staging file, the bytes from a multiple of
    the planned part size up to the end of that part or of the file, under
    the upload id the initiate call returned; and the part uploads appear in
    the log in ascending order of their first byte. *)
Theorem uploadFile_parts_aligned_in_order
    (sha256 : list byte -> list byte) (aws : nat -> AwsResult) (isatty : bool)
    (fuel : nat) (config : Config) (prefix file tmpfile : string)
    (bytesDone bytesTotal : Z) (withPath : bool) (w : World) (content : list byte) :
  w_fs w !! file = Some content ->
  exists new : list Call,
    w_calls (uploadFile sha256 aws isatty fuel config prefix file tmpfile bytesDone
               bytesTotal withPath w).2 = w_calls w ++ new /\
    StronglySorted (fun a b => part_first a <= part_first b) (List.filter is_part new) /\
    forall c, c ∈ new -> is_part c = true ->
      exists init j uploadId,
        head new = Some init /\
        json (c_result init) = Some j /\
        j !! "uploadId" = Some uploadId /\
        part_call (glacier_vault config) uploadId tmpfile (Z.of_nat (length content))
          (planChunkSize (Z.of_nat (length content))) c.
Proof.
  intros Hfile.
  destruct (uploadFile_log sha256 aws isatty fuel config prefix file tmpfile bytesDone
              bytesTotal withPath w)
    as [_ [(Hcalls & _) | (content' & hashes & new & Hfile' & _ & Hcalls & Hlog)]].
  - exists []. rewrite app_nil_r. split; [exact Hcalls|]. split; [constructor|].
    intros c Hin. inversion Hin.
  - rewrite Hfile in Hfile'. injection Hfile' as <-.
    exists new. split; [exact Hcalls|]. exact (upload_log_parts _ _ _ _ _ _ _ _ _ Hlog).
Qed.

Lemma uploadFile_parts_aligned_in_order_witness :
  exists new : list Call,
    w_calls (uploadFile sample_digest sample_aws_match false 4 sample_config "1/1 "
               "/prep/a.tar" "/tmp/stage" 0 3 false sample_world).2
    = w_calls sample_world ++ new /\
    StronglySorted (fun a b => part_first a <= part_first b) (List.filter is_part new) /\
    forall c, c ∈ new -> is_part c = true ->
      exists init j uploadId,
        head new = Some init /\
        json (c_result init) = Some j /\
        j !! "uploadId" = Some uploadId /\
        part_call (glacier_vault sample_config) uploadId "/tmp/stage"
          (Z.of_nat (length [x61; x62; x63]))
          (planChunkSize (Z.of_nat (length [x61; x62; x63]))) c.
Proof.
  apply (uploadFile_parts_aligned_in_order sample_digest sample_aws_match false 4
           sample_config "1/1 " "/prep/a.tar" "/tmp/stage" 0 3 false sample_world
           [x61; x62; x63]).
  reflexivity.
Defined.

(** X7: a run of [uploadFile] commits at most once and only as its last
    call; the commit carries the hex digest of the tree hash of the file and
    the size of the file; the run returns [True] exactly when that call
    exits with code 0, so a run that returns [True] ends with a commit that
    exited with code 0. *)
Theorem uploadFile_commit_last_with_tree_hash
    (sha256 : list byte -> list byte) (aws : nat -> AwsResult) (isatty : bool)
    (fuel : nat) (config : Config) (prefix file tmpfile : string)
    (bytesDone bytesTotal : Z) (withPath : bool) (w : World) (content : list byte) :
  w_fs w !! file = Some content ->
  exists new : list Call,
    w_calls (uploadFile sha256 aws isatty fuel config prefix file tmpfile bytesDone
               bytesTotal withPath w).2 = w_calls w ++ new /\
    (forall pre c post,
       new = pre ++ c :: post -> is_commit c = true ->
       post = [] /\
       (exists uploadId root,
          tree_root sha256 (tree_leaves sha256 content) = Some root /\
          c_cmd c = CompleteMultipartUpload (glacier_vault config) uploadId
                      (hexdigest root) (Z.of_nat (length content))) /\
       (uploadFile sha256 aws isatty fuel config prefix file tmpfile bytesDone
          bytesTotal withPath w).1 = Ret (code (c_result c) =? 0)) /\
    ((uploadFile sha256 aws isatty fuel config prefix file tmpfile bytesDone
        bytesTotal withPath w).1 = Ret true ->
     exists c, last new = Some c /\ is_commit c = true /\ code (c_result c) = 0).
Proof.
  intros Hfile.
  destruct (uploadFile_log sha256 aws isatty fuel config prefix file tmpfile bytesDone
              bytesTotal withPath w)
    as [_ [(Hcalls & Hres) | (content' & hashes & new & Hfile' & Hhash & Hcalls & Hlog)]].
  - exists []. rewrite app_nil_r. split; [exact Hcalls|]. split; [|congruence].
    intros pre c post Heq. destruct pre; discriminate.
  - rewrite Hfile in Hfile'. injection Hfile' as <-.
    exists new. split; [exact Hcalls|].
    destruct (upload_log_commit _ _ _ _ _ _ _ _ _ Hlog) as [Hcommit Hlast].
    split; [|exact Hlast].
    intros pre c post Heq Hc.
    destruct (Hcommit pre c post Heq Hc) as (Hpost & (uploadId & Hcmd) & Hres).
    split; [exact Hpost|]. split; [|exact Hres].
    exists uploadId, (final hashes). split; [|exact Hcmd].
    apply (hashFile_fuel_mono sha256 fuel (fuel + S (length content))) in Hhash; [|lia].
    destruct (hashFile_existing sha256 (fuel + S (length content)) (w_fs w) file content
                (planChunkSize (Z.of_nat (length content))) Hfile)
      as (fin & root & Hrun & _ & Hroot); [lia|].
    rewrite Hrun in Hhash. injection Hhash as <-. exact Hroot.
Qed.

Lemma uploadFile_commit_last_with_tree_hash_witness :
  exists new : list Call,
    w_calls (uploadFile sample_digest sample_aws_match false 4 sample_config "1/1 "
               "/prep/a.tar" "/tmp/stage" 0 3 false sample_world).2
    = w_calls sample_world ++ new /\
    (forall pre c post,
       new = pre ++ c :: post -> is_commit c = true ->
       post = [] /\
       (exists uploadId root,
          tree_root sample_digest (tree_leaves sample_digest [x61; x62; x63]) = Some root /\
          c_cmd c = CompleteMultipartUpload (glacier_vault sample_config) uploadId
                      (hexdigest root) (Z.of_nat (length [x61; x62; x63]))) /\
       (uploadFile sample_digest sample_aws_match false 4 sample_config "1/1 "
          "/prep/a.tar" "/tmp/stage" 0 3 false sample_world).1
       = Ret (code (c_result c) =? 0)) /\
    ((uploadFile sample_digest sample_aws_match false 4 sample_config "1/1 "
        "/prep/a.tar" "/tmp/stage" 0 3 false sample_world).1 = Ret true ->
     exists c, last new = Some c /\ is_commit c = true /\ code (c_result c) = 0).
Proof.
  apply (uploadFile_commit_last_with_tree_hash sample_digest sample_aws_match false 4
           sample_config "1/1 " "/prep/a.tar" "/tmp/stage" 0 3 false sample_world
           [x61; x62; x63]).
  reflexivity.
Defined.

(** X8: [uploadFile] changes no file but the staging file: at every other
    path the file system holds after the run what it held before, however
    the run ends. *)
Theorem uploadFile_writes_only_staging_file
    (sha256 : list byte -> list byte) (aws : nat -> AwsResult) (isatty : bool)
    (fuel : nat) (config : Config) (prefix file tmpfile : string)
    (bytesDone bytesTotal : Z) (withPath : bool) (w : World) (path : string) :
  path <> tmpfile ->
  w_fs (uploadFile sha256 aws isatty fuel config prefix file tmpfile bytesDone
          bytesTotal withPath w).2 !! path
  = w_fs w !! path.
Proof.
  intros Hne.
  destruct (uploadFile_log sha256 aws isatty fuel config prefix file tmpfile bytesDone
              bytesTotal withPath w) as [Hfs _].
  now apply Hfs.
Qed.

Lemma uploadFile_writes_only_staging_file_witness :
  w_fs (uploadFile sample_digest sample_aws_match false 4 sample_config "1/1 "
          "/prep/a.tar" "/tmp/stage" 0 3 false sample_world).2 !! "/prep/a.tar"
  = w_fs sample_world !! "/prep/a.tar".
Proof.
  apply (uploadFile_writes_only_staging_file sample_digest sample_aws_match false 4
           sample_config "1/1 " "/prep/a.tar" "/tmp/stage" 0 3 false sample_world
           "/prep/a.tar").
  discriminate.
Defined.

(** ** How the first call decides the run *)

Section Initiate.

Variable sha256 : list byte -> list byte.
Variable aws : nat -> AwsResult.
Variable isatty : bool.

(** The first steps of the remote part, up to the progress line. *)
Lemma upload_hashed_initiate (fuel : nat) (config : Config) (vault : string)
    (file tmpfile name : string) (size chunkSize : Z) (hashes : Hashes)
    (bytesDone bytesTotal : Z) (w : World) :
  glacier_vault config = Some vault ->
  let r := aws (length (w_calls w)) in
  let w1 := initiated config name chunkSize r w in
  (code r <> 0 ->
   upload_hashed aws isatty fuel config file tmpfile name size chunkSize hashes
     bytesDone bytesTotal w
   = (Ret false, (logging_error "Unable to initiate upload: %s" w1).2)) /\
  (code r = 0 -> json r = None ->
   upload_hashed aws isatty fuel config file tmpfile name size chunkSize hashes
     bytesDone bytesTotal w
   = (Raise TypeError, w1)) /\
  (forall j, code r = 0 -> json r = Some j -> j !! "uploadId" = None ->
   upload_hashed aws isatty fuel config file tmpfile name size chunkSize hashes
     bytesDone bytesTotal w
   = (Ret false, (logging_error "Unable to initiate upload: %s" w1).2)) /\
  (forall j uploadId,
     code r = 0 -> json r = Some j -> j !! "uploadId" = Some uploadId ->
     isatty = true -> bytesTotal = 0 ->
     upload_hashed aws isatty fuel config file tmpfile name size chunkSize hashes
       bytesDone bytesTotal w
     = (Raise ZeroDivisionError, w1)).
Proof.
  intros Hv r w1. subst r w1. unfold upload_hashed, initiated.
  split; [|split; [|split]]; intros;
    unfold mbind at 1, M_bind; rewrite (awsCommand_run aws config vault _ w Hv);
    unfold mbind at 1, M_bind.
  - match goal with H : code _ <> 0 |- _ => apply Z.eqb_neq in H; rewrite H end.
    reflexivity.
  - match goal with H : code _ = 0, H' : json _ = None |- _ => rewrite H, H' end.
    reflexivity.
  - match goal with H : code _ = 0, H' : json _ = Some _, H'' : _ !! _ = None |- _ =>
      rewrite H, H'; cbn [Z.eqb negb mret M_ret]; rewrite H'' end.
    reflexivity.
  - subst.
    match goal with H : code _ = 0, H' : json _ = Some _, H'' : _ !! _ = Some _ |- _ =>
      rewrite H, H'; cbn [Z.eqb negb mret M_ret]; rewrite H'' end.
    reflexivity.
Qed.

End Initiate.

(** X9: when the tool refuses to initiate the upload, by a non-zero exit
    code or by output without an upload id, [uploadFile] returns [False]
    after that single call, having logged that it could not initiate, and
    touches no file. *)
Theorem uploadFile_initiate_refused
    (sha256 : list byte -> list byte) (aws : nat -> AwsResult) (isatty : bool)
    (fuel : nat) (config : Config) (vault prefix file tmpfile : string)
    (bytesDone bytesTotal : Z) (withPath : bool) (w : World) (content : list byte) :
  w_fs w !! file = Some content ->
  (length content < fuel)%nat ->
  glacier_vault config = Some vault ->
  (code (aws (length (w_calls w))) <> 0 \/
   code (aws (length (w_calls w))) = 0 /\
   exists j, json (aws (length (w_calls w))) = Some j /\ j !! "uploadId" = None) ->
  uploadFile sha256 aws isatty fuel config prefix file tmpfile bytesDone bytesTotal
    withPath w
  = (Ret false,
     {| w_fs := w_fs w;
        w_calls := w_calls w
                   ++ [call_of (InitiateMultipartUpload (Some vault)
                                  (if withPath then file else os_path_basename file)
                                  (planChunkSize (Z.of_nat (length content))))
                         (w_fs w) (aws (length (w_calls w)))];
        w_errors := w_errors w ++ ["Unable to initiate upload: %s"];
        w_sleeps := w_sleeps w |}).
Proof.
  intros Hfile Hfuel Hv Hrefused.
  destruct (hashFile_existing sha256 fuel (w_fs w) file content
              (planChunkSize (Z.of_nat (length content))) Hfile Hfuel)
    as (fin & root & Hhash & _).
  rewrite (uploadFile_existing sha256 aws isatty fuel config prefix file tmpfile
             bytesDone bytesTotal withPath w content _ Hfile Hhash).
  destruct (upload_hashed_initiate aws isatty fuel config vault file tmpfile
              (if withPath then file else os_path_basename file)
              (Z.of_nat (length content)) (planChunkSize (Z.of_nat (length content)))
              {| blocks := fin; final := root |} bytesDone bytesTotal w Hv)
    as (Hcode & _ & Hid & _).
  unfold initiated in *. rewrite Hv in *.
  destruct Hrefused as [Hne | (Hzero & j & Hjson & Hnone)].
  - now rewrite (Hcode Hne).
  - now rewrite (Hid j Hzero Hjson Hnone).
Qed.

Lemma uploadFile_initiate_refused_witness :
  uploadFile sample_digest sample_aws_refused false 4 sample_config "1/1 "
    "/prep/a.tar" "/tmp/stage" 0 3 false sample_world
  = (Ret false,
     {| w_fs := w_fs sample_world;
        w_calls := w_calls sample_world
                   ++ [call_of (InitiateMultipartUpload (Some "vault")
                                  (if false then "/prep/a.tar"
                                   else os_path_basename "/prep/a.tar")
                                  (planChunkSize (Z.of_nat (length [x61; x62; x63]))))
                         (w_fs sample_world)
                         (sample_aws_refused (length (w_calls sample_world)))];
        w_errors := w_errors sample_world ++ ["Unable to initiate upload: %s"];
        w_sleeps := w_sleeps sample_world |}).
Proof.
  apply (uploadFile_initiate_refused sample_digest sample_aws_refused false 4
           sample_config "vault" "1/1 " "/prep/a.tar" "/tmp/stage" 0 3 false
           sample_world [x61; x62; x63]).
  - reflexivity.
  - cbn. lia.
  - reflexivity.
  - left. cbn. lia.
Defined.

(** X10: when the tool exits with code 0 on the initiate call but its
    output is not JSON, the membership test on line 171 runs on [None]:
    [uploadFile] raises [TypeError] after that single call instead of
    returning [False], and logs nothing. *)
Theorem uploadFile_initiate_unparsable_raises
    (sha256 : list byte -> list byte) (aws : nat -> AwsResult) (isatty : bool)
    (fuel : nat) (config : Config) (vault prefix file tmpfile : string)
    (bytesDone bytesTotal : Z) (withPath : bool) (w : World) (content : list byte) :
  w_fs w !! file = Some content ->
  (length content < fuel)%nat ->
  glacier_vault config = Some vault ->
  code (aws (length (w_calls w))) = 0 ->
  json (aws (length (w_calls w))) = None ->
  uploadFile sha256 aws isatty fuel config prefix file tmpfile bytesDone bytesTotal
    withPath w
  = (Raise TypeError,
     {| w_fs := w_fs w;
        w_calls := w_calls w
                   ++ [call_of (InitiateMultipartUpload (Some vault)
                                  (if withPath then file else os_path_basename file)
                                  (planChunkSize (Z.of_nat (length content))))
                         (w_fs w) (aws (length (w_calls w)))];
        w_errors := w_errors w;
        w_sleeps := w_sleeps w |}).
Proof.
  intros Hfile Hfuel Hv Hcode Hjson.
  destruct (hashFile_existing sha256 fuel (w_fs w) file content
              (planChunkSize (Z.of_nat (length content))) Hfile Hfuel)
    as (fin & root & Hhash & _).
  rewrite (uploadFile_existing sha256 aws isatty fuel config prefix file tmpfile
             bytesDone bytesTotal withPath w content _ Hfile Hhash).
  destruct (upload_hashed_initiate aws isatty fuel config vault file tmpfile
              (if withPath then file else os_path_basename file)
              (Z.of_nat (length content)) (planChunkSize (Z.of_nat (length content)))
              {| blocks := fin; final := root |} bytesDone bytesTotal w Hv)
    as (_ & Hnone & _).
  unfold initiated in *. rewrite Hv in *.
  now rewrite (Hnone Hcode Hjson).
Qed.

Lemma uploadFile_initiate_unparsable_raises_witness :
  uploadFile sample_digest sample_aws_silent false 4 sample_config "1/1 "
    "/prep/a.tar" "/tmp/stage" 0 3 false sample_world
  = (Raise TypeError,
     {| w_fs := w_fs sample_world;
        w_calls := w_calls sample_world
                   ++ [call_of (InitiateMultipartUpload (Some "vault")
                                  (if false then "/prep/a.tar"
                                   else os_path_basename "/prep/a.tar")
                                  (planChunkSize (Z.of_nat (length [x61; x62; x63]))))
                         (w_fs sample_world)
                         (sample_aws_silent (length (w_calls sample_world)))];
        w_errors := w_errors sample_world;
        w_sleeps := w_sleeps sample_world |}).
Proof.
  apply (uploadFile_initiate_unparsable_raises sample_digest sample_aws_silent false 4
           sample_config "vault" "1/1 " "/prep/a.tar" "/tmp/stage" 0 3 false
           sample_world [x61; x62; x63]).
  - reflexivity.
  - cbn. lia.
  - reflexivity.
  - reflexivity.
  - reflexivity.
Defined.

(** X11: on a terminal, with [bytesTotal] zero (its default), the first
    progress line divides by zero: once the upload is initiated, [uploadFile]
    raises [ZeroDivisionError] before it sends any part. *)
Theorem uploadFile_tty_zero_total_raises
    (sha256 : list byte -> list byte) (aws : nat -> AwsResult)
    (fuel : nat) (config : Config) (vault prefix file tmpfile : string)
    (bytesDone : Z) (withPath : bool) (w : World) (content : list byte)
    (j : gmap string string) (uploadId : string) :
  w_fs w !! file = Some content ->
  (length content < fuel)%nat ->
  glacier_vault config = Some vault ->
  code (aws (length (w_calls w))) = 0 ->
  json (aws (length (w_calls w))) = Some j ->
  j !! "uploadId" = Some uploadId ->
  uploadFile sha256 aws true fuel config prefix file tmpfile bytesDone 0 withPath w
  = (Raise ZeroDivisionError,
     {| w_fs := w_fs w;
        w_calls := w_calls w
                   ++ [call_of (InitiateMultipartUpload (Some vault)
                                  (if withPath then file else os_path_basename file)
                                  (planChunkSize (Z.of_nat (length content))))
                         (w_fs w) (aws (length (w_calls w)))];
        w_errors := w_errors w;
        w_sleeps := w_sleeps w |}).
Proof.
  intros Hfile Hfuel Hv Hcode Hjson Hid.
  destruct (hashFile_existing sha256 fuel (w_fs w) file content
              (planChunkSize (Z.of_nat (length content))) Hfile Hfuel)
    as (fin & root & Hhash & _).
  rewrite (uploadFile_existing sha256 aws true fuel config prefix file tmpfile
             bytesDone 0 withPath w content _ Hfile Hhash).
  destruct (upload_hashed_initiate aws true fuel config vault file tmpfile
              (if withPath then file else os_path_basename file)
              (Z.of_nat (length content)) (planChunkSize (Z.of_nat (length content)))
              {| blocks := fin; final := root |} bytesDone 0 w Hv)
    as (_ & _ & _ & Htty).
  unfold initiated in *. rewrite Hv in *.
  now rewrite (Htty j uploadId Hcode Hjson Hid eq_refl eq_refl).
Qed.

Lemma uploadFile_tty_zero_total_raises_witness :
  uploadFile sample_digest sample_aws_match true 4 sample_config "1/1 "
    "/prep/a.tar" "/tmp/stage" 0 0 false sample_world
  = (Raise ZeroDivisionError,
     {| w_fs := w_fs sample_world;
        w_calls := w_calls sample_world
                   ++ [call_of (InitiateMultipartUpload (Some "vault")
                                  (if false then "/prep/a.tar"
                                   else os_path_basename "/prep/a.tar")
                                  (planChunkSize (Z.of_nat (length [x61; x62; x63]))))
                         (w_fs sample_world)
                         (sample_aws_match (length (w_calls sample_world)))];
        w_errors := w_errors sample_world;
        w_sleeps := w_sleeps sample_world |}).
Proof.
  apply (uploadFile_tty_zero_total_raises sample_digest sample_aws_match 4
           sample_config "vault" "1/1 " "/prep/a.tar" "/tmp/stage" 0 false
           sample_world [x61; x62; x63]
           {[ "uploadId" := "upload-1";
              "checksum" := hexdigest (sample_digest [x61; x62; x63]) ]} "upload-1").
  - reflexivity.
  - cbn. lia.
  - reflexivity.
  - reflexivity.
  - reflexivity.
  - reflexivity.
Defined.

(** X12: without a vault in the configuration [uploadFile] runs no
    subprocess at all: [awsCommand] logs its complaint and returns [None],
    and [uploadFile] logs that it could not initiate and returns [False]. *)
Theorem uploadFile_without_vault
    (sha256 : list byte -> list byte) (aws : nat -> AwsResult) (isatty : bool)
    (fuel : nat) (config : Config) (prefix file tmpfile : string)
    (bytesDone bytesTotal : Z) (withPath : bool) (w : World) (content : list byte) :
  w_fs w !! file = Some content ->
  (length content < fuel)%nat ->
  glacier_vault config = None ->
  uploadFile sha256 aws isatty fuel config prefix file tmpfile bytesDone bytesTotal
    withPath w
  = (Ret false,
     {| w_fs := w_fs w;
        w_calls := w_calls w;
        w_errors := w_errors w ++ ["awsCommand() called without proper settings";
                                   "Unable to initiate upload: %s"];
        w_sleeps := w_sleeps w |}).
Proof.
  intros Hfile Hfuel Hv.
  destruct (hashFile_existing sha256 fuel (w_fs w) file content
              (planChunkSize (Z.of_nat (length content))) Hfile Hfuel)
    as (fin & root & Hhash & _).
  rewrite (uploadFile_existing sha256 aws isatty fuel config prefix file tmpfile
             bytesDone bytesTotal withPath w content _ Hfile Hhash).
  unfold upload_hashed, awsCommand. rewrite Hv.
  unfold mbind, M_bind, logging_error, mret, M_ret. cbn.
  now rewrite <- app_assoc.
Qed.

Lemma uploadFile_without_vault_witness :
  uploadFile sample_digest sample_aws_match false 4 sample_config_no_vault "1/1 "
    "/prep/a.tar" "/tmp/stage" 0 3 false sample_world
  = (Ret false,
     {| w_fs := w_fs sample_world;
        w_calls := w_calls sample_world;
        w_errors := w_errors sample_world
                    ++ ["awsCommand() called without proper settings";
                        "Unable to initiate upload: %s"];
        w_sleeps := w_sleeps sample_world |}).
Proof.
  apply (uploadFile_without_vault sample_digest sample_aws_match false 4
           sample_config_no_vault "1/1 " "/prep/a.tar" "/tmp/stage" 0 3 false
           sample_world [x61; x62; x63]).
  - reflexivity.
  - cbn. lia.
  - reflexivity.
Defined.

(** ** A run that succeeds *)

Lemma uploadFile_succeeds_witness :
  (uploadFile sample_digest sample_aws_match false 4 sample_config "1/1 "
     "/prep/a.tar" "/tmp/stage" 0 3 false sample_world).1 = Ret true.
Proof.
  apply (uploadFile_succeeds sample_digest sample_aws_match false 4 sample_config
           "vault" "1/1 " "/prep/a.tar" "/tmp/stage" 0 3 false sample_world
           [x61; x62; x63]).
  - reflexivity.
  - cbn. lia.
  - cbn. lia.
  - reflexivity.
  - now left.
  - intros hashes Hhash. vm_compute in Hhash. injection Hhash as <-.
    split; [reflexivity|]. split; [eexists _, _; split; reflexivity|].
    split; [|reflexivity].
    intros k Hk. vm_compute in Hk. exists (sample_digest [x61; x62; x63]).
    destruct k as [|k]; [split; reflexivity|].
    exfalso. lia.
Defined.

(** ** isConfigured *)

Lemma prefix_spec (needle : string) :
  forall hay : string,
    String.prefix needle hay = true <-> exists post, hay = needle +:+ post.
Proof.
  induction needle as [|a needle IH]; intros hay.
  - split; [intros _; now exists hay | intros _; now destruct hay].
  - destruct hay as [|b hay]; cbn [String.prefix].
    + split; [discriminate | intros [post Heq]; discriminate].
    + destruct (Ascii.ascii_dec a b) as [-> | Hne].
      * rewrite IH. split; intros [post Heq]; exists post.
        -- cbn. now rewrite Heq.
        -- cbn in Heq. now injection Heq.
      * split; [discriminate|]. intros [post Heq]. simpl in Heq.
        injection Heq as Hb _. congruence.
Qed.

(** [contains] is the substring test. *)
Lemma contains_spec (needle : string) :
  forall hay : string,
    contains needle hay = true <-> exists pre post, hay = pre +:+ needle +:+ post.
Proof.
  induction hay as [|c hay IH]; cbn [contains]; rewrite orb_true_iff, prefix_spec.
  - split.
    + intros [[post Heq] | ?]; [|discriminate]. now exists EmptyString, post.
    + intros (pre & post & Heq). left. exists post.
      destruct pre; [exact Heq | discriminate].
  - rewrite IH. split.
    + intros [[post Heq] | (pre & post & Heq)].
      * now exists EmptyString, post.
      * exists (String c pre), post. cbn. now rewrite Heq.
    + intros (pre & post & Heq). destruct pre as [|c' pre]; cbn in Heq.
      * left. now exists post.
      * right. injection Heq as _ Heq. now exists pre, post.
Qed.

Lemma lower_empty (s : string) : lower s = EmptyString -> s = EmptyString.
Proof. destruct s; [reflexivity | discriminate]. Qed.

(** [readline] takes the first of the lines and leaves the others. *)
Lemma readline_lines (f : string) :
  f <> EmptyString ->
  (readline f).1 <> EmptyString /\
  (String.length (readline f).2 < String.length f)%nat /\
  text_lines f = (readline f).1 :: text_lines (readline f).2.
Proof.
  induction f as [|c rest IH]; [congruence|]. intros _.
  cbn [readline text_lines]. destruct (Ascii.eqb c lf).
  - cbn. split; [discriminate|]. split; [lia | reflexivity].
  - destruct rest as [|c' rest'].
    + cbn. split; [discriminate|]. split; [lia | reflexivity].
    + destruct IH as (Hline & Hlen & Hlines); [discriminate|].
      destruct (readline (String c' rest')) as [line f'].
      cbn [fst snd String.length] in *. rewrite Hlines.
      split; [discriminate|]. split; [lia | reflexivity].
Qed.

(** The lines of a text, put end to end, are the text. *)
Lemma text_lines_join (s : string) :
  foldr String.append EmptyString (text_lines s) = s.
Proof.
  induction s as [|c rest IH]; [reflexivity|].
  cbn [text_lines]. destruct (Ascii.eqb c lf).
  - cbn. now rewrite IH.
  - destruct (text_lines rest) as [|line lines]; cbn in *; now rewrite <- IH.
Qed.

Lemma scan_config_spec (fuel : nat) :
  forall (f : string) (hasRegion hasJSON : bool),
    (String.length f < fuel)%nat ->
    scan_config fuel f hasRegion hasJSON
    = Ret (hasRegion || has_region (text_lines f), hasJSON || has_json (text_lines f)).
Proof.
  induction fuel as [|fuel IH]; intros f r j Hfuel; [lia|].
  destruct (decide (f = EmptyString)) as [-> | Hne].
  { cbn. now rewrite !orb_false_r. }
  destruct (readline_lines f Hne) as (Hline & Hlen & Hlines).
  cbn [scan_config]. rewrite Hlines.
  destruct (readline f) as [line f']. cbn [fst snd] in *.
  unfold has_region, has_json. cbn [existsb]. unfold mentions at 1 3 4 5.
  destruct (contains "region" (lower line)) eqn:Eregion.
  - rewrite IH by lia. cbn [negb andb orb].
    unfold has_region, has_json. now rewrite orb_true_r.
  - destruct (contains "output" (lower line) && contains "json" (lower line)) eqn:Ejson.
    + rewrite IH by lia. cbn [negb andb orb].
      unfold has_region, has_json. now rewrite orb_true_r.
    + destruct (String.eqb (lower line) EmptyString) eqn:Eend.
      * apply String.eqb_eq, lower_empty in Eend. congruence.
      * rewrite IH by lia. reflexivity.
Qed.

Lemma scan_credentials_spec (fuel : nat) :
  forall (f : string) (hasCred1 hasCred2 : bool),
    (String.length f < fuel)%nat ->
    scan_credentials fuel f hasCred1 hasCred2
    = Ret (hasCred1 || has_key_id (text_lines f),
           hasCred2 || has_secret_key (text_lines f)).
Proof.
  induction fuel as [|fuel IH]; intros f r j Hfuel; [lia|].
  destruct (decide (f = EmptyString)) as [-> | Hne].
  { cbn. now rewrite !orb_false_r. }
  destruct (readline_lines f Hne) as (Hline & Hlen & Hlines).
  cbn [scan_credentials]. rewrite Hlines.
  destruct (readline f) as [line f']. cbn [fst snd] in *.
  unfold has_key_id, has_secret_key. cbn [existsb]. unfold mentions at 1 3 4.
  destruct (contains "aws_access_key_id" (lower line)) eqn:Ekey.
  - rewrite IH by lia. cbn [negb andb orb].
    unfold has_key_id, has_secret_key. now rewrite orb_true_r.
  - destruct (contains "aws_secret_access_key" (lower line)) eqn:Esecret.
    + rewrite IH by lia. cbn [negb andb orb].
      unfold has_key_id, has_secret_key. now rewrite orb_true_r.
    + destruct (String.eqb (lower line) EmptyString) eqn:Eend.
      * apply String.eqb_eq, lower_empty in Eend. congruence.
      * rewrite IH by lia. reflexivity.
Qed.

Lemma length_string_of_list_ascii (l : list Ascii.ascii) :
  String.length (String.string_of_list_ascii l) = length l.
Proof. induction l as [|c l IH]; [reflexivity|]. cbn. now rewrite IH. Qed.

Lemma length_decode (content : list byte) (text : string) :
  decode content = Some text -> String.length text = length content.
Proof.
  unfold decode. destruct (forallb is_ascii content); [|discriminate].
  intros [= <-]. now rewrite length_string_of_list_ascii, length_map.
Qed.

Lemma length_universal_newlines (n : nat) :
  forall s : string,
    (String.length s < n)%nat ->
    (String.length (universal_newlines s) <= String.length s)%nat.
Proof.
  induction n as [|n IH]; intros s Hlen; [lia|].
  destruct s as [|c rest]; [reflexivity|]. cbn [universal_newlines String.length] in *.
  destruct (Ascii.eqb c cr).
  - destruct rest as [|c' rest']; cbn [String.length] in *; [lia|].
    destruct (Ascii.eqb c' lf).
    + specialize (IH rest'). lia.
    + specialize (IH (String c' rest')). cbn [String.length] in IH. lia.
  - cbn [String.length]. specialize (IH rest). lia.
Qed.

Section ConfiguredFacts.

Variable userhome : string.

Lemma io_open_ascii (path : string) (content : list byte) (text : string) (w : World) :
  w_fs w !! path = Some content ->
  decode content = Some text ->
  io_open path w = (Ret (universal_newlines text), w).
Proof. intros Hfile Htext. unfold io_open. now rewrite Hfile, Htext. Qed.

(** The four complaints and the closing one leave the world as it was but
    for the error log. *)
Lemma complain_unless_run (flag : bool) (msg : string) (w : World) :
  complain_unless flag msg w
  = (Ret tt, {| w_fs := w_fs w; w_calls := w_calls w;
                w_errors := w_errors w ++ complaint flag msg;
                w_sleeps := w_sleeps w |}).
Proof.
  unfold complain_unless, complaint. destruct flag; cbn; [|reflexivity].
  rewrite app_nil_r. now destruct w.
Qed.

(** The part of [isConfigured] after the two loops. *)
Lemma isConfigured_verdict (hasRegion hasJSON hasCred1 hasCred2 : bool) (w : World) :
  (complain_unless hasRegion "AWS configuration is missing region setting" ≫= fun _ =>
   complain_unless hasJSON
     "AWS configuration is missing output setting or it's not set to JSON" ≫= fun _ =>
   complain_unless hasCred1 "AWS configuration is missing aws_access_key_id" ≫= fun _ =>
   complain_unless hasCred2 "AWS configuration is missing aws_secret_access_key" ≫= fun _ =>
   if negb (hasRegion && hasJSON && hasCred1 && hasCred2) then
     logging_error
       "Please resolve issues by running aws tool with configure for current user" ≫=
     fun _ => mret false
   else mret true) w
  = (Ret (hasRegion && hasJSON && hasCred1 && hasCred2),
     {| w_fs := w_fs w; w_calls := w_calls w;
        w_errors :=
          w_errors w
          ++ complaint hasRegion "AWS configuration is missing region setting"
          ++ complaint hasJSON
               "AWS configuration is missing output setting or it's not set to JSON"
          ++ complaint hasCred1 "AWS configuration is missing aws_access_key_id"
          ++ complaint hasCred2 "AWS configuration is missing aws_secret_access_key"
          ++ complaint (hasRegion && hasJSON && hasCred1 && hasCred2)
               "Please resolve issues by running aws tool with configure for current user";
        w_sleeps := w_sleeps w |}).
Proof.
  unfold mbind, M_bind. rewrite !complain_unless_run. cbn [w_fs w_calls w_errors w_sleeps].
  destruct hasRegion, hasJSON, hasCred1, hasCred2;
    cbn [andb negb complaint logging_error mret M_ret w_fs w_calls w_errors w_sleeps app];
    rewrite ?app_nil_r, <- ?app_assoc; reflexivity.
Qed.

End ConfiguredFacts.

(** X16: with both files in place, in ASCII, [isConfigured] returns [True]
    exactly when some line of the configuration mentions the region, some
    line of it that does not mention the region mentions both the output
    and json, some line of the credentials mentions the key id and some line
    of them that does not mention the key id mentions the secret key, all in
    any letter case and with any of the three line endings; it logs one
    complaint for each of the four that is missing, in this order, and a
    closing one if any is; and it changes nothing else. *)
Theorem isConfigured_spec (userhome : string) (fuel : nat) (w : World)
    (config credentials : list byte) (config_text credentials_text : string) :
  w_fs w !! os_path_expanduser userhome "~/.aws/config" = Some config ->
  w_fs w !! os_path_expanduser userhome "~/.aws/credentials" = Some credentials ->
  decode config = Some config_text ->
  decode credentials = Some credentials_text ->
  (length config < fuel)%nat ->
  (length credentials < fuel)%nat ->
  let lines := text_lines (universal_newlines config_text) in
  let secrets := text_lines (universal_newlines credentials_text) in
  let ok := has_region lines && has_json lines
            && has_key_id secrets && has_secret_key secrets in
  isConfigured userhome fuel w
  = (Ret ok,
     {| w_fs := w_fs w; w_calls := w_calls w;
        w_errors :=
          w_errors w
          ++ complaint (has_region lines) "AWS configuration is missing region setting"
          ++ complaint (has_json lines)
               "AWS configuration is missing output setting or it's not set to JSON"
          ++ complaint (has_key_id secrets)
               "AWS configuration is missing aws_access_key_id"
          ++ complaint (has_secret_key secrets)
               "AWS configuration is missing aws_secret_access_key"
          ++ complaint ok
               "Please resolve issues by running aws tool with configure for current user";
        w_sleeps := w_sleeps w |}).
Proof.
  intros Hconfig Hcred Htext1 Htext2 Hfuel1 Hfuel2 lines secrets ok.
  unfold isConfigured.
  unfold mbind at 1, M_bind. unfold mbind at 1, M_bind. unfold os_path_exists at 1.
  rewrite bool_decide_eq_true_2 by (rewrite Hconfig; eauto). cbn [negb].
  unfold os_path_exists at 1.
  rewrite bool_decide_eq_true_2 by (rewrite Hcred; eauto). cbn [negb].
  unfold mbind at 1, M_bind. rewrite (io_open_ascii _ config config_text w Hconfig Htext1).
  unfold mbind at 1, M_bind. unfold lift at 1.
  rewrite scan_config_spec.
  2:{ pose proof (length_universal_newlines (S (String.length config_text)) config_text
                    ltac:(lia)) as Hle.
      rewrite (length_decode config config_text Htext1) in Hle. lia. }
  unfold mbind at 1, M_bind.
  rewrite (io_open_ascii _ credentials credentials_text w Hcred Htext2).
  unfold mbind at 1, M_bind. unfold lift at 1.
  rewrite scan_credentials_spec.
  2:{ pose proof (length_universal_newlines (S (String.length credentials_text))
                    credentials_text ltac:(lia)) as Hle.
      rewrite (length_decode credentials credentials_text Htext2) in Hle. lia. }
  cbn [orb]. fold lines secrets.
  apply isConfigured_verdict.
Qed.

Lemma isConfigured_spec_witness :
  let lines := text_lines (universal_newlines
                 (String.append "[default]" (String lf
                  (String.append "Region = eu-west-1" (String cr (String lf
                  (String.append "output = json" (String lf EmptyString)))))))) in
  let secrets := text_lines (universal_newlines
                   (String.append "[default]" (String lf
                    (String.append "aws_access_key_id = AKIA" (String lf
                    (String.append "aws_secret_access_key = abc" EmptyString)))))) in
  let ok := has_region lines && has_json lines
            && has_key_id secrets && has_secret_key secrets in
  isConfigured "/home/u" 100 sample_home
  = (Ret ok,
     {| w_fs := w_fs sample_home; w_calls := w_calls sample_home;
        w_errors :=
          w_errors sample_home
          ++ complaint (has_region lines) "AWS configuration is missing region setting"
          ++ complaint (has_json lines)
               "AWS configuration is missing output setting or it's not set to JSON"
          ++ complaint (has_key_id secrets)
               "AWS configuration is missing aws_access_key_id"
          ++ complaint (has_secret_key secrets)
               "AWS configuration is missing aws_secret_access_key"
          ++ complaint ok
               "Please resolve issues by running aws tool with configure for current user";
        w_sleeps := w_sleeps sample_home |}).
Proof.
  apply (isConfigured_spec "/home/u" 100 sample_home
           (encode (String.append "[default]" (String lf
                  (String.append "Region = eu-west-1" (String cr (String lf
                  (String.append "output = json" (String lf EmptyString))))))))
           (encode (String.append "[default]" (String lf
                    (String.append "aws_access_key_id = AKIA" (String lf
                    (String.append "aws_secret_access_key = abc" EmptyString))))))).
  - vm_compute. reflexivity.
  - vm_compute. reflexivity.
  - vm_compute. reflexivity.
  - vm_compute. reflexivity.
  - vm_compute. lia.
  - vm_compute. lia.
Defined.

(** X17: [isConfigured] only ever writes to the error log: it changes no
    file, runs no subprocess and never sleeps.  It returns [True] only if it
    logged nothing; when it returns [False] it logged at least one error,
    the last of which says that AWS is not configured or asks to resolve the
    issues; and when it raises it logged nothing either. *)
Theorem isConfigured_True_iff_silent (userhome : string) (fuel : nat) (w : World) :
  w_fs (isConfigured userhome fuel w).2 = w_fs w /\
  w_calls (isConfigured userhome fuel w).2 = w_calls w /\
  w_sleeps (isConfigured userhome fuel w).2 = w_sleeps w /\
  ((isConfigured userhome fuel w).1 <> Ret false ->
   w_errors (isConfigured userhome fuel w).2 = w_errors w) /\
  ((isConfigured userhome fuel w).1 = Ret false ->
   exists (msgs : list string) (closing : string),
     w_errors (isConfigured userhome fuel w).2 = w_errors w ++ msgs ++ [closing] /\
     (closing
      = "AWS is not configured, please run aws tool with configure for current user"
      \/ closing
         = "Please resolve issues by running aws tool with configure for current user")).
Proof.
  destruct (isConfigured userhome fuel w) as [o w'] eqn:Hrun. cbn [fst snd].
  assert (Hmissing :
            (o, w')
            = (Ret false,
               (logging_error
                  "AWS is not configured, please run aws tool with configure for current user"
                  w).2) ->
            w_fs w' = w_fs w /\ w_calls w' = w_calls w /\ w_sleeps w' = w_sleeps w /\
            (o <> Ret false -> w_errors w' = w_errors w) /\
            (o = Ret false ->
             exists (msgs : list string) (closing : string),
               w_errors w' = w_errors w ++ msgs ++ [closing] /\
               (closing
                = "AWS is not configured, please run aws tool with configure for current user"
                \/ closing
                   = "Please resolve issues by running aws tool with configure for current user"))).
  { intros [= -> ->]. cbn. split; [reflexivity|]. split; [reflexivity|].
    split; [reflexivity|]. split; [congruence|]. intros _.
    exists [], "AWS is not configured, please run aws tool with configure for current user".
    split; [reflexivity | now left]. }
  assert (Hquiet :
            w' = w -> o <> Ret false ->
            w_fs w' = w_fs w /\ w_calls w' = w_calls w /\ w_sleeps w' = w_sleeps w /\
            (o <> Ret false -> w_errors w' = w_errors w) /\
            (o = Ret false ->
             exists (msgs : list string) (closing : string),
               w_errors w' = w_errors w ++ msgs ++ [closing] /\
               (closing
                = "AWS is not configured, please run aws tool with configure for current user"
                \/ closing
                   = "Please resolve issues by running aws tool with configure for current user"))).
  { intros -> Ho. split; [reflexivity|]. split; [reflexivity|]. split; [reflexivity|].
    split; [reflexivity | congruence]. }
  unfold isConfigured in Hrun.
  unfold mbind at 1, M_bind in Hrun. unfold mbind at 1, M_bind in Hrun.
  unfold os_path_exists at 1 in Hrun.
  destruct (bool_decide (is_Some (w_fs w !! os_path_expanduser userhome "~/.aws/config")));
    cbn [negb mret M_ret] in Hrun; [|now apply Hmissing].
  unfold os_path_exists at 1 in Hrun.
  destruct (bool_decide
              (is_Some (w_fs w !! os_path_expanduser userhome "~/.aws/credentials")));
    cbn [negb] in Hrun; [|now apply Hmissing].
  clear Hmissing.
  unfold mbind at 1, M_bind in Hrun. unfold io_open at 1 in Hrun.
  destruct (w_fs w !! os_path_expanduser userhome "~/.aws/config") as [config|];
    [|injection Hrun as <- <-; now apply Hquiet].
  destruct (decode config) as [config_text|];
    [|injection Hrun as <- <-; now apply Hquiet].
  unfold mbind at 1, M_bind in Hrun. unfold lift at 1 in Hrun.
  destruct (scan_config fuel (universal_newlines config_text) false false)
    as [[hasRegion hasJSON] | e |];
    [| injection Hrun as <- <-; now apply Hquiet..].
  unfold mbind at 1, M_bind in Hrun. unfold io_open at 1 in Hrun.
  destruct (w_fs w !! os_path_expanduser userhome "~/.aws/credentials") as [credentials|];
    [|injection Hrun as <- <-; now apply Hquiet].
  destruct (decode credentials) as [credentials_text|];
    [|injection Hrun as <- <-; now apply Hquiet].
  unfold mbind at 1, M_bind in Hrun. unfold lift at 1 in Hrun.
  destruct (scan_credentials fuel (universal_newlines credentials_text) false false)
    as [[hasCred1 hasCred2] | e |];
    [| injection Hrun as <- <-; now apply Hquiet..].
  rewrite isConfigured_verdict in Hrun. injection Hrun as <- <-.
  cbn [w_fs w_calls w_errors w_sleeps].
  split; [reflexivity|]. split; [reflexivity|]. split; [reflexivity|].
  destruct (hasRegion && hasJSON && hasCred1 && hasCred2) eqn:Hok.
  - apply andb_prop in Hok as [Hok ->]. apply andb_prop in Hok as [Hok ->].
    apply andb_prop in Hok as [-> ->]. cbn [complaint app].
    split; [intros _; now rewrite app_nil_r | discriminate].
  - split; [congruence|]. intros _.
    exists (complaint hasRegion "AWS configuration is missing region setting"
            ++ complaint hasJSON
                 "AWS configuration is missing output setting or it's not set to JSON"
            ++ complaint hasCred1 "AWS configuration is missing aws_access_key_id"
            ++ complaint hasCred2 "AWS configuration is missing aws_secret_access_key"),
      "Please resolve issues by running aws tool with configure for current user".
    split; [|now right]. cbn [complaint]. now rewrite <- !app_assoc.
Qed.

(** ** Termination of the upload *)

Section Termination.

Variable sha256 : list byte -> list byte.
Variable aws : nat -> AwsResult.
Variable isatty : bool.

Lemma part_accepted_ends (hashes : Hashes) (block : Z) (result : option AwsResult)
    (w : World) :
  (part_accepted hashes block result w).1 <> OutOfFuel.
Proof.
  unfold part_accepted.
  destruct result as [r|]; [|discriminate].
  destruct (json r) as [j|]; [|discriminate].
  destruct (j !! "checksum"); [|discriminate].
  destruct (py_index _ _); [|discriminate].
  destruct (bool_decide _); discriminate.
Qed.

(** The retry loop counts down from ten: it ends. *)
Lemma upload_part_ends (config : Config) (hashes : Hashes) (uploadId tmpfile : string)
    (offset chunk block : Z) (retry : nat) :
  forall w : World,
    (upload_part aws retry config hashes uploadId tmpfile offset chunk block w).1
    <> OutOfFuel.
Proof.
  induction retry as [|tries IH]; intros w; [discriminate|].
  destruct (upload_part aws (S tries) config hashes uploadId tmpfile offset chunk block w)
    as [o w'] eqn:Hrun. cbn [fst].
  cbn [upload_part] in Hrun. unfold mbind at 1, M_bind in Hrun.
  destruct (awsCommand aws config _ w) as [[result | e |] w1] eqn:Hcall.
  - unfold mbind at 1, M_bind in Hrun.
    pose proof (part_accepted_ends hashes block result w1) as Hacc.
    destruct (part_accepted hashes block result w1) as [[[|] | e |] w2]; cbn [fst] in Hacc.
    + injection Hrun as <- _. discriminate.
    + unfold mbind at 1, M_bind in Hrun. cbn [time_sleep] in Hrun.
      match type of Hrun with upload_part _ _ _ _ _ _ _ _ _ ?w3 = _ =>
        specialize (IH w3); rewrite Hrun in IH end.
      exact IH.
    + injection Hrun as <- _. discriminate.
    + congruence.
  - injection Hrun as <- _. discriminate.
  - exfalso. unfold awsCommand in Hcall. destruct (glacier_vault config); discriminate.
Qed.

(** Each round of the transfer loop sends one more part, so as many rounds
    as there are parts left are enough. *)
Lemma transfer_ends (config : Config) (hashes : Hashes)
    (file tmpfile uploadId : string) (size chunkSize bytesDone bytesTotal : Z) :
  0 < chunkSize ->
  forall (fuel : nat) (remain offset block : Z) (w : World),
    (Z.to_nat (ceil_div remain chunkSize) <= fuel)%nat ->
    (transfer aws isatty fuel config hashes file tmpfile uploadId size chunkSize
       bytesDone bytesTotal remain offset block w).1 <> OutOfFuel.
Proof.
  intros Hc.
  induction fuel as [|fuel IH]; intros remain offset block w Hfuel;
    pose proof (ceil_div_le_iff remain chunkSize 0 Hc) as Hzero;
    (destruct (Z_lt_ge_dec 0 remain) as [Hpos | Hdone];
     [| rewrite transfer_done by lia; discriminate]).
  - lia.
  - assert (Hpos' := Hpos). apply Z.ltb_lt in Hpos'.
    cbn [transfer]. rewrite Hpos'. unfold mbind at 1, M_bind.
    pose proof (extractChunk_result file tmpfile offset chunkSize w) as Hex.
    destruct (extractChunk file tmpfile offset chunkSize w) as [[extracted | e |] w1] eqn:E.
    + destruct extracted; cbn [negb]; [|discriminate].
      unfold mbind at 1, M_bind.
      pose proof (upload_part_ends config hashes uploadId tmpfile offset
                    (if chunkSize <? remain then chunkSize else remain) block 10 w1) as Hup.
      destruct (upload_part _ _ _ _ _ _ _ _ _ w1) as [[n | e |] w2]; cbn [fst] in *;
        [|discriminate | congruence].
      destruct (n =? 0)%nat; [discriminate|].
      unfold mbind at 1, M_bind.
      destruct (progress_run isatty [size; bytesTotal] w2) as [-> | ->]; [|discriminate].
      apply IH.
      destruct (chunkSize <? remain) eqn:Elt;
        [apply Z.ltb_lt in Elt | apply Z.ltb_ge in Elt].
      * assert (Hstep : ceil_div remain chunkSize
                        = 1 + ceil_div (remain - chunkSize) chunkSize).
        { unfold ceil_div.
          replace (remain + chunkSize - 1)
            with (remain - chunkSize + chunkSize - 1 + 1 * chunkSize) by lia.
          rewrite Z.div_add by lia. lia. }
        pose proof (ceil_div_le_iff (remain - chunkSize) chunkSize 0 Hc). lia.
      * replace (remain - remain) with 0 by lia.
        unfold ceil_div. rewrite Z.div_small by lia. lia.
    + discriminate.
    + exfalso. unfold extractChunk in E.
      destruct (w_fs w !! file); [|discriminate].
      destruct (offset <? 0); [discriminate|].
      destruct (size <? -1); discriminate || (destruct (chunkSize <? -1); discriminate).
Qed.

(** The remote part ends when the loop has fuel for every part. *)
Lemma upload_hashed_ends (fuel : nat) (config : Config) (file tmpfile name : string)
    (size chunkSize : Z) (hashes : Hashes) (bytesDone bytesTotal : Z) (w : World) :
  0 < chunkSize ->
  (Z.to_nat (ceil_div size chunkSize) <= fuel)%nat ->
  (upload_hashed aws isatty fuel config file tmpfile name size chunkSize hashes
     bytesDone bytesTotal w).1 <> OutOfFuel.
Proof.
  intros Hc Hfuel.
  destruct (upload_hashed aws isatty fuel config file tmpfile name size chunkSize hashes
              bytesDone bytesTotal w) as [o w'] eqn:Hrun. cbn [fst].
  unfold upload_hashed in Hrun. unfold mbind at 1, M_bind in Hrun.
  destruct (awsCommand aws config _ w) as [[result | e |] w1] eqn:Hcall.
  3:{ exfalso. unfold awsCommand in Hcall. destruct (glacier_vault config); discriminate. }
  2:{ injection Hrun as <- _. discriminate. }
  unfold mbind at 1, M_bind in Hrun.
  assert (Hstarted : forall started : option string,
            (match started with
             | Some uploadId =>
                 progress isatty [bytesTotal] ≫= fun _ =>
                 transfer aws isatty fuel config hashes file tmpfile uploadId size
                   chunkSize bytesDone bytesTotal size 0 0 ≫= fun sent =>
                 match sent with
                 | Fallthrough =>
                     awsCommand aws config
                       (CompleteMultipartUpload (glacier_vault config) uploadId
                          (hexdigest (final hashes)) size) ≫= fun result =>
                     match result with
                     | Some r =>
                         if code r =? 0 then mret true
                         else logging_error "Failed to upload %s: %s" ≫= fun _ => mret false
                     | None => logging_error "Failed to upload %s: %s" ≫= fun _ => mret false
                     end
                 | Return b => mret b
                 end
             | None => logging_error "Unable to initiate upload: %s" ≫= fun _ => mret false
             end w1).1 <> OutOfFuel).
  { intros [uploadId|]; [|discriminate].
    unfold mbind at 1, M_bind.
    destruct (progress_run isatty [bytesTotal] w1) as [-> | ->]; [|discriminate].
    unfold mbind at 1, M_bind.
    pose proof (transfer_ends config hashes file tmpfile uploadId size chunkSize
                  bytesDone bytesTotal Hc fuel size 0 0 w1 Hfuel) as Htr.
    destruct (transfer _ _ _ _ _ _ _ _ _ _ _ _ _ _ _ w1) as [[[|b] | e |] wt];
      cbn [fst] in *; try discriminate; [|congruence].
    unfold mbind at 1, M_bind.
    destruct (awsCommand aws config _ wt) as [[[r|] | e |] w2] eqn:Hcommit;
      try discriminate.
    - destruct (code r =? 0); discriminate.
    - exfalso. unfold awsCommand in Hcommit. destruct (glacier_vault config); discriminate. }
  apply (f_equal fst) in Hrun. cbn [fst] in Hrun. rewrite <- Hrun.
  destruct result as [r|].
  - destruct (negb (code r =? 0)); [exact (Hstarted None)|].
    destruct (json r) as [j|]; [|discriminate].
    exact (Hstarted (j !! "uploadId")).
  - exact (Hstarted None).
Qed.

End Termination.

(** X18: [uploadFile] ends, whatever the tool answers: the two loops of
    [hashFile] read the file to its end and halve the list of hashes, the
    retry loop counts ten attempts down, and every round of the transfer loop
    moves on by one part; a loop bound above the size of the file is never
    reached. *)
Theorem uploadFile_terminates
    (sha256 : list byte -> list byte) (aws : nat -> AwsResult) (isatty : bool)
    (fuel : nat) (config : Config) (prefix file tmpfile : string)
    (bytesDone bytesTotal : Z) (withPath : bool) (w : World) (content : list byte) :
  w_fs w !! file = Some content ->
  (length content < fuel)%nat ->
  (uploadFile sha256 aws isatty fuel config prefix file tmpfile bytesDone bytesTotal
     withPath w).1 <> OutOfFuel.
Proof.
  intros Hfile Hfuel.
  destruct (hashFile_existing sha256 fuel (w_fs w) file content
              (planChunkSize (Z.of_nat (length content))) Hfile Hfuel)
    as (fin & root & Hhash & _).
  rewrite (uploadFile_existing sha256 aws isatty fuel config prefix file tmpfile
             bytesDone bytesTotal withPath w content _ Hfile Hhash).
  pose proof (planChunkSize_pos (Z.of_nat (length content))) as Hc.
  apply upload_hashed_ends; [exact Hc|].
  pose proof (ceil_div_le_iff (Z.of_nat (length content))
                (planChunkSize (Z.of_nat (length content)))
                (Z.of_nat (length content)) Hc) as Hle.
  assert (ceil_div (Z.of_nat (length content)) (planChunkSize (Z.of_nat (length content)))
          <= Z.of_nat (length content)) by (apply Hle; nia).
  lia.
Qed.

Lemma uploadFile_terminates_witness :
  (uploadFile sample_digest sample_aws_mismatch false 4 sample_config "1/1 "
     "/prep/a.tar" "/tmp/stage" 0 3 false sample_world).1 <> OutOfFuel.
Proof.
  apply (uploadFile_terminates sample_digest sample_aws_mismatch false 4 sample_config
           "1/1 " "/prep/a.tar" "/tmp/stage" 0 3 false sample_world [x61; x62; x63]).
  - reflexivity.
  - cbn. lia.
Defined.

(** ** Part sizes the planner does not produce *)

(** X22: what [hashFile] puts in ['blocks'] for any part size.  For a part
    size of [2^j] MiB it is level [j] of the hash tree when the tree has
    more than [2^j] leaves (or [j] is 0), and nothing at all otherwise: a
    part as large as the file or larger leaves ['blocks'] empty.  A part
    size below 1 MiB leaves it empty as well. *)
Theorem hashFile_blocks_by_part_size
    (sha256 : list byte -> list byte) (fuel : nat) (fs : gmap string (list byte))
    (file : string) (content : list byte) :
  fs !! file = Some content ->
  (length content < fuel)%nat ->
  (forall j : nat,
     exists hashes,
       hashFile sha256 fuel fs file (MiB * 2 ^ Z.of_nat j) = Ret (Some hashes) /\
       blocks hashes
       = if (j =? 0)%nat
            || (2 ^ Z.of_nat j <? Z.of_nat (length (tree_leaves sha256 content)))
         then tree_level sha256 j (tree_leaves sha256 content) else []) /\
  (forall chunkSize : Z,
     chunkSize < MiB ->
     exists hashes,
       hashFile sha256 fuel fs file chunkSize = Ret (Some hashes) /\
       blocks hashes = []).
Proof.
  intros Hfile Hfuel. split.
  - intros j.
    destruct (hashFile_existing sha256 fuel fs file content (MiB * 2 ^ Z.of_nat j)
                Hfile Hfuel) as (fin & root & Hrun & Hrec & _).
    exists {| blocks := fin; final := root |}. split; [exact Hrun|].
    apply (recurse_final_at sha256 j fuel [] (tree_leaves sha256 content) MiB
             (fin, root)); [rewrite MiB_eq; lia | exact Hrec].
  - intros chunkSize Hlt.
    destruct (hashFile_existing sha256 fuel fs file content chunkSize Hfile Hfuel)
      as (fin & root & Hrun & Hrec & _).
    exists {| blocks := fin; final := root |}. split; [exact Hrun|].
    apply (recurse_final_past sha256 fuel chunkSize [] (tree_leaves sha256 content) MiB
             (fin, root)); [rewrite MiB_eq; lia | exact Hlt | exact Hrec].
Qed.

Lemma hashFile_blocks_by_part_size_witness :
  (forall j : nat,
     exists hashes,
       hashFile sample_digest 4 (w_fs sample_world) "/prep/a.tar"
         (MiB * 2 ^ Z.of_nat j) = Ret (Some hashes) /\
       blocks hashes
       = if (j =? 0)%nat
            || (2 ^ Z.of_nat j
                <? Z.of_nat (length (tree_leaves sample_digest [x61; x62; x63])))
         then tree_level sample_digest j (tree_leaves sample_digest [x61; x62; x63])
         else []) /\
  (forall chunkSize : Z,
     chunkSize < MiB ->
     exists hashes,
       hashFile sample_digest 4 (w_fs sample_world) "/prep/a.tar" chunkSize
       = Ret (Some hashes) /\
       blocks hashes = []).
Proof.
  apply (hashFile_blocks_by_part_size sample_digest 4 (w_fs sample_world) "/prep/a.tar"
           [x61; x62; x63]).
  - reflexivity.
  - cbn. lia.
Defined.

(** ** The staging file *)

(** X23: when the staging file is the file itself, [extractChunk] empties
    it: opening it for writing truncates it before anything is read, so
    nothing is read and nothing is written back. *)
Theorem extractChunk_onto_itself_empties_file
    (w : World) (file : string) (content : list byte) (offset size : Z) :
  w_fs w !! file = Some content ->
  0 <= offset -> 0 <= size ->
  extractChunk file file offset size w
  = (Ret true, set_fs (<[file := []]> (w_fs w)) w).
Proof.
  intros Hfile Ho Hs.
  rewrite (extractChunk_existing w file file content offset size Hfile Ho Hs).
  rewrite lookup_insert_eq. cbn [default from_option]. unfold read_at, id.
  rewrite drop_nil, take_nil. now rewrite insert_insert_eq.
Qed.

Lemma extractChunk_onto_itself_empties_file_witness :
  extractChunk "/prep/a.tar" "/prep/a.tar" 1 2 sample_world
  = (Ret true, set_fs (<["/prep/a.tar" := []]> (w_fs sample_world)) sample_world).
Proof.
  apply (extractChunk_onto_itself_empties_file sample_world "/prep/a.tar"
           [x61; x62; x63] 1 2).
  - reflexivity.
  - lia.
  - lia.
Defined.

(** ** The order of the calls *)

(** X24: [uploadFile] runs nothing before it has initiated the upload, and
    initiates once: if a run makes any call, the first is the
    [initiate-multipart-upload], run on the files as they were, with the
    planned part size and with the base name of the file as its description
    (the path as given if [withPath] is set); every later call uploads a part
    or commits. *)
Theorem uploadFile_initiates_first
    (sha256 : list byte -> list byte) (aws : nat -> AwsResult) (isatty : bool)
    (fuel : nat) (config : Config) (prefix file tmpfile : string)
    (bytesDone bytesTotal : Z) (withPath : bool) (w : World) (content : list byte) :
  w_fs w !! file = Some content ->
  exists new : list Call,
    w_calls (uploadFile sha256 aws isatty fuel config prefix file tmpfile bytesDone
               bytesTotal withPath w).2 = w_calls w ++ new /\
    (new = [] \/
     exists init rest,
       new = init :: rest /\
       c_cmd init
       = InitiateMultipartUpload (glacier_vault config)
           (if withPath then file else os_path_basename file)
           (planChunkSize (Z.of_nat (length content))) /\
       c_fs init = w_fs w /\
       Forall (fun c => is_part c || is_commit c = true) rest).
Proof.
  intros Hfile.
  destruct (uploadFile_log sha256 aws isatty fuel config prefix file tmpfile bytesDone
              bytesTotal withPath w)
    as [_ [(Hcalls & _) | (content' & hashes & new & Hfile' & _ & Hcalls & Hlog)]].
  - exists []. rewrite app_nil_r. split; [exact Hcalls | now left].
  - rewrite Hfile in Hfile'. injection Hfile' as <-.
    exists new. split; [exact Hcalls|]. right.
    destruct Hlog as (init & parts & tail & -> & Hinit & Hfs & Hcases).
    exists init, (parts ++ tail). split; [reflexivity|]. split; [exact Hinit|].
    split; [exact Hfs|].
    destruct Hcases as [(-> & -> & _) | (j & uploadId & _ & _ & _ & Hparts & _ & Htail)];
      [constructor|].
    apply Forall_app. split.
    + eapply Forall_impl; [exact Hparts|]. intros c Hc.
      apply part_call_is_part in Hc as [-> _]. reflexivity.
    + destruct Htail as [(-> & _) | (commit & -> & Hcmd & _)]; repeat constructor.
      unfold is_commit. rewrite Hcmd. apply orb_true_r.
Qed.

Lemma uploadFile_initiates_first_witness :
  exists new : list Call,
    w_calls (uploadFile sample_digest sample_aws_match false 4 sample_config "1/1 "
               "/prep/a.tar" "/tmp/stage" 0 3 false sample_world).2
    = w_calls sample_world ++ new /\
    (new = [] \/
     exists init rest,
       new = init :: rest /\
       c_cmd init
       = InitiateMultipartUpload (glacier_vault sample_config)
           (if false then "/prep/a.tar" else os_path_basename "/prep/a.tar")
           (planChunkSize (Z.of_nat (length [x61; x62; x63]))) /\
       c_fs init = w_fs sample_world /\
       Forall (fun c => is_part c || is_commit c = true) rest).
Proof.
  apply (uploadFile_initiates_first sample_digest sample_aws_match false 4
           sample_config "1/1 " "/prep/a.tar" "/tmp/stage" 0 3 false sample_world
           [x61; x62; x63]).
  reflexivity.
Defined.
